(** * NoobiOS task overlay engine: a shallow embedding of [app.js] and the
    AI engine/provider modules, with the properties of the overlay
    reconciliation engine and of the suggestion pipeline.

    Conventions of the embedding.
    - A JavaScript value that comes out of [JSON.parse], or that is built from
      such values, is a [jsval].  [VUndef] is the value of a missing property;
      [JSON.parse] never produces it.
    - Numbers are integers ([Z]), meant in the range where a double holds
      them exactly; the code only tests them for truthiness, compares them
      and prints them as property keys.
    - Strings are [string] (sequences of 8-bit characters): [toLowerCase] and
      [trim] act on the ASCII letters and the ASCII white space.
    - An object literal is an association list in insertion order; reading a
      property takes the first binding of the key, writing replaces it in
      place or appends a new binding, as property definition does.  The
      enumeration of integer-like keys ahead of the others, and the
      properties inherited from [Object.prototype], are not modelled.
    - [task_overrides] and [recurrence_overrides], objects used as
      dictionaries, are finite maps from property keys. *)

From Stdlib Require Import ZArith List Bool Ascii String DecimalString Lia.
From stdpp Require Import gmap strings.
Import ListNotations.

Local Open Scope Z_scope.

(** ** JavaScript values *)

Module Js.

#[local] Unset Elimination Schemes.

Inductive jsval : Type :=
| VUndef
| VNull
| VBool (b : bool)
| VNum (n : Z)
| VStr (s : string)
| VArr (xs : list jsval)
| VObj (props : list (string * jsval)).

#[local] Set Elimination Schemes.

(** The own properties of an object literal. *)
Abbreviation obj := (list (string * jsval)).

(** [ToBoolean]. *)
Definition truthy (v : jsval) : bool :=
  match v with
  | VUndef | VNull => false
  | VBool b => b
  | VNum n => negb (n =? 0)
  | VStr s => negb (String.eqb s "")
  | VArr _ | VObj _ => true
  end.

(** The [typeof] operator. *)
Definition typeof (v : jsval) : string :=
  match v with
  | VUndef => "undefined"
  | VNull => "object"
  | VBool _ => "boolean"
  | VNum _ => "number"
  | VStr _ => "string"
  | VArr _ | VObj _ => "object"
  end.

Definition isArray (v : jsval) : bool :=
  match v with VArr _ => true | _ => false end.

Definition isString (v : jsval) : bool :=
  match v with VStr _ => true | _ => false end.

(** [x || y] and [x ?? y]. *)
Definition jsOr (x y : jsval) : jsval := if truthy x then x else y.

Definition nullish (v : jsval) : bool :=
  match v with VUndef | VNull => true | _ => false end.

Definition jsCoalesce (x y : jsval) : jsval := if nullish x then y else x.

(** Own property lookup in an object literal. *)
Fixpoint lookupProp (k : string) (o : obj) : option jsval :=
  match o with
  | [] => None
  | (k', v) :: rest => if String.eqb k k' then Some v else lookupProp k rest
  end.

(** [v.k] for a property name [k] that is neither an index nor a member of a
    built-in prototype ([id], [op], [fields], [ops], ...).  On a primitive, on
    an array and on an object without the property the result is [undefined].
    Reading a property of [null] or [undefined] throws; the callers below
    guard those cases before they call [getField]. *)
Definition getField (v : jsval) (k : string) : jsval :=
  match v with
  | VObj o => match lookupProp k o with Some x => x | None => VUndef end
  | _ => VUndef
  end.

(** [o[k] = v]: overwrite in place, or append. *)
Fixpoint setProp (k : string) (v : jsval) (o : obj) : obj :=
  match o with
  | [] => [(k, v)]
  | (k', v') :: rest =>
      if String.eqb k k' then (k', v) :: rest else (k', v') :: setProp k v rest
  end.

(** [Object.assign(o, src)] on the own properties [src], in order. *)
Definition assign (o : obj) (src : obj) : obj :=
  fold_left (fun acc kv => setProp (fst kv) (snd kv) acc) src o.

(** Decimal spelling of an integer, as [Number.prototype.toString] gives it. *)
Definition showZ (n : Z) : string := NilZero.string_of_int (Z.to_int n).

Definition showNat (n : nat) : string := showZ (Z.of_nat n).

Fixpoint indexed (i : nat) (xs : list jsval) : obj :=
  match xs with
  | [] => []
  | x :: rest => (showNat i, x) :: indexed (S i) rest
  end.

Fixpoint chars (i : nat) (s : string) : obj :=
  match s with
  | EmptyString => []
  | String c rest => (showNat i, VStr (String c EmptyString)) :: chars (S i) rest
  end.

(** The own enumerable properties that an object spread [{...v}] or
    [Object.keys(v)] sees: the bindings of an object, the elements of an
    array and the characters of a string under their indices, nothing for
    the other primitives. *)
Definition ownEntries (v : jsval) : obj :=
  match v with
  | VObj o => o
  | VArr xs => indexed 0 xs
  | VStr s => chars 0 s
  | _ => []
  end.

Definition keys (v : jsval) : list string := map fst (ownEntries v).

(** [{...a, ...b}]: a copy of the own properties of [a], then those of [b]
    written over it. *)
Definition spread2 (a b : jsval) : obj :=
  assign (ownEntries a) (ownEntries b).

Fixpoint joinWith (sep : string) (parts : list string) : string :=
  match parts with
  | [] => ""
  | [p] => p
  | p :: rest => p +:+ sep +:+ joinWith sep rest
  end.

(** [ToString], which turns a value used in [o[v]] into a property key. *)
Fixpoint toPropertyKey (v : jsval) : string :=
  match v with
  | VUndef => "undefined"
  | VNull => "null"
  | VBool true => "true"
  | VBool false => "false"
  | VNum n => showZ n
  | VStr s => s
  | VArr xs =>
      joinWith ","
        (map (fun x => if nullish x then "" else toPropertyKey x) xs)
  | VObj _ => "[object Object]"
  end.

(** [SameValueZero], the comparison of [Set.prototype.has] and
    [Array.prototype.includes].  Objects and arrays are compared by
    reference: two of them that come from JSON text are never the same. *)
Definition sameValueZero (x y : jsval) : bool :=
  match x, y with
  | VUndef, VUndef => true
  | VNull, VNull => true
  | VBool a, VBool b => Bool.eqb a b
  | VNum a, VNum b => a =? b
  | VStr a, VStr b => String.eqb a b
  | _, _ => false
  end.

(** [x === s] against a string literal. *)
Definition isStr (s : string) (v : jsval) : bool :=
  match v with VStr t => String.eqb t s | _ => false end.

(** [new Set(xs).has(v)] and [xs.includes(v)]. *)
Definition hasValue (xs : list jsval) (v : jsval) : bool :=
  existsb (fun x => sameValueZero x v) xs.

End Js.
Export Js.

(** ** The overlay and the merged view ([app.js], Overlays and Merge) *)

Module Overlay.

(** [learning]: the two bounded logs and the counters. *)
Record Learning : Type := mkLearning {
  completion_log : list jsval;
  move_log : list jsval;
  stats_moves : Z;
  stats_completes : Z
}.

(** [state.overlays], with the shape [loadOverlays] gives to its top-level
    fields: [deletions] and [new_tasks] are arrays, [task_overrides] maps an
    id to a patch object, [recurrence_overrides] maps a rule id to whatever
    was stored under it. *)
Record Overlays : Type := mkOverlays {
  version : jsval;
  updated_at : jsval;
  deletions : list jsval;
  task_overrides : gmap string obj;
  new_tasks : list jsval;
  recurrence_overrides : gmap string jsval;
  learning : Learning
}.

Definition OVERLAYS_VERSION : Z := 1.

Definition defaultLearning : Learning :=
  {| completion_log := []; move_log := []; stats_moves := 0; stats_completes := 0 |}.

(** [defaultOverlays()], at the time [now] that [new Date().toISOString()]
    returns. *)
Definition defaultOverlays (now : string) : Overlays :=
  {| version := VNum OVERLAYS_VERSION;
     updated_at := VStr now;
     deletions := [];
     task_overrides := ∅;
     new_tasks := [];
     recurrence_overrides := ∅;
     learning := defaultLearning |}.

(** The result of [mergeData]: [{...base, tasks, events, recurrence_rules,
    __overlays}].  [inherited] holds the properties spread from [base]. *)
Record MergedView : Type := mkMerged {
  inherited : obj;
  tasks : list jsval;
  events : list jsval;
  recurrence_rules : list jsval;
  overlaysRef : Overlays
}.

(** [Array.isArray(v) ? v : []]. *)
Definition arrayOrEmpty (v : jsval) : list jsval :=
  match v with VArr xs => xs | _ => [] end.

(** The filter callback [(t) => t && t.id && !deletions.has(t.id)]. *)
Definition survives (dels : list jsval) (t : jsval) : bool :=
  truthy t && truthy (getField t "id") && negb (hasValue dels (getField t "id")).

(** The map callback
    [(t) => overrides[t.id] ? { ...t, ...overrides[t.id] } : t].  A patch is
    an object, so the test holds exactly when there is a patch under the
    key. *)
Definition applyOverride (overrides : gmap string obj) (t : jsval) : jsval :=
  match overrides !! toPropertyKey (getField t "id") with
  | Some patch => VObj (spread2 t (VObj patch))
  | None => t
  end.

(** The loop over [newTasks] that fills [appended]. *)
Fixpoint appendNew (dels : list jsval) (newTasks : list jsval) : list jsval :=
  match newTasks with
  | [] => []
  | nt :: rest =>
      if negb (truthy nt) || negb (truthy (getField nt "id")) then appendNew dels rest
      else if hasValue dels (getField nt "id") then appendNew dels rest
      else nt :: appendNew dels rest
  end.

(** [mergeData(base, overlays)] for a base dataset that is an object. *)
Definition mergeData (base : obj) (overlays : Overlays) : MergedView :=
  let baseTasks := arrayOrEmpty (getField (VObj base) "tasks") in
  let baseEvents := arrayOrEmpty (getField (VObj base) "events") in
  let recRules := arrayOrEmpty (getField (VObj base) "recurrence_rules") in
  let dels := deletions overlays in
  let overrides := task_overrides overlays in
  let newTasks := new_tasks overlays in
  let tasks1 := List.filter (survives dels) baseTasks in
  let events1 := List.filter (survives dels) baseEvents in
  let tasks2 := map (applyOverride overrides) tasks1 in
  let events2 := map (applyOverride overrides) events1 in
  {| inherited := base;
     tasks := tasks2 ++ appendNew dels newTasks;
     events := events2;
     recurrence_rules := recRules;
     overlaysRef := overlays |}.

(** The flag that [renderRecurring] computes for a rule [r]:
    [overrides[r.id]?.enabled ?? true]. *)
Definition ruleEnabled (overrides : gmap string jsval) (r : jsval) : jsval :=
  let o := match overrides !! toPropertyKey (getField r "id") with
           | Some x => x
           | None => VUndef
           end in
  jsCoalesce (if nullish o then VUndef else getField o "enabled") (VBool true).

End Overlay.
Export Overlay.

(** ** Strings and calendar dates ([app.js], Utilities) *)

Module Util.

Definition isWhite (c : ascii) : bool :=
  let n := nat_of_ascii c in
  ((9 <=? n) && (n <=? 13) || (n =? 32))%nat.

Definition lowerChar (c : ascii) : ascii :=
  let n := nat_of_ascii c in
  if ((65 <=? n) && (n <=? 90))%nat then ascii_of_nat (n + 32) else c.

(** [s.toLowerCase()]. *)
Fixpoint toLowerCase (s : string) : string :=
  match s with
  | EmptyString => EmptyString
  | String c rest => String (lowerChar c) (toLowerCase rest)
  end.

Fixpoint trimStart (s : string) : string :=
  match s with
  | EmptyString => EmptyString
  | String c rest => if isWhite c then trimStart rest else s
  end.

Fixpoint trimEnd (s : string) : string :=
  match s with
  | EmptyString => EmptyString
  | String c rest =>
      match trimEnd rest with
      | EmptyString => if isWhite c then EmptyString else String c EmptyString
      | rest' => String c rest'
      end
  end.

(** [s.trim()]. *)
Definition trim (s : string) : string := trimEnd (trimStart s).

(** [s.startsWith(p)]. *)
Definition startsWith (p s : string) : bool := String.prefix p s.

Fixpoint lastChar (s : string) : option ascii :=
  match s with
  | EmptyString => None
  | String c EmptyString => Some c
  | String _ rest => lastChar rest
  end.

(** [s.endsWith(c)] for a single character. *)
Definition endsWithChar (c : ascii) (s : string) : bool :=
  match lastChar s with Some c' => Ascii.eqb c c' | None => false end.

(** [s.split(sep)] for a single separator character. *)
Fixpoint splitOn (sep : ascii) (s : string) : list string :=
  match s with
  | EmptyString => [EmptyString]
  | String c rest =>
      if Ascii.eqb c sep then EmptyString :: splitOn sep rest
      else match splitOn sep rest with
           | [] => [String c EmptyString]
           | p :: ps => String c p :: ps
           end
  end.

Definition isDigit (c : ascii) : bool :=
  let n := nat_of_ascii c in ((48 <=? n) && (n <=? 57))%nat.

Fixpoint digitsValue (acc : Z) (s : string) : option Z :=
  match s with
  | EmptyString => Some acc
  | String c rest =>
      if isDigit c then digitsValue (10 * acc + Z.of_nat (nat_of_ascii c - 48)) rest
      else None
  end.

(** [Number(s)] on a string: the empty string is [0], a run of decimal
    digits with an optional sign is its value, blanks around it are dropped.
    [None] stands for [NaN].  The other numeric literals of JavaScript
    (fractions, exponents, radix prefixes, [Infinity]) are read as [NaN]
    here; no statement of this development is about them. *)
Definition toNumber (s : string) : option Z :=
  match trim s with
  | EmptyString => Some 0
  | String "+" (String c rest) => digitsValue 0 (String c rest)
  | String "-" (String c rest) => option_map Z.opp (digitsValue 0 (String c rest))
  | t => digitsValue 0 t
  end.

(** A [Date] built by this program: always local noon, so it is a day of the
    proleptic Gregorian calendar, counted from 1970-01-01, or the invalid
    date that the constructor gives outside the range of time values (one
    hundred million days on either side of 1970-01-01; whether the very last
    day of the range is valid depends on the time zone). *)
Inductive JsDate : Type :=
| ValidDate (dayNumber : Z)
| InvalidDate.

(** Days since 1970-01-01 of the first day of month [m] (1..12) of year [y],
    plus [d - 1]. *)
Definition daysFromCivil (y m d : Z) : Z :=
  let y' := if m <=? 2 then y - 1 else y in
  let era := y' / 400 in
  let yoe := y' - era * 400 in
  let mp := if 2 <? m then m - 3 else m + 9 in
  let doy := (153 * mp + 2) / 5 + d - 1 in
  let doe := yoe * 365 + yoe / 4 - yoe / 100 + doy in
  era * 146097 + doe - 719468.

Definition civilFromDays (z : Z) : Z * Z * Z :=
  let z' := z + 719468 in
  let era := z' / 146097 in
  let doe := z' - era * 146097 in
  let yoe := (doe - doe / 1460 + doe / 36524 - doe / 146096) / 365 in
  let doy := doe - (365 * yoe + yoe / 4 - yoe / 100) in
  let mp := (5 * doy + 2) / 153 in
  let d := doy - (153 * mp + 2) / 5 + 1 in
  let m := if mp <? 10 then mp + 3 else mp - 9 in
  ((if m <=? 2 then yoe + era * 400 + 1 else yoe + era * 400), m, d).

(** [TimeClip]. *)
Definition clipDay (day : Z) : JsDate :=
  if (-100000000 <=? day) && (day <? 100000000) then ValidDate day else InvalidDate.

(** [new Date(y, monthIndex, d, 12, 0, 0, 0)]: a year from 0 to 99 means
    1900 + y, and a month or a day out of range carries over. *)
Definition newDate (y monthIndex d : Z) : JsDate :=
  let y1 := if (0 <=? y) && (y <=? 99) then 1900 + y else y in
  let y2 := y1 + monthIndex / 12 in
  let m := monthIndex mod 12 + 1 in
  clipDay (daysFromCivil y2 m 1 + d - 1).

(** [d.setDate(d.getDate() + n)]. *)
Definition addDays (n : Z) (dt : JsDate) : JsDate :=
  match dt with
  | ValidDate day => clipDay (day + n)
  | InvalidDate => InvalidDate
  end.

(** [String(n).padStart(2, "0")]. *)
Definition pad2 (n : Z) : string :=
  let s := showZ n in
  if (String.length s <? 2)%nat then "0" +:+ s else s.

(** [isoFromDate(dateObj)] for a date object; the getters of an invalid date
    return [NaN]. *)
Definition isoFromDate (dt : JsDate) : string :=
  match dt with
  | ValidDate day =>
      let '(y, m, d) := civilFromDays day in
      showZ y +:+ "-" +:+ pad2 m +:+ "-" +:+ pad2 d
  | InvalidDate => "NaN-NaN-NaN"
  end.

Definition nonZero (o : option Z) : option Z :=
  match o with
  | Some 0 | None => None
  | Some n => Some n
  end.

(** [parseISODate(s)]; [None] is [null]. *)
Definition parseISODate (s : jsval) : option JsDate :=
  match s with
  | VStr t =>
      if String.eqb t "" then None
      else
        match map toNumber (splitOn "-" t) with
        | y :: m :: d :: _ =>
            match nonZero y, nonZero m, nonZero d with
            | Some y', Some m', Some d' => Some (newDate y' (m' - 1) d')
            | _, _, _ => None
            end
        | _ => None
        end
  | _ => None
  end.

(** [safeText(s)], that is [(s ?? "").toString()]. *)
Definition safeText (v : jsval) : string :=
  toPropertyKey (jsCoalesce v (VStr "")).

End Util.
Export Util.

(** ** The Gregorian calendar, against which the day arithmetic is checked *)

Module Gregorian.

Definition isLeap (y : Z) : bool :=
  (y mod 4 =? 0) && (negb (y mod 100 =? 0) || (y mod 400 =? 0)).

Definition daysInMonth (y m : Z) : Z :=
  if (m =? 4) || (m =? 6) || (m =? 9) || (m =? 11) then 30
  else if m =? 2 then (if isLeap y then 29 else 28)
  else 31.

(** The date after the date [(y, m, d)]. *)
Definition nextCivil (c : Z * Z * Z) : Z * Z * Z :=
  let '(y, m, d) := c in
  if d <? daysInMonth y m then (y, m, d + 1)
  else if m <? 12 then (y, m + 1, 1)
  else (y + 1, 1, 1).

Definition shiftYears (k : Z) (c : Z * Z * Z) : Z * Z * Z :=
  let '(y, m, d) := c in (y + k, m, d).

Definition civilEqb (a b : Z * Z * Z) : bool :=
  let '(y1, m1, d1) := a in
  let '(y2, m2, d2) := b in
  (y1 =? y2) && (m1 =? m2) && (d1 =? d2).

(** What is checked of a day with date [c], the next day having the date
    [next]: [next] is the date after [c], and [c] is a date of the
    calendar. *)
Definition dayChecked (c next : Z * Z * Z) : bool :=
  let '(y, m, d) := c in
  civilEqb next (nextCivil c)
  && (1 <=? m) && (m <=? 12) && (1 <=? d) && (d <=? daysInMonth y m).

Definition dayOk (z : Z) : bool :=
  dayChecked (civilFromDays z) (civilFromDays (z + 1)).

(** The check of [n] consecutive days from [z] on, whose date is [c]. *)
Fixpoint daysChecked (n : nat) (z : Z) (c : Z * Z * Z) : bool :=
  match n with
  | O => true
  | S k =>
      let c' := civilFromDays (z + 1) in
      dayChecked c c' && daysChecked k (z + 1) c'
  end.

(** One 400-year cycle of the calendar, from 0000-03-01 on. *)
Definition cycleDays : nat := Z.to_nat 146097.

Definition cycleStart : Z := -719468.

End Gregorian.
Export Gregorian.

(** ** Application state and overlay mutations ([app.js], State and Overlay
    mutations) *)

Module Store.

(** What the program reads from outside: the clock and the random source.
    The [n]-th reading of the session returns the [n]-th value. *)
Record World : Type := mkWorld {
  isoAt : nat -> string;
  todayAt : nat -> string;
  tempSuffixAt : nat -> string
}.

(** The [state] object after the base dataset was fetched.  [stored] is the
    overlay last handed to [localStorage.setItem] by [saveOverlays]. *)
Record State : Type := mkState {
  world : World;
  reads : nat;
  base : obj;
  overlays : Overlays;
  merged : option MergedView;
  pendingAiPayload : option jsval;
  stored : option Overlays
}.

(** A call either returns or throws; the state it leaves behind is kept in
    both cases, since the mutations are made in place. *)
Inductive outcome (A : Type) : Type :=
| Ret (a : A)
| Throw (e : string).

Arguments Ret {A} a.
Arguments Throw {A} e.

Definition M (A : Type) : Type := State -> outcome A * State.

Definition ret {A : Type} (a : A) : M A := fun st => (Ret a, st).

Definition throw {A : Type} (e : string) : M A := fun st => (Throw e, st).

Definition bind {A B : Type} (m : M A) (k : A -> M B) : M B :=
  fun st =>
    match m st with
    | (Ret a, st') => k a st'
    | (Throw e, st') => (Throw e, st')
    end.

Notation "x <- m ;; k" := (bind m (fun x => k))
  (at level 100, m at next level, right associativity).
Notation "m ;;; k" := (bind m (fun _ => k))
  (at level 100, right associativity).

(** A call that does not touch the state. *)
Definition lift {A : Type} (o : outcome A) : M A := fun st => (o, st).

(** [if (b) { m }]. *)
Definition when (b : bool) (m : M unit) : M unit := if b then m else ret tt.

(** [for (const x of xs) { f(x) }]; a throw ends the loop. *)
Fixpoint forEach {A : Type} (f : A -> M unit) (xs : list A) : M unit :=
  match xs with
  | [] => ret tt
  | x :: rest => f x ;;; forEach f rest
  end.

(** One more reading of the clock or of the random source. *)
Definition tick (st : State) : State :=
  mkState (world st) (S (reads st)) (base st) (overlays st) (merged st)
          (pendingAiPayload st) (stored st).

(** [new Date().toISOString()]. *)
Definition nowISO : M string :=
  fun st => (Ret (isoAt (world st) (reads st)), tick st).

(** [todayLocalISO()]. *)
Definition todayLocalISO : M string :=
  fun st => (Ret (todayAt (world st) (reads st)), tick st).

(** The template [temp_${Date.now().toString(36)}_${Math.random()...}]. *)
Definition freshTempId : M jsval :=
  fun st => (Ret (VStr ("temp_" +:+ tempSuffixAt (world st) (reads st))), tick st).

Definition getOverlays : M Overlays := fun st => (Ret (overlays st), st).

Definition getMerged : M (option MergedView) := fun st => (Ret (merged st), st).

Definition setOverlays (ov : Overlays) (st : State) : State :=
  mkState (world st) (reads st) (base st) ov (merged st) (pendingAiPayload st) (stored st).

Definition modifyOverlays (f : Overlays -> Overlays) : M unit :=
  fun st => (Ret tt, setOverlays (f (overlays st)) st).

(** [m] run from [st] returns, with a value and a final state that
    satisfy [Q]. *)
Definition returns {A : Type} (m : M A) (st : State) (Q : A -> State -> Prop) : Prop :=
  exists a st', m st = (Ret a, st') /\ Q a st'.

Definition setPending (p : option jsval) : M unit :=
  fun st =>
    (Ret tt,
     mkState (world st) (reads st) (base st) (overlays st) (merged st) p (stored st)).

Definition withUpdatedAt (v : jsval) (o : Overlays) : Overlays :=
  mkOverlays (version o) v (deletions o) (task_overrides o) (new_tasks o)
             (recurrence_overrides o) (learning o).

Definition withDeletions (f : list jsval -> list jsval) (o : Overlays) : Overlays :=
  mkOverlays (version o) (updated_at o) (f (deletions o)) (task_overrides o)
             (new_tasks o) (recurrence_overrides o) (learning o).

Definition withOverrides (f : gmap string obj -> gmap string obj) (o : Overlays) : Overlays :=
  mkOverlays (version o) (updated_at o) (deletions o) (f (task_overrides o))
             (new_tasks o) (recurrence_overrides o) (learning o).

Definition withNewTasks (f : list jsval -> list jsval) (o : Overlays) : Overlays :=
  mkOverlays (version o) (updated_at o) (deletions o) (task_overrides o)
             (f (new_tasks o)) (recurrence_overrides o) (learning o).

Definition withLearning (f : Learning -> Learning) (o : Overlays) : Overlays :=
  mkOverlays (version o) (updated_at o) (deletions o) (task_overrides o)
             (new_tasks o) (recurrence_overrides o) (f (learning o)).

(** [localStorage.setItem(STORAGE_KEY, JSON.stringify(overlays))]. *)
Definition persist : M unit :=
  fun st =>
    (Ret tt,
     mkState (world st) (reads st) (base st) (overlays st) (merged st)
             (pendingAiPayload st) (Some (overlays st))).

(** [saveOverlays(state.overlays)]. *)
Definition saveOverlays : M unit :=
  t <- nowISO ;;
  modifyOverlays (withUpdatedAt (VStr t)) ;;;
  persist.

(** [state.merged = mergeData(state.base, state.overlays)]. *)
Definition remerge : M unit :=
  fun st =>
    (Ret tt,
     mkState (world st) (reads st) (base st) (overlays st)
             (Some (mergeData (base st) (overlays st)))
             (pendingAiPayload st) (stored st)).

(** [ensurePatch(id)]: the patch object of [id], created empty when there is
    none.  The caller's later writes to it are writes to the entry of
    [task_overrides], see [writePatch]. *)
Definition ensurePatch (id : jsval) : M obj :=
  ov <- getOverlays ;;
  match task_overrides ov !! toPropertyKey id with
  | Some p => ret p
  | None => modifyOverlays (withOverrides (insert (toPropertyKey id) [])) ;;; ret []
  end.

(** [patch.field = v] on the patch object that [ensurePatch(id)] returned. *)
Definition writePatch (id : jsval) (field : string) (v : jsval) : M unit :=
  modifyOverlays (withOverrides (alter (setProp field v) (toPropertyKey id))).

(** The current content of the patch object of [id]; no properties when
    there is no patch. *)
Definition patchOf (ov : Overlays) (id : jsval) : obj :=
  match task_overrides ov !! toPropertyKey id with Some p => p | None => [] end.

Definition readPatch (id : jsval) : M obj :=
  ov <- getOverlays ;;
  ret (patchOf ov id).

(** [xs.slice(-n)]: the last [n] elements. *)
Definition sliceLast {A : Type} (n : nat) (xs : list A) : list A :=
  skipn (length xs - n) xs.

(** [logComplete(id, completed)]. *)
Definition logComplete (id : jsval) (completed : bool) : M unit :=
  t <- nowISO ;;
  modifyOverlays (withLearning (fun l =>
    mkLearning (completion_log l) (move_log l) (stats_moves l) (stats_completes l + 1))) ;;;
  modifyOverlays (withLearning (fun l =>
    mkLearning (completion_log l ++ [VObj [("id", id); ("completed", VBool completed); ("at", VStr t)]])
               (move_log l) (stats_moves l) (stats_completes l))) ;;;
  modifyOverlays (withLearning (fun l =>
    mkLearning (sliceLast 400 (completion_log l)) (move_log l) (stats_moves l) (stats_completes l))).

(** [logMove(id, from, to, reason)]. *)
Definition logMove (id from to : jsval) (reason : string) : M unit :=
  t <- nowISO ;;
  modifyOverlays (withLearning (fun l =>
    mkLearning (completion_log l) (move_log l) (stats_moves l + 1) (stats_completes l))) ;;;
  modifyOverlays (withLearning (fun l =>
    mkLearning (completion_log l)
               (move_log l ++ [VObj [("id", id); ("from", from); ("to", to);
                                     ("reason", VStr reason); ("at", VStr t)]])
               (stats_moves l) (stats_completes l))) ;;;
  modifyOverlays (withLearning (fun l =>
    mkLearning (completion_log l) (sliceLast 400 (move_log l)) (stats_moves l) (stats_completes l))).

(** [normalizeType(t)] of [app.js].  A truthy [t] that is not a string has no
    [toLowerCase] method, and the call throws. *)
Definition normalizeType (t : jsval) : outcome string :=
  match jsOr t (VStr "") with
  | VStr s =>
      let v := trim (toLowerCase s) in
      if String.eqb v "" then Ret ""
      else if String.eqb v "event" || String.eqb v "meeting" || String.eqb v "task"
           then Ret v
           else Ret v
  | _ => Throw "TypeError: toLowerCase is not a function"
  end.

End Store.
Export Store.

(** ** Applying operations ([app.js], [applyOpsArray] and the user actions) *)

Module Applier.

(** The object pushed to [new_tasks] by an [add] op with id [id], fields
    [fields] and normalized type [ty]. *)
Definition newTask (id fields : jsval) (ty : string) : jsval :=
  VObj
    [ ("id", id);
      ("title", VStr (safeText (jsOr (getField fields "title") (VStr "Untitled"))));
      ("type", VStr (if String.eqb ty "" then "task" else ty));
      ("pillar", jsCoalesce (getField fields "pillar") VNull);
      ("owner_id", jsCoalesce (getField fields "owner_id") VNull);
      ("start_date", jsCoalesce (getField fields "start_date") VNull);
      ("due_date", jsCoalesce (getField fields "due_date") VNull);
      ("priority", jsCoalesce (getField fields "priority") (VNum 2));
      ("notes", VStr (safeText (jsOr (getField fields "notes") (VStr ""))));
      ("subtasks", if isArray (getField fields "subtasks")
                   then getField fields "subtasks" else VUndef);
      ("estimated_minutes", jsCoalesce (getField fields "estimated_minutes") VUndef);
      ("energy", jsCoalesce (getField fields "energy") VUndef) ].

(** The branch [o.op === "add"]. *)
Definition applyAdd (o : jsval) : M unit :=
  id <- (if truthy (getField o "id") then
           match getField o "id" with
           | VStr s => if startsWith "temp_" s then ret (VStr s) else freshTempId
           | _ => throw "TypeError: o.id.startsWith is not a function"
           end
         else freshTempId) ;;
  ty <- lift (normalizeType (getField (jsOr (getField o "fields") (VObj [])) "type")) ;;
  modifyOverlays
    (withNewTasks (fun l => l ++ [newTask id (jsOr (getField o "fields") (VObj [])) ty])).

(** The branch [o.op === "update"]. *)
Definition applyUpdate (o : jsval) : M unit :=
  ensurePatch (getField o "id") ;;;
  modifyOverlays
    (withOverrides
       (alter (fun p => assign p (ownEntries (jsOr (getField o "fields") (VObj []))))
              (toPropertyKey (getField o "id")))).

(** The branch [o.op === "complete"]. *)
Definition applyComplete (o : jsval) : M unit :=
  ensurePatch (getField o "id") ;;;
  writePatch (getField o "id") "status" (VStr "completed") ;;;
  t <- nowISO ;;
  writePatch (getField o "id") "completed_at" (VStr t) ;;;
  logComplete (getField o "id") true.

(** The branch [o.op === "undo_complete"]. *)
Definition applyUndoComplete (o : jsval) : M unit :=
  ensurePatch (getField o "id") ;;;
  writePatch (getField o "id") "status" (VStr "open") ;;;
  writePatch (getField o "id") "completed_at" VNull ;;;
  logComplete (getField o "id") false.

(** The three statements shared by [deleteItem] and the branch
    [o.op === "delete"].  The callback [(t) => t.id !== id] throws on an
    element of [new_tasks] that is [null]. *)
Definition removeItem (id : jsval) : M unit :=
  ov <- getOverlays ;;
  when (negb (hasValue (deletions ov) id))
       (modifyOverlays (withDeletions (fun l => l ++ [id]))) ;;;
  modifyOverlays (withOverrides (delete (toPropertyKey id))) ;;;
  (if existsb nullish (new_tasks ov)
   then throw "TypeError: cannot read properties of null (reading id)"
   else modifyOverlays
          (withNewTasks
             (List.filter (fun t => negb (sameValueZero (getField t "id") id))))).

(** One turn of the loop of [applyOpsArray]. *)
Definition applyOp (o : jsval) : M unit :=
  if nullish o then throw "TypeError: cannot read properties of null (reading op)"
  else
    when (isStr "add" (getField o "op")) (applyAdd o) ;;;
    when (isStr "update" (getField o "op")) (applyUpdate o) ;;;
    when (isStr "complete" (getField o "op")) (applyComplete o) ;;;
    when (isStr "undo_complete" (getField o "op")) (applyUndoComplete o) ;;;
    when (isStr "delete" (getField o "op")) (removeItem (getField o "id")).

(** [applyOpsArray(ops)]. *)
Definition applyOpsArray (ops : jsval) : M Z :=
  match ops with
  | VArr (o :: rest) =>
      forEach applyOp (o :: rest) ;;;
      saveOverlays ;;;
      remerge ;;;
      ret (Z.of_nat (length (o :: rest)))
  | _ => ret 0
  end.

(** [getStatus(t)]. *)
Definition getStatus (ov : Overlays) (t : jsval) : string :=
  let patch := match task_overrides ov !! toPropertyKey (getField t "id") with
               | Some p => VObj p
               | None => VObj []
               end in
  if isStr "completed"
       (jsOr (jsOr (getField patch "status") (getField t "status")) (VStr ""))
  then "completed" else "open".

(** [xs.find((x) => x.id === id)]. *)
Definition findById (id : jsval) (xs : list jsval) : option jsval :=
  List.find (fun x => sameValueZero (getField x "id") id) xs.

Definition mergedTasks (m : option MergedView) : list jsval :=
  match m with Some v => tasks v | None => [] end.

Definition mergedEvents (m : option MergedView) : list jsval :=
  match m with Some v => events v | None => [] end.

(** [toggleComplete(id)]. *)
Definition toggleComplete (id : jsval) : M unit :=
  m <- getMerged ;;
  match findById id (mergedTasks m ++ mergedEvents m) with
  | None => ret tt
  | Some item =>
      ensurePatch id ;;;
      ov <- getOverlays ;;
      let nowDone := negb (String.eqb (getStatus ov item) "completed") in
      writePatch id "status" (VStr (if nowDone then "completed" else "open")) ;;;
      (if nowDone
       then t <- nowISO ;; writePatch id "completed_at" (VStr t)
       else writePatch id "completed_at" VNull) ;;;
      logComplete id nowDone ;;;
      saveOverlays ;;;
      remerge
  end.

(** [deleteItem(id)]. *)
Definition deleteItem (id : jsval) : M unit :=
  if negb (truthy id) then ret tt
  else removeItem id ;;; saveOverlays ;;; remerge.

(** [moveToToday(id, reason)]. *)
Definition moveToToday (id : jsval) (reason : string) : M unit :=
  patch <- ensurePatch id ;;
  today <- todayLocalISO ;;
  writePatch id "start_date" (VStr today) ;;;
  writePatch id "due_date" (VStr today) ;;;
  logMove id
    (VObj [("start_date", jsCoalesce (getField (VObj patch) "start_date") VNull);
           ("due_date", jsCoalesce (getField (VObj patch) "due_date") VNull)])
    (VObj [("start_date", VStr today); ("due_date", VStr today)])
    reason ;;;
  saveOverlays ;;;
  remerge.

(** The date that [deferOneDay] starts from: the first truthy one of the
    patch's due date, the item's due date, the patch's start date and the
    item's start date. *)
Definition deferSource (patch item : jsval) : jsval :=
  jsOr (jsOr (jsOr (getField patch "due_date") (getField item "due_date"))
             (getField patch "start_date"))
       (getField item "start_date").

(** [deferOneDay(id)]. *)
Definition deferOneDay (id : jsval) : M unit :=
  m <- getMerged ;;
  match findById id (mergedTasks m) with
  | None => ret tt
  | Some item =>
      patch <- ensurePatch id ;;
      d <- match parseISODate (deferSource (VObj patch) item) with
           | Some current => ret current
           | None =>
               today <- todayLocalISO ;;
               match parseISODate (VStr today) with
               | Some t => ret t
               | None => throw "TypeError: cannot read properties of null (reading getDate)"
               end
           end ;;
      let nextISO := isoFromDate (addDays 1 d) in
      writePatch id "due_date" (VStr nextISO) ;;;
      when (negb (truthy (getField (VObj patch) "start_date")))
           (writePatch id "start_date" (VStr nextISO)) ;;;
      after <- readPatch id ;;
      logMove id
        (VObj [("start_date",
                jsCoalesce (getField (VObj patch) "start_date")
                           (jsCoalesce (getField item "start_date") VNull));
               ("due_date",
                jsCoalesce (getField (VObj patch) "due_date")
                           (jsCoalesce (getField item "due_date") VNull))])
        (VObj [("start_date", getField (VObj after) "start_date");
               ("due_date", getField (VObj after) "due_date")])
        "defer_1d" ;;;
      saveOverlays ;;;
      remerge
  end.

End Applier.
Export Applier.

(** ** The context builder ([ai/context.js]) *)

Module AiContext.

(** [normalizeType(t)] of [ai/context.js], which [buildAiContext] applies to
    the type of every item it sends to the completion service. *)
Definition normalizeType (t : jsval) : outcome string :=
  match jsOr t (VStr "") with
  | VStr s =>
      let v := trim (toLowerCase s) in
      if String.eqb v "" then Ret "task"
      else if String.eqb v "event" || String.eqb v "meeting" || String.eqb v "task"
           then Ret v
           else Ret "task"
  | _ => Throw "TypeError: toLowerCase is not a function"
  end.

End AiContext.

(** ** [JSON.parse] on the fragment of JSON this development writes down *)

Module Json.

(** JSON texts are written below with an apostrophe where JSON has its
    double quote; [jsonText] puts the double quotes back. *)
Definition jsonText (s : string) : string :=
  string_of_list_ascii
    (map (fun c => if Ascii.eqb c "'" then "034"%char else c) (list_ascii_of_string s)).

Definition isJsonWs (c : ascii) : bool :=
  let n := nat_of_ascii c in ((n =? 32) || (n =? 9) || (n =? 10) || (n =? 13))%nat.

Fixpoint skipWs (s : string) : string :=
  match s with
  | String c rest => if isJsonWs c then skipWs rest else s
  | EmptyString => EmptyString
  end.

(** The characters of a string literal after its opening quote, up to the
    closing one, with the two-character escapes decoded. *)
Fixpoint parseStringBody (s : string) : option (string * string) :=
  match s with
  | EmptyString => None
  | String c rest =>
      if Ascii.eqb c "034" then Some (EmptyString, rest)
      else if Ascii.eqb c "\" then
        match rest with
        | String e rest' =>
            let decoded :=
              if Ascii.eqb e "034" then Some "034"%char
              else if Ascii.eqb e "\" then Some "\"%char
              else if Ascii.eqb e "/" then Some "/"%char
              else if Ascii.eqb e "n" then Some "010"%char
              else if Ascii.eqb e "t" then Some "009"%char
              else if Ascii.eqb e "r" then Some "013"%char
              else if Ascii.eqb e "b" then Some "008"%char
              else if Ascii.eqb e "f" then Some "012"%char
              else None in
            match decoded, parseStringBody rest' with
            | Some d, Some (body, tail) => Some (String d body, tail)
            | _, _ => None
            end
        | EmptyString => None
        end
      else if (nat_of_ascii c <? 32)%nat then None
      else
        match parseStringBody rest with
        | Some (body, tail) => Some (String c body, tail)
        | None => None
        end
  end.

Fixpoint takeDigits (s : string) : string * string :=
  match s with
  | String c rest =>
      if isDigit c then let '(ds, tail) := takeDigits rest in (String c ds, tail)
      else (EmptyString, s)
  | EmptyString => (EmptyString, EmptyString)
  end.

(** An integer literal: no leading zero, no fraction and no exponent. *)
Definition parseInteger (s : string) : option (Z * string) :=
  let '(neg, body) :=
    match s with
    | String "-" rest => (true, rest)
    | _ => (false, s)
    end in
  let '(ds, tail) := takeDigits body in
  match ds, tail with
  | EmptyString, _ => None
  | String "0" (String _ _), _ => None
  | _, String "." _ | _, String "e" _ | _, String "E" _ => None
  | _, _ =>
      match digitsValue 0 ds with
      | Some n => Some (if neg then - n else n, tail)
      | None => None
      end
  end.

Fixpoint parseValue (fuel : nat) (s : string) {struct fuel} : option (jsval * string) :=
  match fuel with
  | O => None
  | S f =>
      match skipWs s with
      | String "{" rest =>
          match skipWs rest with
          | String "}" tail => Some (VObj [], tail)
          | body => parseMembers f body []
          end
      | String "[" rest =>
          match skipWs rest with
          | String "]" tail => Some (VArr [], tail)
          | body => parseElements f body []
          end
      | String "034" rest =>
          match parseStringBody rest with
          | Some (str, tail) => Some (VStr str, tail)
          | None => None
          end
      | String "t" (String "r" (String "u" (String "e" tail))) => Some (VBool true, tail)
      | String "f" (String "a" (String "l" (String "s" (String "e" tail)))) =>
          Some (VBool false, tail)
      | String "n" (String "u" (String "l" (String "l" tail))) => Some (VNull, tail)
      | other =>
          match parseInteger other with
          | Some (n, tail) => Some (VNum n, tail)
          | None => None
          end
      end
  end

with parseMembers (fuel : nat) (s : string) (acc : obj) {struct fuel}
  : option (jsval * string) :=
  match fuel with
  | O => None
  | S f =>
      match skipWs s with
      | String "034" rest =>
          match parseStringBody rest with
          | Some (key, afterKey) =>
              match skipWs afterKey with
              | String ":" afterColon =>
                  match parseValue f afterColon with
                  | Some (v, afterValue) =>
                      match skipWs afterValue with
                      | String "," more => parseMembers f more (setProp key v acc)
                      | String "}" tail => Some (VObj (setProp key v acc), tail)
                      | _ => None
                      end
                  | None => None
                  end
              | _ => None
              end
          | None => None
          end
      | _ => None
      end
  end

with parseElements (fuel : nat) (s : string) (acc : list jsval) {struct fuel}
  : option (jsval * string) :=
  match fuel with
  | O => None
  | S f =>
      match parseValue f s with
      | Some (v, afterValue) =>
          match skipWs afterValue with
          | String "," more => parseElements f more (acc ++ [v])
          | String "]" tail => Some (VArr (acc ++ [v]), tail)
          | _ => None
          end
      | None => None
      end
  end.

(** [JSON.parse(s)]; [None] when it throws.  Total on the texts made of
    objects, arrays, strings without [\u] escapes, integers, [true], [false]
    and [null]; a text with a fraction, an exponent or a [\u] escape is
    outside the fragment and is given as [None]. *)
Definition JSON_parse (s : string) : option jsval :=
  match parseValue (2 * String.length s + 2) s with
  | Some (v, tail) =>
      match skipWs tail with
      | EmptyString => Some v
      | _ => None
      end
  | None => None
  end.

End Json.
Export Json.

(** ** Loading the persisted overlay ([app.js], [loadOverlays]) *)

Module OverlayStore.

(** The object literal of [defaultOverlays()], as a value. *)
Definition defaultLearningValue : jsval :=
  VObj [ ("completion_log", VArr []);
         ("move_log", VArr []);
         ("stats", VObj [("moves", VNum 0); ("completes", VNum 0)]) ].

Definition defaultOverlaysValue (now : string) : jsval :=
  VObj [ ("version", VNum OVERLAYS_VERSION);
         ("updated_at", VStr now);
         ("deletions", VArr []);
         ("task_overrides", VObj []);
         ("new_tasks", VArr []);
         ("recurrence_overrides", VObj []);
         ("learning", defaultLearningValue) ].

(** [v && typeof v === "object"]. *)
Definition isObjectLike (v : jsval) : bool :=
  truthy v && String.eqb (typeof v) "object".

Section WithParser.

(** [JSON.parse]; [None] when it throws. *)
Variable parse : string -> option jsval.

(** [loadOverlays()], where [raw] is what [localStorage.getItem] returns and
    [now] the time of the call.  Every [throw] inside the [try] block ends in
    [defaultOverlays()]: a text that does not parse, and [obj.deletions] read
    from [null]. *)
Definition loadOverlays (raw : option string) (now : string) : jsval :=
  match raw with
  | None => defaultOverlaysValue now
  | Some text =>
      if String.eqb text "" then defaultOverlaysValue now
      else
        match parse text with
        | None => defaultOverlaysValue now
        | Some obj =>
            if nullish obj then defaultOverlaysValue now
            else
              VObj
                (setProp "learning"
                   (if isObjectLike (getField obj "learning")
                    then VObj (spread2 defaultLearningValue (getField obj "learning"))
                    else defaultLearningValue)
                (setProp "recurrence_overrides"
                   (if isObjectLike (getField obj "recurrence_overrides")
                    then getField obj "recurrence_overrides" else VObj [])
                (setProp "task_overrides"
                   (if isObjectLike (getField obj "task_overrides")
                    then getField obj "task_overrides" else VObj [])
                (setProp "new_tasks"
                   (if isArray (getField obj "new_tasks")
                    then getField obj "new_tasks" else VArr [])
                (setProp "deletions"
                   (if isArray (getField obj "deletions")
                    then getField obj "deletions" else VArr [])
                (spread2 (defaultOverlaysValue now) obj))))))
        end
  end.

End WithParser.

(** The shape that the rest of the program relies on: what
    [defaultOverlays()] has, field by field. *)
Definition isNumber (v : jsval) : bool :=
  match v with VNum _ => true | _ => false end.

Definition isPlainObject (v : jsval) : bool :=
  match v with VObj _ => true | _ => false end.

Definition learningComplete (l : jsval) : bool :=
  isPlainObject l
  && isArray (getField l "completion_log")
  && isArray (getField l "move_log")
  && isPlainObject (getField l "stats")
  && isNumber (getField (getField l "stats") "moves")
  && isNumber (getField (getField l "stats") "completes").

Definition structurallyComplete (o : jsval) : bool :=
  isPlainObject o
  && isArray (getField o "deletions")
  && isArray (getField o "new_tasks")
  && isObjectLike (getField o "task_overrides")
  && isObjectLike (getField o "recurrence_overrides")
  && learningComplete (getField o "learning").

End OverlayStore.
Export OverlayStore.

(** ** The completion service's answer ([ai/providers.js], [ai/engine.js]) *)

Module Engine.

(** The suffix of [s] that starts at the first occurrence of [c]. *)
Fixpoint fromFirst (c : ascii) (s : string) : option string :=
  match s with
  | EmptyString => None
  | String a rest => if Ascii.eqb a c then Some s else fromFirst c rest
  end.

(** The prefix of [s] that ends at the last occurrence of [c]. *)
Fixpoint throughLast (c : ascii) (s : string) : option string :=
  match s with
  | EmptyString => None
  | String a rest =>
      match throughLast c rest with
      | Some kept => Some (String a kept)
      | None => if Ascii.eqb a c then Some (String a EmptyString) else None
      end
  end.

(** [txt.match(/\{[\s\S]*\}/)]: the leftmost match starts at the first
    opening brace, and the greedy star runs to the last closing brace that
    follows it. *)
Definition matchBraces (txt : string) : option string :=
  match fromFirst "{" txt with
  | Some (String open rest) =>
      match throughLast "}" rest with
      | Some kept => Some (String open kept)
      | None => None
      end
  | _ => None
  end.

Section WithParser.

Variable parse : string -> option jsval.

(** [tryParseJsonFromText(txt)]; the literal [null] is [VNull]. *)
Definition tryParseJsonFromText (txt : string) : jsval :=
  let direct := trim txt in
  match (if startsWith "{" direct && endsWithChar "}" direct
         then parse direct else None) with
  | Some v => v
  | None =>
      match matchBraces txt with
      | Some m => match parse m with Some v => v | None => VNull end
      | None => VNull
      end
  end.

End WithParser.

(** The result of [validatePayload]: [{ ok: true }] or
    [{ ok: false, error }]. *)
Inductive validation : Type :=
| Valid
| Invalid (error : string).

Definition allowedKinds : list jsval :=
  [VStr "add"; VStr "update"; VStr "complete"; VStr "undo_complete"; VStr "delete"].

(** The body of the loop of [validatePayload]: the error of the first check
    that [op] fails. *)
Definition checkOp (op : jsval) : option string :=
  if negb (truthy op) || negb (String.eqb (typeof op) "object")
  then Some "Bad op object"
  else if negb (hasValue allowedKinds (getField op "op"))
  then Some ("Unsupported op: " +:+ toPropertyKey (getField op "op"))
  else if negb (truthy (getField op "id")) || negb (String.eqb (typeof (getField op "id")) "string")
  then Some "Op missing id"
  else if (isStr "add" (getField op "op") || isStr "update" (getField op "op"))
          && (negb (truthy (getField op "fields"))
              || negb (String.eqb (typeof (getField op "fields")) "object"))
  then Some "add/update must include fields{}"
  else None.

Fixpoint checkOps (ops : list jsval) : validation :=
  match ops with
  | [] => Valid
  | op :: rest =>
      match checkOp op with
      | Some e => Invalid e
      | None => checkOps rest
      end
  end.

(** [validatePayload(payload)]. *)
Definition validatePayload (payload : jsval) : validation :=
  if negb (truthy payload) || negb (String.eqb (typeof payload) "object")
  then Invalid "Not an object"
  else
    match getField payload "ops" with
    | VArr ops => checkOps ops
    | _ => Invalid "Missing ops[]"
    end.

Section WithParser.

Variable parse : string -> option jsval.

(** [runOps(system, user, context)]: [enabled] is the setting read by
    [loadAiSettings], [response] what [await aiCall(...)] does, a text or an
    exception. *)
Definition runOps (enabled : bool) (response : outcome string) : outcome jsval :=
  if negb enabled then Throw "AI disabled"
  else
    match response with
    | Throw e => Throw e
    | Ret txt =>
        let payload := tryParseJsonFromText parse txt in
        if negb (truthy payload) then Throw "AI did not return valid JSON"
        else
          match validatePayload payload with
          | Invalid e => Throw ("AI payload invalid: " +:+ e)
          | Valid => Ret payload
          end
    end.

End WithParser.

End Engine.
Export Engine.

(** ** Auto-apply tiering and the refine flow ([app.js], AI Mode B) *)

Module Governance.

Definition safeFieldsAllow : list string :=
  ["title"; "notes"; "pillar"; "owner_id"; "priority"; "type";
   "estimated_minutes"; "energy"].

(** [keys.includes(k)] and [safeFieldsAllow.has(k)] on strings. *)
Definition includesKey (k : string) (ks : list string) : bool :=
  existsb (String.eqb k) ks.

(** Where one turn of the loop of [splitAiOpsForAutoApply] sends [op]. *)
Inductive bucket : Type :=
| Skipped
| Auto
| Review.

Definition classify (op : jsval) : bucket :=
  if negb (truthy op) || negb (String.eqb (typeof op) "object") then Skipped
  else if negb (isStr "update" (getField op "op")) then Review
  else
    match getField op "id" with
    | VStr id =>
        if startsWith "temp_" id then Review
        else
          let ks := keys (jsOr (getField op "fields") (VObj [])) in
          if includesKey "start_date" ks || includesKey "due_date" ks
             || includesKey "subtasks" ks
          then Review
          else if negb (forallb (fun k => includesKey k safeFieldsAllow) ks) then Review
          else Auto
    | _ => Review
    end.

Record Split : Type := mkSplit {
  autoOps : list jsval;
  reviewOps : list jsval
}.

(** The loop: [autoOps.push(op)] or [reviewOps.push(op)] or [continue]. *)
Fixpoint splitLoop (ops : list jsval) (acc : Split) : Split :=
  match ops with
  | [] => acc
  | op :: rest =>
      match classify op with
      | Skipped => splitLoop rest acc
      | Auto => splitLoop rest (mkSplit (autoOps acc ++ [op]) (reviewOps acc))
      | Review => splitLoop rest (mkSplit (autoOps acc) (reviewOps acc ++ [op]))
      end
  end.

(** [splitAiOpsForAutoApply(payload)]. *)
Definition splitAiOpsForAutoApply (payload : jsval) : Split :=
  splitLoop (arrayOrEmpty (getField payload "ops")) (mkSplit [] []).

(** [try { body } catch (e) { console.error(e); toast(...) }]: the exception
    is swallowed, the state stays as the body left it. *)
Definition catching (body : M unit) : M unit :=
  fun st =>
    match body st with
    | (Ret _, st') => (Ret tt, st')
    | (Throw _, st') => (Ret tt, st')
    end.

Definition plural (n : nat) : string :=
  if Nat.eqb n 1 then "" else "s".

(** The summary shown above the ops left for review. *)
Definition reviewSummary (summary : jsval) (didAuto : Z) (nReview : nat) : string :=
  let bits :=
    (if didAuto =? 0 then []
     else [showZ didAuto +:+ " safe tweak" +:+ (if didAuto =? 1 then "" else "s")
           +:+ " applied"])
    ++ [showNat nReview +:+ " change" +:+ plural nReview +:+ " to review"] in
  if truthy summary
  then toPropertyKey summary +:+ " · " +:+ joinWith " · " bits
  else joinWith " · " bits.

(** [x.find(...)] over [new_tasks], whose callback reads [x.id] and throws on
    a [null] element that comes before the match. *)
Fixpoint findNewTask (id : jsval) (xs : list jsval) : outcome (option jsval) :=
  match xs with
  | [] => Ret None
  | x :: rest =>
      if nullish x then Throw "TypeError: cannot read properties of null (reading id)"
      else if sameValueZero (getField x "id") id then Ret (Some x)
      else findNewTask id rest
  end.

Section WithParser.

Variable parse : string -> option jsval.

(** [aiRefineTaskById(id, { origin })]: [enabled] is the AI setting and
    [response] the outcome of building the context and awaiting the
    completion service.  The function is run on the state in which the
    answer arrives. *)
Definition aiRefineTaskById (enabled : bool) (id : jsval) (response : outcome string)
  : M unit :=
  if negb enabled then ret tt
  else
    m <- getMerged ;;
    ov <- getOverlays ;;
    found <- match findById id (mergedTasks m) with
             | Some t => if truthy t then ret (Some t) else lift (findNewTask id (new_tasks ov))
             | None => lift (findNewTask id (new_tasks ov))
             end ;;
    match found with
    | None => ret tt
    | Some _ =>
        catching
          (payload <- lift (runOps parse enabled response) ;;
           if negb (truthy payload) || negb (isArray (getField payload "ops"))
           then ret tt
           else
             let parts := splitAiOpsForAutoApply payload in
             didAuto <- (match autoOps parts with
                         | [] => ret 0
                         | _ :: _ => applyOpsArray (VArr (autoOps parts))
                         end) ;;
             match reviewOps parts with
             | _ :: _ =>
                 setPending
                   (Some (VObj [("summary",
                                 VStr (reviewSummary (getField payload "summary") didAuto
                                         (length (reviewOps parts))));
                                ("ops", VArr (reviewOps parts))]))
             | [] => setPending None
             end)
    end.

End WithParser.

End Governance.
Export Governance.

(** ** The properties as the specification words them *)

Module Spec.

(** Deletion dominance: no item of the merged view has an id that is in
    [deletions]. *)
Definition deletionDominates (base : obj) (ov : Overlays) : Prop :=
  forall d it,
    In d (deletions ov) ->
    In it (tasks (mergeData base ov) ++ events (mergeData base ov)) ->
    sameValueZero d (getField it "id") = false.

(** Every merged recurrence rule carries a boolean [enabled] flag, the one
    [recurrence_overrides] resolves for its id, [true] by default. *)
Definition rulesCarryEnabled (base : obj) (ov : Overlays) : Prop :=
  forall r,
    In r (recurrence_rules (mergeData base ov)) ->
    exists b, getField r "enabled" = VBool b
              /\ ruleEnabled (recurrence_overrides ov) r = VBool b.

(** The net predicate for auto-apply: the op is an update, its id is a
    string without the temporary prefix, every key of its fields is in the
    allowlist, and none of them is a date or [subtasks]. *)
Definition fieldKeys (op : jsval) : list string :=
  keys (jsOr (getField op "fields") (VObj [])).

Definition isTempId (id : string) : bool := startsWith "temp_" id.

Definition autoEligible (op : jsval) : bool :=
  isStr "update" (getField op "op")
  && match getField op "id" with
     | VStr id => negb (isTempId id)
     | _ => false
     end
  && forallb (fun k => includesKey k safeFieldsAllow) (fieldKeys op)
  && negb (existsb (fun k => includesKey k ["start_date"; "due_date"; "subtasks"])
                   (fieldKeys op)).

(** The structural checks of a suggestion payload, in the order in which
    the validator is specified to make them. *)
Inductive violation : Type :=
| NotAnObject
| MissingOps
| BadOpObject
| UnsupportedOp (kind : jsval)
| MissingId
| MissingFields.

Definition isNonNullObject (v : jsval) : bool :=
  match v with VObj _ | VArr _ => true | _ => false end.

Definition fiveKinds : list string :=
  ["add"; "update"; "complete"; "undo_complete"; "delete"].

Definition knownKind (v : jsval) : bool :=
  match v with VStr k => existsb (String.eqb k) fiveKinds | _ => false end.

Definition nonEmptyString (v : jsval) : bool :=
  match v with VStr s => negb (String.eqb s "") | _ => false end.

Definition needsFields (v : jsval) : bool :=
  match v with VStr k => String.eqb k "add" || String.eqb k "update" | _ => false end.

Definition opViolation (op : jsval) : option violation :=
  if negb (isNonNullObject op) then Some BadOpObject
  else if negb (knownKind (getField op "op")) then Some (UnsupportedOp (getField op "op"))
  else if negb (nonEmptyString (getField op "id")) then Some MissingId
  else if needsFields (getField op "op") && negb (isNonNullObject (getField op "fields"))
  then Some MissingFields
  else None.

Fixpoint firstOpViolation (ops : list jsval) : option violation :=
  match ops with
  | [] => None
  | op :: rest =>
      match opViolation op with
      | Some v => Some v
      | None => firstOpViolation rest
      end
  end.

(** The first violation met: the payload itself, then [ops], then the ops
    one after the other. *)
Definition firstViolation (payload : jsval) : option violation :=
  if negb (isNonNullObject payload) then Some NotAnObject
  else
    match getField payload "ops" with
    | VArr ops => firstOpViolation ops
    | _ => Some MissingOps
    end.

(** A payload violates some structural check. *)
Definition violates (payload : jsval) : Prop :=
  isNonNullObject payload = false
  \/ isArray (getField payload "ops") = false
  \/ exists ops op,
       getField payload "ops" = VArr ops /\ In op ops
       /\ (isNonNullObject op = false
           \/ knownKind (getField op "op") = false
           \/ nonEmptyString (getField op "id") = false
           \/ (needsFields (getField op "op") = true
               /\ isNonNullObject (getField op "fields") = false)).

(** The [error] text that [validatePayload] reports for a violation. *)
Definition errorText (v : violation) : string :=
  match v with
  | NotAnObject => "Not an object"
  | MissingOps => "Missing ops[]"
  | BadOpObject => "Bad op object"
  | UnsupportedOp kind => "Unsupported op: " +:+ toPropertyKey kind
  | MissingId => "Op missing id"
  | MissingFields => "add/update must include fields{}"
  end.

(** The first balanced [{...}] of a text: from the first opening brace to
    the closing brace that brings the nesting depth back to zero. *)
Fixpoint takeBalanced (depth : nat) (s : string) : option string :=
  match s with
  | EmptyString => None
  | String c rest =>
      if Ascii.eqb c "{" then option_map (String c) (takeBalanced (S depth) rest)
      else if Ascii.eqb c "}" then
        match depth with
        | O => Some (String c EmptyString)
        | S d => option_map (String c) (takeBalanced d rest)
        end
      else option_map (String c) (takeBalanced depth rest)
  end.

Definition firstBalanced (txt : string) : option string :=
  match fromFirst "{" txt with
  | Some (String open rest) => option_map (String open) (takeBalanced 0 rest)
  | _ => None
  end.

(** The extractor as specified: the whole trimmed text when it parses as an
    object, else the first balanced object that parses, else [null]. *)
Definition extractFirstBalanced (parse : string -> option jsval) (txt : string) : jsval :=
  match parse (trim txt) with
  | Some (VObj o) => VObj o
  | _ =>
      match firstBalanced txt with
      | Some m => match parse m with Some v => v | None => VNull end
      | None => VNull
      end
  end.

(** [c] occurs in [s]. *)
Fixpoint occurs (c : ascii) (s : string) : bool :=
  match s with
  | EmptyString => false
  | String a rest => Ascii.eqb a c || occurs c rest
  end.

(** An op of the completion kind. *)
Definition isCompletionOp (o : jsval) : bool :=
  isStr "complete" (getField o "op") || isStr "undo_complete" (getField o "op").

(** The entries that a batch of completion ops appends to the completion
    log, in order, when the batch starts at the clock reading [n]: a
    [complete] reads the clock for [completed_at] and then for the entry, an
    [undo_complete] only for the entry. *)
Fixpoint completionEntries (w : World) (n : nat) (ops : list jsval) : list jsval :=
  match ops with
  | [] => []
  | o :: rest =>
      if isStr "complete" (getField o "op")
      then VObj [("id", getField o "id"); ("completed", VBool true);
                 ("at", VStr (isoAt w (S n)))]
           :: completionEntries w (S (S n)) rest
      else VObj [("id", getField o "id"); ("completed", VBool false);
                 ("at", VStr (isoAt w n))]
           :: completionEntries w (S n) rest
  end.

(** The type of a created item as specified: the lowercased, trimmed
    value when it is one of the three kinds, and [task] otherwise. *)
Definition specifiedType (supplied : string) : string :=
  let v := trim (toLowerCase supplied) in
  if String.eqb v "task" || String.eqb v "event" || String.eqb v "meeting"
  then v else "task".

(** The current value of a date field of an item: the patch value, else the
    item's own. *)
Definition currentField (patch item : jsval) (k : string) : jsval :=
  jsOr (getField patch k) (getField item k).

Definition laterDate (a b : option JsDate) : option JsDate :=
  match a, b with
  | Some (ValidDate x), Some (ValidDate y) => Some (ValidDate (Z.max x y))
  | Some (ValidDate x), _ => Some (ValidDate x)
  | _, Some (ValidDate y) => Some (ValidDate y)
  | Some InvalidDate, _ | _, Some InvalidDate => Some InvalidDate
  | None, None => None
  end.

(** The date that defer-by-one-day is specified to produce: the later of
    the current due and start dates, plus one day. *)
Definition deferredLater (patch item : jsval) : option string :=
  option_map (fun d => isoFromDate (addDays 1 d))
    (laterDate (parseISODate (currentField patch item "due_date"))
               (parseISODate (currentField patch item "start_date"))).

End Spec.
Export Spec.

From Stdlib Require Import DecimalPos.

(** ** Weeks and months ([app.js], Utilities) *)

Module Periods.

(** [d.getDay()] of the day [day]: 1970-01-01 was a Thursday, and Sunday
    is 0. *)
Definition getDay (day : Z) : Z := (day + 4) mod 7.

(** [startOfWeek(d)]: the copy of [d] moved back to the Monday of its week.
    The getters of an invalid date return [NaN], and so does the sum. *)
Definition startOfWeek (d : JsDate) : JsDate :=
  match d with
  | ValidDate day =>
      let diff := if getDay day =? 0 then -6 else 1 - getDay day in
      addDays diff (ValidDate day)
  | InvalidDate => InvalidDate
  end.

(** [endOfWeek(d)]. *)
Definition endOfWeek (d : JsDate) : JsDate := addDays 6 (startOfWeek d).

(** [startOfMonth(d)], that is
    [new Date(d.getFullYear(), d.getMonth(), 1, 12, 0, 0, 0)]. *)
Definition startOfMonth (d : JsDate) : JsDate :=
  match d with
  | ValidDate day => let '(y, m, _) := civilFromDays day in newDate y (m - 1) 1
  | InvalidDate => InvalidDate
  end.

(** [endOfMonth(d)], that is
    [new Date(d.getFullYear(), d.getMonth() + 1, 0, 12, 0, 0, 0)]. *)
Definition endOfMonth (d : JsDate) : JsDate :=
  match d with
  | ValidDate day => let '(y, m, _) := civilFromDays day in newDate y m 0
  | InvalidDate => InvalidDate
  end.

(** [a < b] on two dates: a comparison with [NaN] is false. *)
Definition dateBefore (a b : JsDate) : bool :=
  match a, b with
  | ValidDate x, ValidDate y => x <? y
  | _, _ => false
  end.

(** [a <= b] on two dates. *)
Definition dateNotAfter (a b : JsDate) : bool :=
  match a, b with
  | ValidDate x, ValidDate y => x <=? y
  | _, _ => false
  end.

(** The test [d >= wStart && d <= wEnd] of the week filter of
    [buildTaskList] and [renderSummary], for a parsed date [d]. *)
Definition withinWeek (today d : JsDate) : bool :=
  dateNotAfter (startOfWeek today) d && dateNotAfter d (endOfWeek today).

(** The test [d >= mStart && d <= mEnd] of the month filter of
    [buildTaskList]. *)
Definition withinMonth (today d : JsDate) : bool :=
  dateNotAfter (startOfMonth today) d && dateNotAfter d (endOfMonth today).

End Periods.
Export Periods.

(** ** Status of an item as the views see it ([app.js], Derived lists and
    View building) *)

Module Views.

(** [isDone(t)]. *)
Definition isDone (ov : Overlays) (t : jsval) : bool :=
  String.eqb (getStatus ov t) "completed".

(** [isOverdue(t, today)]. *)
Definition isOverdue (ov : Overlays) (t : jsval) (today : JsDate) : bool :=
  if isDone ov t then false
  else
    match parseISODate (getField t "due_date") with
    | None => false
    | Some due => dateBefore due today
    end.

(** [xs.map(f)] for a callback that may throw: the first exception ends the
    call. *)
Fixpoint mapOutcome {A B : Type} (f : A -> outcome B) (xs : list A) : outcome (list B) :=
  match xs with
  | [] => Ret []
  | x :: rest =>
      match f x with
      | Throw e => Throw e
      | Ret y =>
          match mapOutcome f rest with
          | Throw e => Throw e
          | Ret ys => Ret (y :: ys)
          end
      end
  end.

(** The callback of [decorateTasks]:
    [{ ...t, __status: ..., type: normalizeType(t.type) || "task" }].
    Spreading [null] is allowed, but [isDone(t)] then reads [t.id] and
    throws. *)
Definition decorate (ov : Overlays) (t : jsval) : outcome jsval :=
  if nullish t then Throw "TypeError: cannot read properties of null (reading id)"
  else
    match Store.normalizeType (getField t "type") with
    | Throw e => Throw e
    | Ret ty =>
        Ret (VObj (setProp "type" (VStr (if String.eqb ty "" then "task" else ty))
                     (setProp "__status" (VStr (if isDone ov t then "completed" else "open"))
                        (ownEntries t))))
    end.

(** [decorateTasks(tasks)]. *)
Definition decorateTasks (ov : Overlays) (ts : list jsval) : outcome (list jsval) :=
  mapOutcome (decorate ov) ts.

End Views.
Export Views.

(** ** Resetting, recurrence toggles and the review sheet ([app.js]) *)

Module Housekeeping.

Definition withRecurrence (f : gmap string jsval -> gmap string jsval) (o : Overlays)
  : Overlays :=
  mkOverlays (version o) (updated_at o) (deletions o) (task_overrides o) (new_tasks o)
             (f (recurrence_overrides o)) (learning o).

(** [overrides?.[id]?.enabled ?? true] for the key [id]. *)
Definition flagOf (overrides : gmap string jsval) (id : string) : jsval :=
  let o := match overrides !! id with Some x => x | None => VUndef end in
  jsCoalesce (if nullish o then VUndef else getField o "enabled") (VBool true).

(** The click handler that [renderRecurring] attaches to the toggle of the
    rule whose id is written in the button's [data-rec] attribute. *)
Definition toggleRecurrence (id : string) : M unit :=
  ov <- getOverlays ;;
  modifyOverlays
    (withRecurrence
       (insert id (VObj [("enabled",
                          VBool (negb (truthy (flagOf (recurrence_overrides ov) id))))]))) ;;;
  saveOverlays.

(** [resetOverlays()]; [confirmed] is the answer to the [confirm] dialog. *)
Definition resetOverlays (confirmed : bool) : M unit :=
  if negb confirmed then ret tt
  else
    t <- nowISO ;;
    modifyOverlays (fun _ => defaultOverlays t) ;;;
    saveOverlays ;;;
    remerge.



(** [discardAi()]. *)
Definition discardAi : M unit := setPending None.

End Housekeeping.
Export Housekeeping.

(** ** The AI settings ([ai/providers.js]) *)

Module Providers.

(** [defaultAiSettings()]. *)
Definition defaultAiSettings : jsval :=
  VObj [ ("enabled", VBool false);
         ("autoRefine", VBool false);
         ("provider", VStr "openai");
         ("model", VStr "");
         ("endpoint", VStr "");
         ("headersJson", VStr "");
         ("rememberKey", VBool false);
         ("apiKey", VStr "") ].

Section WithParser.

Variable parse : string -> option jsval.

(** [loadAiSettings()], where [raw] is what [localStorage.getItem] returns.
    A spread of [null] or of a number adds nothing and does not throw. *)
Definition loadAiSettings (raw : option string) : jsval :=
  match raw with
  | None => defaultAiSettings
  | Some text =>
      if String.eqb text "" then defaultAiSettings
      else
        match parse text with
        | None => defaultAiSettings
        | Some obj => VObj (spread2 defaultAiSettings obj)
        end
  end.

End WithParser.

(** The result of [getAiReadyState]. *)
Record ReadyState : Type := mkReady {
  enabled : bool;
  ready : bool;
  reason : string
}.

(** [getAiReadyState()] on the settings [s] that [loadAiSettings] returned. *)
Definition getAiReadyState (s : jsval) : ReadyState :=
  if negb (truthy (getField s "enabled")) then mkReady false false "disabled"
  else if isStr "openai_compat" (getField s "provider")
  then mkReady true true "local_compat_ok"
  else if negb (truthy (getField s "apiKey")) && negb (truthy (getField s "rememberKey"))
  then mkReady true false "missing_key"
  else if truthy (getField s "rememberKey") && negb (truthy (getField s "apiKey"))
  then mkReady true false "missing_key"
  else mkReady true true "ok".

End Providers.

(** ** The context bundle sent with a request ([ai/context.js]) *)

Module ContextBundle.

(** [isCompleted(overlays, item)]. *)
Definition isCompleted (ov : Overlays) (item : jsval) : bool :=
  let patch := match task_overrides ov !! toPropertyKey (getField item "id") with
               | Some p => VObj p
               | None => VObj []
               end in
  isStr "completed"
    (jsOr (jsOr (getField patch "status") (getField item "status")) (VStr "")).

(** [(x.notes || "").slice(0, 220)]: strings and arrays have a [slice]
    method, the other truthy values have none. *)
Definition notesHead (notes : jsval) : outcome jsval :=
  match jsOr notes (VStr "") with
  | VStr s => Ret (VStr (String.substring 0 220 s))
  | VArr xs => Ret (VArr (firstn 220 xs))
  | _ => Throw "TypeError: slice is not a function"
  end.

(** [xs.filter((t) => ... isCompleted(overlays, t) ...)]: the callback reads
    [t.id] and throws on an element that is [null] or [undefined]. *)
Definition filterItems (keep : jsval -> bool) (xs : list jsval) : outcome (list jsval) :=
  if existsb nullish xs
  then Throw "TypeError: cannot read properties of null (reading id)"
  else Ret (List.filter keep xs).

(** The callback [pick], which runs on items that went through the filter. *)
Definition pick (ov : Overlays) (x : jsval) : outcome jsval :=
  match AiContext.normalizeType (getField x "type") with
  | Throw e => Throw e
  | Ret ty =>
      match notesHead (getField x "notes") with
      | Throw e => Throw e
      | Ret notes =>
          Ret (VObj
                 [ ("id", getField x "id");
                   ("title", jsOr (getField x "title") (VStr ""));
                   ("pillar", jsOr (getField x "pillar") (VStr ""));
                   ("owner_id", jsOr (getField x "owner_id") (VStr ""));
                   ("start_date", jsOr (getField x "start_date") VNull);
                   ("due_date", jsOr (getField x "due_date") VNull);
                   ("priority", jsCoalesce (getField x "priority") VNull);
                   ("type", VStr ty);
                   ("status", VStr (if isCompleted ov x then "completed" else "open"));
                   ("notes", notes) ])
      end
  end.

(** What [buildAiContext] returns. *)
Record Bundle : Type := mkBundle {
  origin : string;
  open_tasks : list jsval;
  recent_completed : list jsval;
  open_events : list jsval;
  stats : jsval;
  completion_log_tail : list jsval;
  move_log_tail : list jsval;
  reference : jsval
}.

(** [buildAiContext(merged, overlays, { origin })]; [ref] is what
    [tryLoadReference] resolves to, the reference document or [null]. *)
Definition buildAiContext (m : option MergedView) (ov : Overlays) (from : string)
           (ref : jsval) : outcome Bundle :=
  match filterItems (fun t => negb (isCompleted ov t)) (mergedTasks m) with
  | Throw e => Throw e
  | Ret openItems =>
  match mapOutcome (pick ov) (firstn 220 openItems) with
  | Throw e => Throw e
  | Ret open =>
  match filterItems (isCompleted ov) (mergedTasks m) with
  | Throw e => Throw e
  | Ret doneItems =>
  match mapOutcome (pick ov) (firstn 60 doneItems) with
  | Throw e => Throw e
  | Ret doneRecent =>
  match filterItems (fun e => negb (isCompleted ov e)) (mergedEvents m) with
  | Throw e => Throw e
  | Ret openEvents =>
  match mapOutcome (pick ov) (firstn 60 openEvents) with
  | Throw e => Throw e
  | Ret evOpen =>
      Ret {| origin := from;
             open_tasks := open;
             recent_completed := doneRecent;
             open_events := evOpen;
             stats := VObj [("moves", VNum (stats_moves (learning ov)));
                            ("completes", VNum (stats_completes (learning ov)))];
             completion_log_tail := sliceLast 60 (completion_log (learning ov));
             move_log_tail := sliceLast 60 (move_log (learning ov));
             reference := ref |}
  end end end end end end.

End ContextBundle.

(** ** Rebalancing today ([app.js], [aiRebalanceToday]) *)

Module Rebalance.

Section WithParser.

Variable parse : string -> option jsval.

(** [aiRebalanceToday()]: [enabled] is the AI setting, [ref] the reference
    document and [response] what awaiting the completion service does.  The
    function is run without a user action in between its steps. *)
Definition aiRebalanceToday (enabled : bool) (ref : jsval) (response : outcome string)
  : M unit :=
  if negb enabled then ret tt
  else
    catching
      (m <- getMerged ;;
       ov <- getOverlays ;;
       lift (ContextBundle.buildAiContext m ov "rebalance_today" ref) ;;;
       todayLocalISO ;;;
       lift (decorateTasks ov (mergedTasks m)) ;;;
       payload <- lift (runOps parse enabled response) ;;
       if negb (truthy payload) || negb (isArray (getField payload "ops"))
       then ret tt
       else setPending (Some payload)).

End WithParser.

End Rebalance.
Export Rebalance.

(** ** Predicates in which the properties of the mutators are stated *)

Module Laws.

(** The merged view and the persisted overlay are those of the current
    overlay. *)
Definition synced (st : State) : Prop :=
  merged st = Some (mergeData (base st) (overlays st))
  /\ stored st = Some (overlays st).

(** What [ensurePatch] does to [task_overrides] for the key [key]. *)
Definition ensureKey (key : string) (m : gmap string obj) : gmap string obj :=
  match m !! key with
  | Some _ => m
  | None => <[key := []]> m
  end.

(** From [st] to [st'] the clock and the random source were read [n]
    times, the overlay went from [o] to [F o], and the base dataset and
    the pending payload stayed. *)
Definition evolves (n : nat) (F : Overlays -> Overlays) (st st' : State) : Prop :=
  world st' = world st
  /\ reads st' = (n + reads st)%nat
  /\ base st' = base st
  /\ overlays st' = F (overlays st)
  /\ pendingAiPayload st' = pendingAiPayload st.

(** What [logMove] does to [learning] with the entry [e]. *)
Definition moved (e : jsval) (l : Learning) : Learning :=
  mkLearning (completion_log l) (sliceLast 400 (move_log l ++ [e]))
             (stats_moves l + 1) (stats_completes l).

(** What [logComplete] does to [learning] with the entry [e]. *)
Definition completed (e : jsval) (l : Learning) : Learning :=
  mkLearning (sliceLast 400 (completion_log l ++ [e])) (move_log l)
             (stats_moves l) (stats_completes l + 1).

(** No element of the array is [null] or [undefined]. *)
Definition noHoles (xs : list jsval) : bool := negb (existsb nullish xs).




(** An op as [validatePayload] lets it through. *)
Definition wellFormedOp (op : jsval) : bool :=
  isNonNullObject op
  && knownKind (getField op "op")
  && nonEmptyString (getField op "id")
  && (negb (needsFields (getField op "op")) || isNonNullObject (getField op "fields")).



(** An item that [buildAiContext] can describe: not [null], with a type
    that is a string or falsy and notes that are a string, an array or
    falsy. *)
Definition plainItem (x : jsval) : bool :=
  negb (nullish x)
  && (negb (truthy (getField x "type")) || isString (getField x "type"))
  && (negb (truthy (getField x "notes")) || isString (getField x "notes")
      || isArray (getField x "notes")).

(** What the context bundle says of an item: a status, one of the three
    types, and notes of at most 220 characters or elements. *)
Definition briefItem (status : string) (y : jsval) : Prop :=
  getField y "status" = VStr status
  /\ In (getField y "type") [VStr "task"; VStr "event"; VStr "meeting"]
  /\ (forall s, getField y "notes" = VStr s -> (String.length s <= 220)%nat)
  /\ (forall xs, getField y "notes" = VArr xs -> (length xs <= 220)%nat).

(** An object whose type is a string or falsy. *)
Definition typedObject (t : jsval) : bool :=
  match t with
  | VObj _ => negb (truthy (getField t "type")) || isString (getField t "type")
  | _ => false
  end.

(** The ids of the items of a list, in order. *)
Definition idsOf (xs : list jsval) : list jsval := map (fun x => getField x "id") xs.

(** The base items that carry the property key [key] as their id. *)
Definition baseHasKey (b : obj) (key : string) : bool :=
  existsb (fun t => String.eqb (toPropertyKey (getField t "id")) key)
          (arrayOrEmpty (getField (VObj b) "tasks")
           ++ arrayOrEmpty (getField (VObj b) "events")).

End Laws.
Export Laws.

(** ** Concrete datasets and overlays used by the examples *)

Module Inputs.

Definition renamedBase : obj := [("tasks", VArr [VObj [("id", VStr "a"); ("title", VStr "A")]])].

Definition renamingOverlays : Overlays :=
  mkOverlays (VNum 1) (VStr "2024-01-01T00:00:00.000Z") [VStr "d"]
             {[ "a" := [("id", VStr "d")] ]} [] ∅ defaultLearning.

Definition tombstoneBase : obj :=
  [("tasks", VArr [VObj [("id", VStr "a")]; VObj [("id", VStr "d")]]);
   ("events", VArr [VObj [("id", VStr "d")]; VObj [("id", VStr "e")]])].

Definition tombstoneOverlays : Overlays :=
  mkOverlays (VNum 1) (VStr "2024-01-01T00:00:00.000Z") [VStr "d"]
             {[ "d" := [("title", VStr "patched")] ]}
             [VObj [("id", VStr "d")]; VObj [("id", VStr "temp_1")]] ∅ defaultLearning.


Definition weeklyRuleBase : obj :=
  [("recurrence_rules", VArr [VObj [("id", VStr "r1"); ("frequency", VStr "weekly")]])].

Definition disabledRuleOverlays : Overlays :=
  mkOverlays (VNum 1) (VStr "2024-01-01T00:00:00.000Z") [] ∅ []
             {[ "r1" := VObj [("enabled", VBool false)] ]} defaultLearning.

Definition twoEventsBase : obj :=
  [("events", VArr [VObj [("id", VStr "e1"); ("title", VStr "Kickoff");
                          ("due_date", VStr "2024-03-01")];
                    VObj [("id", VStr "e2"); ("title", VStr "Review")]])].

Definition eventPatchOverlays : Overlays :=
  mkOverlays (VNum 1) (VStr "2024-01-01T00:00:00.000Z") []
             {[ "e1" := [("title", VStr "Kickoff (moved)"); ("status", VStr "completed")] ]}
             [] ∅ defaultLearning.

Definition scenarioC : jsval :=
  VObj [("ops", VArr [VObj [("op", VStr "update"); ("id", VStr "temp_abc");
                            ("fields", VObj [("title", VStr "Y")])]])].

Definition scenarioD : jsval :=
  VObj [("ops", VArr [VObj [("op", VStr "update"); ("id", VStr "t3");
                            ("fields", VObj [("title", VStr "Z");
                                             ("due_date", VStr "2024-02-01")])]])].

Definition mixedOps : list jsval :=
  [ VObj [("op", VStr "update"); ("id", VStr "t1"); ("fields", VObj [("title", VStr "A")])];
    VObj [("op", VStr "delete"); ("id", VStr "t2")];
    VObj [("op", VStr "update"); ("id", VStr "t3"); ("fields", VObj [("priority", VNum 1)])];
    VObj [("op", VStr "update"); ("id", VStr "t4"); ("fields", VObj [("color", VStr "red")])];
    VObj [("op", VStr "add"); ("id", VStr "temp_x"); ("fields", VObj [("title", VStr "N")])] ].

Definition steadyWorld : World :=
  mkWorld (fun n => "2024-05-01T10:00:0" +:+ showNat n +:+ ".000Z")
          (fun _ => "2024-05-01")
          (fun n => "lw3k9_" +:+ showNat n).

Definition oneTaskBase : obj :=
  [("tasks", VArr [VObj [("id", VStr "t1"); ("title", VStr "Draft report");
                         ("due_date", VStr "2024-01-10")]])].

Definition bootState (w : World) (b : obj) (ov : Overlays) : State :=
  mkState w 0 b ov (Some (mergeData b ov)) None None.

Definition freshOverlays : Overlays := defaultOverlays "2024-05-01T09:00:00.000Z".

Definition badKindResponse : string :=
  jsonText "Sure! {'summary':'s','ops':[{'op':'update','id':'t1','fields':{'title':'X'}},{'op':'rename','id':'t1'}]}".

Definition corruptLearningRaw : string :=
  jsonText "{'deletions':['t1'],'learning':{'completion_log':'oops','stats':5}}".

Definition corruptLearningTopRaw : string :=
  jsonText "{'deletions':['t1'],'learning':'broken'}".

Definition twoObjectsResponse : string :=
  jsonText "Plan: {'summary':'ok','ops':[]} Note: keep {braces} out of titles.".

Definition wrappedResponse : string :=
  jsonText "Here you go: {'summary':'ok','ops':[]} Hope it helps.".

(** Five hundred [complete] ops on the ids [0], [1], ..., [499]. *)
Definition fiveHundredCompletions : list jsval :=
  map (fun i => VObj [("op", VStr "complete"); ("id", VStr (showNat i))]) (seq 0 500).

Definition unknownTypeAdd : jsval :=
  VArr [VObj [("op", VStr "add"); ("id", VStr "temp_n1");
              ("fields", VObj [("title", VStr "Call vendor"); ("type", VStr "Reminder")])]].

Definition startAfterDueBase : obj :=
  [("tasks", VArr [VObj [("id", VStr "t1"); ("title", VStr "Draft report");
                         ("start_date", VStr "2024-01-20");
                         ("due_date", VStr "2024-01-10")]])].

Definition dueOnlyBase : obj :=
  [("tasks", VArr [VObj [("id", VStr "t1"); ("title", VStr "Draft report");
                         ("due_date", VStr "2024-02-28")]])].
End Inputs.
Export Inputs.

(** ** Further datasets and overlays used by the examples *)

Module MoreInputs.

(** One task added by Quick Add, due on 2024-01-10. *)
Definition quickAddedOverlays : Overlays :=
  mkOverlays (VNum 1) (VStr "2024-05-01T09:00:00.000Z") [] ∅
             [VObj [("id", VStr "temp_lw3k9"); ("title", VStr "Call vendor");
                    ("due_date", VStr "2024-01-10")]]
             ∅ defaultLearning.

(** An answer of the completion service: one safe update, one deletion. *)
Definition tidyResponse : string :=
  jsonText "Here is the plan: {'summary':'tidy','ops':[{'op':'update','id':'t1','fields':{'title':'Draft Q1 report'}},{'op':'delete','id':'t1'}]}".

End MoreInputs.
Export MoreInputs.

(** * Properties *)

(** ** The library functions on examples: dates and JSON texts *)

Example iso_next_day_leap :
  option_map (fun d => isoFromDate (addDays 1 d)) (parseISODate (VStr "2024-02-28"))
  = Some "2024-02-29"%string.
Proof. vm_compute. reflexivity. Qed.

Example iso_next_day_year_end :
  option_map (fun d => isoFromDate (addDays 1 d)) (parseISODate (VStr "2023-12-31"))
  = Some "2024-01-01"%string.
Proof. vm_compute. reflexivity. Qed.

Example iso_next_day_no_leap :
  option_map (fun d => isoFromDate (addDays 1 d)) (parseISODate (VStr "2100-02-28"))
  = Some "2100-03-01"%string.
Proof. vm_compute. reflexivity. Qed.

(** The [Date] constructor carries a day out of range over, reads a year
    below 100 as a year of the twentieth century, and [parseISODate] gives
    [null] for a component that is zero or not a number. *)
Example parse_iso_date_corners :
  map (fun s => option_map isoFromDate (parseISODate (VStr s)))
      ["2024-02-31"; "50-1-1"; "2024-00-10"; "2024-01"; "soon"; "2024-1-5T08:00"]
  = [Some "2024-03-02"; Some "1950-01-01"; None; None; None; None]%string.
Proof. vm_compute. reflexivity. Qed.

Example json_parse_object :
  JSON_parse (jsonText "{'a': [1, true, null], 'b': {'c': 'x'}} ")
  = Some (VObj [("a", VArr [VNum 1; VBool true; VNull]); ("b", VObj [("c", VStr "x")])]).
Proof. vm_compute. reflexivity. Qed.

Example json_parse_trailing_text :
  JSON_parse (jsonText "{'a':1} and {'b':2}") = None.
Proof. vm_compute. reflexivity. Qed.

(** ** Objects: reading after writing *)

Section ObjectLemmas.

Lemma lookupProp_setProp (k k' : string) (v : jsval) (o : obj) :
  lookupProp k (setProp k' v o) = if String.eqb k k' then Some v else lookupProp k o.
Proof.
  induction o as [|[k0 v0] rest IH]; simpl.
  - destruct (String.eqb k k'); reflexivity.
  - destruct (String.eqb k' k0) eqn:E0; simpl.
    + apply String.eqb_eq in E0. subst k0.
      destruct (String.eqb k k'); reflexivity.
    + destruct (String.eqb k k0) eqn:E1.
      * apply String.eqb_eq in E1. subst k0.
        rewrite String.eqb_sym in E0. rewrite E0. reflexivity.
      * exact IH.
Qed.

(** After [Object.assign(o, src)] a property holds a value bound in [src],
    or else what it held in [o]. *)
Lemma lookupProp_assign (k : string) (src o : obj) :
  match lookupProp k (assign o src) with
  | Some v => In (k, v) src \/ ((forall w, ~ In (k, w) src) /\ lookupProp k o = Some v)
  | None => (forall w, ~ In (k, w) src) /\ lookupProp k o = None
  end.
Proof.
  unfold assign. revert o.
  induction src as [|[k0 v0] rest IH]; intros o; simpl.
  - destruct (lookupProp k o); [right|]; split; auto.
  - specialize (IH (setProp k0 v0 o)). rewrite lookupProp_setProp in IH.
    destruct (lookupProp k (fold_left _ rest (setProp k0 v0 o))) as [v|].
    + destruct IH as [Hin | [Hno Hv]]; [left; right; exact Hin |].
      destruct (String.eqb k k0) eqn:Ek.
      * apply String.eqb_eq in Ek. subst k0. injection Hv as <-. left; left; reflexivity.
      * apply String.eqb_neq in Ek. right. split; [|exact Hv].
        intros w [Hw | Hw]; [congruence | exact (Hno w Hw)].
    + destruct IH as [Hno Hv].
      destruct (String.eqb k k0) eqn:Ek; [discriminate Hv|].
      apply String.eqb_neq in Ek. split; [|exact Hv].
      intros w [Hw | Hw]; [congruence | exact (Hno w Hw)].
Qed.

(** A value written once by [src] is the one read back. *)
Lemma lookupProp_assign_unique (k : string) (v : jsval) (src o : obj) :
  NoDup (map fst src) -> In (k, v) src -> lookupProp k (assign o src) = Some v.
Proof.
  unfold assign. revert o.
  induction src as [|[k0 v0] rest IH]; intros o Hnd Hin; simpl in *.
  - contradiction.
  - inversion Hnd as [|? ? Hnotin Hnd']; subst.
    destruct Hin as [Heq | Hin].
    + injection Heq as -> ->.
      pose proof (lookupProp_assign k rest (setProp k v o)) as H.
      unfold assign in H.
      destruct (lookupProp k (fold_left _ rest (setProp k v o))) as [w|].
      * destruct H as [Hin | [_ Hv]].
        -- exfalso. apply Hnotin. apply list_elem_of_In.
           exact (in_map fst _ _ Hin).
        -- rewrite lookupProp_setProp, String.eqb_refl in Hv. symmetry; exact Hv.
      * destruct H as [_ Hv].
        rewrite lookupProp_setProp, String.eqb_refl in Hv. discriminate.
    + apply IH; assumption.
Qed.

Lemma lookupProp_assign_absent (k : string) (src o : obj) :
  (forall w, ~ In (k, w) src) -> lookupProp k (assign o src) = lookupProp k o.
Proof.
  intros Hno.
  pose proof (lookupProp_assign k src o) as H.
  destruct (lookupProp k (assign o src)) as [v|].
  - destruct H as [Hin | [_ Hv]]; [exfalso; exact (Hno v Hin) | symmetry; exact Hv].
  - destruct H as [_ Hv]. symmetry; exact Hv.
Qed.

Lemma getField_setProp (k k' : string) (v : jsval) (o : obj) :
  getField (VObj (setProp k v o)) k'
  = if String.eqb k' k then v else getField (VObj o) k'.
Proof.
  unfold getField. rewrite lookupProp_setProp.
  destruct (String.eqb k' k); reflexivity.
Qed.

End ObjectLemmas.

(** ** Merger *)

Section MergeLemmas.

Lemma hasValue_false (xs : list jsval) (v d : jsval) :
  hasValue xs v = false -> In d xs -> sameValueZero d v = false.
Proof.
  unfold hasValue. intros H Hin.
  destruct (sameValueZero d v) eqn:E; [|reflexivity].
  assert (existsb (fun x => sameValueZero x v) xs = true) as Hex
    by (apply existsb_exists; exists d; split; assumption).
  rewrite Hex in H. discriminate.
Qed.

Lemma survives_inv (dels : list jsval) (t : jsval) :
  survives dels t = true ->
  exists o, t = VObj o /\ truthy (getField t "id") = true
            /\ hasValue dels (getField t "id") = false.
Proof.
  unfold survives. intros H.
  apply andb_prop in H as [H Hdel]. apply andb_prop in H as [_ Hid].
  apply negb_true_iff in Hdel.
  destruct t; simpl in Hid; try discriminate.
  eexists; repeat split; eauto.
Qed.

(** The loop over [new_tasks] keeps exactly the entries that the filter of
    the base items would keep, in their stored order. *)
Lemma appendNew_filter (dels newTasks : list jsval) :
  appendNew dels newTasks = List.filter (survives dels) newTasks.
Proof.
  induction newTasks as [|nt rest IH]; simpl; [reflexivity|].
  unfold survives at 1.
  destruct (truthy nt); simpl; [|exact IH].
  destruct (truthy (getField nt "id")); simpl; [|exact IH].
  destruct (hasValue dels (getField nt "id")); simpl; [exact IH|].
  f_equal. exact IH.
Qed.

Lemma applyOverride_id (ov : Overlays) (t : jsval) :
  (forall k p v, task_overrides ov !! k = Some p -> In ("id", v) p ->
                 hasValue (deletions ov) v = false) ->
  survives (deletions ov) t = true ->
  hasValue (deletions ov) (getField (applyOverride (task_overrides ov) t) "id") = false.
Proof.
  intros Hpatch Hs.
  destruct (survives_inv _ _ Hs) as (o & -> & Hid & Hdel).
  unfold applyOverride.
  destruct (task_overrides ov !! toPropertyKey (getField (VObj o) "id")) as [p|] eqn:Ep;
    [|exact Hdel].
  unfold spread2; simpl ownEntries.
  pose proof (lookupProp_assign "id" p o) as H.
  unfold getField at 1.
  destruct (lookupProp "id" (assign o p)) as [v|].
  - destruct H as [Hin | [_ Hv]].
    + exact (Hpatch _ _ _ Ep Hin).
    + unfold getField in Hdel. rewrite Hv in Hdel. exact Hdel.
  - destruct H as [_ Hv]. unfold getField in Hid. rewrite Hv in Hid. discriminate.
Qed.

End MergeLemmas.

(** C1, as stated, fails: a patch stored under the id [a] that carries an
    [id] property renames the surviving base task to the deleted id [d], and
    the merged tasks then hold an item with a deleted id. *)
Lemma deletion_dominance_counterexample :
  ~ deletionDominates renamedBase renamingOverlays.
Proof.
  intros H.
  specialize (H (VStr "d") (VObj [("id", VStr "d"); ("title", VStr "A")])).
  assert (sameValueZero (VStr "d")
            (getField (VObj [("id", VStr "d"); ("title", VStr "A")]) "id") = false) as Hc.
  { apply H.
    - left; reflexivity.
    - vm_compute. left; reflexivity. }
  vm_compute in Hc. discriminate.
Qed.

(** C1 (amended): when no patch of [task_overrides] carries an [id] property
    whose value is a deleted id, no item of the merged tasks and events has
    an id that is in [deletions], whatever the base holds and whatever
    patches exist for the deleted id itself. *)
Theorem deletion_dominance (base : obj) (ov : Overlays) :
  (forall k p v, task_overrides ov !! k = Some p -> In ("id", v) p ->
                 hasValue (deletions ov) v = false) ->
  deletionDominates base ov.
Proof.
  intros Hpatch d it Hd Hit.
  unfold mergeData in Hit; simpl in Hit.
  rewrite appendNew_filter in Hit.
  apply hasValue_false with (xs := deletions ov); [|exact Hd].
  rewrite !in_app_iff in Hit.
  destruct Hit as [[Hit | Hit] | Hit].
  - apply in_map_iff in Hit as (t & <- & Ht).
    apply filter_In in Ht as [_ Hs].
    apply applyOverride_id; assumption.
  - apply filter_In in Hit as [_ Hs].
    destruct (survives_inv _ _ Hs) as (o & -> & _ & Hdel). exact Hdel.
  - apply in_map_iff in Hit as (t & <- & Ht).
    apply filter_In in Ht as [_ Hs].
    apply applyOverride_id; assumption.
Qed.

Lemma deletion_dominance_witness :
  deletionDominates tombstoneBase tombstoneOverlays
  /\ map (fun it => getField it "id")
         (tasks (mergeData tombstoneBase tombstoneOverlays)
          ++ events (mergeData tombstoneBase tombstoneOverlays))
     = [VStr "a"; VStr "temp_1"; VStr "e"].
Proof.
  split.
  - apply (deletion_dominance tombstoneBase tombstoneOverlays).
    intros k p v Hk Hin. unfold tombstoneOverlays in Hk; simpl in Hk.
    destruct (decide (k = "d")) as [->|Hne].
    + rewrite lookup_singleton_eq in Hk. injection Hk as <-.
      destruct Hin as [Hin | []]. discriminate.
    + rewrite lookup_singleton_ne in Hk by congruence. discriminate.
  - vm_compute. reflexivity.
Defined.

(** C6, as stated, fails: [mergeData] hands the base rules over as they are.
    With the rule [r1] disabled in [recurrence_overrides], the merged rule
    still has no [enabled] property at all. *)
Lemma merged_rules_counterexample :
  ~ rulesCarryEnabled weeklyRuleBase disabledRuleOverlays.
Proof.
  intros H.
  destruct (H (VObj [("id", VStr "r1"); ("frequency", VStr "weekly")])) as (b & Hb & _).
  - vm_compute. left; reflexivity.
  - vm_compute in Hb. discriminate.
Qed.

(** C6 (amended): the merged view holds the recurrence rules of the base
    dataset unchanged (none when the base has no array of rules), without
    any flag added.  The flag is resolved per rule when the rules are
    rendered: it is what [recurrence_overrides] stores as [enabled] under
    the rule's id, and [true] when there is no override for the id or the
    override has no [enabled] value. *)
Theorem recurrence_rules_pass_through (base : obj) (ov : Overlays) :
  recurrence_rules (mergeData base ov)
  = arrayOrEmpty (getField (VObj base) "recurrence_rules")
  /\ forall r,
       ruleEnabled (recurrence_overrides ov) r
       = match recurrence_overrides ov !! toPropertyKey (getField r "id") with
         | Some o => jsCoalesce (getField o "enabled") (VBool true)
         | None => VBool true
         end.
Proof.
  split; [reflexivity|].
  intros r. unfold ruleEnabled.
  destruct (recurrence_overrides ov !! toPropertyKey (getField r "id")) as [o|];
    [|reflexivity].
  destruct o; reflexivity.
Qed.

Example rule_enabled_by_default :
  ruleEnabled (recurrence_overrides disabledRuleOverlays) (VObj [("id", VStr "r2")]) = VBool true
  /\ ruleEnabled (recurrence_overrides disabledRuleOverlays) (VObj [("id", VStr "r1")]) = VBool false.
Proof. vm_compute. split; reflexivity. Qed.

(** C10: [mergeData] maps the surviving base events through the same
    override function as the base tasks.  A surviving base event whose id
    has a patch in [task_overrides] is replaced by [{...event, ...patch}]:
    every property the patch writes is read back from the merged event, and
    every other property is the event's own. *)
Theorem event_overrides (base : obj) (ov : Overlays) (e : jsval) (p : obj) :
  In e (arrayOrEmpty (getField (VObj base) "events")) ->
  survives (deletions ov) e = true ->
  task_overrides ov !! toPropertyKey (getField e "id") = Some p ->
  events (mergeData base ov)
  = map (applyOverride (task_overrides ov))
        (List.filter (survives (deletions ov))
                     (arrayOrEmpty (getField (VObj base) "events")))
  /\ applyOverride (task_overrides ov) e = VObj (spread2 e (VObj p))
  /\ In (VObj (spread2 e (VObj p))) (events (mergeData base ov))
  /\ (forall k v, NoDup (map fst p) -> In (k, v) p ->
                  getField (VObj (spread2 e (VObj p))) k = v)
  /\ (forall k, (forall w, ~ In (k, w) p) ->
                getField (VObj (spread2 e (VObj p))) k = getField e k).
Proof.
  intros Hin Hs Hp.
  assert (applyOverride (task_overrides ov) e = VObj (spread2 e (VObj p))) as Happ
    by (unfold applyOverride; rewrite Hp; reflexivity).
  split; [reflexivity|]. split; [exact Happ|]. split; [|split].
  - unfold mergeData; simpl. rewrite <- Happ.
    apply in_map. apply filter_In. split; assumption.
  - intros k v Hnd Hkv. unfold getField, spread2. simpl ownEntries.
    rewrite (lookupProp_assign_unique k v p (ownEntries e) Hnd Hkv). reflexivity.
  - intros k Hno.
    destruct (survives_inv _ _ Hs) as (o & -> & _ & _).
    unfold getField, spread2. simpl ownEntries.
    rewrite (lookupProp_assign_absent k p o Hno). reflexivity.
Qed.

Lemma event_overrides_witness :
  events (mergeData twoEventsBase eventPatchOverlays)
  = [VObj [("id", VStr "e1"); ("title", VStr "Kickoff (moved)");
           ("due_date", VStr "2024-03-01"); ("status", VStr "completed")];
     VObj [("id", VStr "e2"); ("title", VStr "Review")]].
Proof.
  pose proof (event_overrides twoEventsBase eventPatchOverlays
                (VObj [("id", VStr "e1"); ("title", VStr "Kickoff");
                       ("due_date", VStr "2024-03-01")])
                [("title", VStr "Kickoff (moved)"); ("status", VStr "completed")]) as H.
  destruct H as (Hev & _).
  - vm_compute. left; reflexivity.
  - vm_compute. reflexivity.
  - vm_compute. reflexivity.
  - rewrite Hev. vm_compute. reflexivity.
Defined.

(** ** Safety classifier *)

Section Classifier.

Lemma splitLoop_filter (ops : list jsval) (acc : Split) :
  splitLoop ops acc
  = mkSplit
      (autoOps acc
       ++ List.filter (fun op => match classify op with Auto => true | _ => false end) ops)
      (reviewOps acc
       ++ List.filter (fun op => match classify op with Review => true | _ => false end) ops).
Proof.
  revert acc.
  induction ops as [|op rest IH]; intros acc; simpl.
  - rewrite !app_nil_r. destruct acc; reflexivity.
  - destruct (classify op); rewrite IH; simpl; rewrite <- ?app_assoc; reflexivity.
Qed.

(** A key of the allowlist is neither a date nor [subtasks]. *)
Lemma allowlisted_keys_not_dates (ks : list string) :
  forallb (fun k => includesKey k safeFieldsAllow) ks = true ->
  existsb (fun k => includesKey k ["start_date"; "due_date"; "subtasks"]) ks = false.
Proof.
  induction ks as [|k rest IH]; intros H; [reflexivity|].
  cbn [forallb] in H. apply andb_prop in H as [Hk Hrest].
  cbn [existsb]. rewrite (IH Hrest), orb_false_r.
  unfold includesKey in *.
  destruct (existsb (String.eqb k) ["start_date"; "due_date"; "subtasks"]) eqn:E;
    [|reflexivity].
  apply existsb_exists in E as (s & Hs & Heq). apply String.eqb_eq in Heq. subst s.
  destruct Hs as [<- | [<- | [<- | []]]]; vm_compute in Hk; discriminate.
Qed.

(** On a non-null object the loop's decision is the net predicate. *)
Lemma classify_object (op : jsval) :
  isObjectLike op = true ->
  classify op = if autoEligible op then Auto else Review.
Proof.
  unfold isObjectLike, classify, autoEligible, fieldKeys, isTempId.
  intros H. apply andb_prop in H as [Ht Ho].
  rewrite Ht, Ho. cbn [negb orb].
  destruct (isStr "update" (getField op "op")); cbn [negb andb]; [|reflexivity].
  destruct (getField op "id") as [| | | |id| |]; try reflexivity.
  destruct (startsWith "temp_" id); cbn [negb andb]; [reflexivity|].
  set (ks := keys (jsOr (getField op "fields") (VObj []))).
  destruct (forallb (fun k => includesKey k safeFieldsAllow) ks) eqn:Hall;
    cbn [negb andb].
  - pose proof (allowlisted_keys_not_dates ks Hall) as Hno.
    rewrite Hno. cbn [negb].
    assert (includesKey "start_date" ks || includesKey "due_date" ks
            || includesKey "subtasks" ks = false) as ->; [|reflexivity].
    clear -Hno. induction ks as [|k rest IH]; [reflexivity|].
    cbn [existsb] in Hno. apply orb_false_iff in Hno as [Hk Hrest].
    specialize (IH Hrest).
    apply orb_false_iff in IH as [IH Hc]. apply orb_false_iff in IH as [Ha Hb].
    unfold includesKey in *. cbn [existsb] in *.
    rewrite Ha, Hb, Hc, !orb_false_r.
    rewrite (String.eqb_sym "start_date"), (String.eqb_sym "due_date"),
      (String.eqb_sym "subtasks").
    rewrite !orb_false_r in Hk.
    apply orb_false_iff in Hk as [H1 Hk]. apply orb_false_iff in Hk as [H2 H3].
    rewrite H1, H2, H3. reflexivity.
  - destruct (includesKey "start_date" ks || includesKey "due_date" ks
              || includesKey "subtasks" ks); reflexivity.
Qed.

End Classifier.

(** C2: on a list of ops (non-null objects, the only elements the validator
    lets through), [splitAiOpsForAutoApply] puts into [autoOps] exactly the
    ops that are updates with a string id without the temporary prefix and
    with every field key in the allowlist (so none of [start_date],
    [due_date], [subtasks]); it puts every other op into [reviewOps]; each
    bucket keeps the order of the input. *)
Theorem classifier_partitions (payload : jsval) (ops : list jsval) :
  getField payload "ops" = VArr ops ->
  Forall (fun op => isObjectLike op = true) ops ->
  autoOps (splitAiOpsForAutoApply payload) = List.filter autoEligible ops
  /\ reviewOps (splitAiOpsForAutoApply payload)
     = List.filter (fun op => negb (autoEligible op)) ops
  /\ (forall op, In op ops ->
        (In op (autoOps (splitAiOpsForAutoApply payload)) <-> autoEligible op = true)
        /\ (In op (reviewOps (splitAiOpsForAutoApply payload)) <-> autoEligible op = false))
  /\ (forall op, autoEligible op = true ->
        isStr "update" (getField op "op") = true
        /\ (exists id, getField op "id" = VStr id /\ isTempId id = false)
        /\ (forall k, In k (fieldKeys op) ->
              In k safeFieldsAllow
              /\ k <> "start_date" /\ k <> "due_date" /\ k <> "subtasks")).
Proof.
  intros Hops Hobj.
  unfold splitAiOpsForAutoApply. rewrite Hops. simpl arrayOrEmpty.
  rewrite splitLoop_filter. simpl.
  assert (List.filter (fun op => match classify op with Auto => true | _ => false end) ops
          = List.filter autoEligible ops) as Ha.
  { apply filter_ext_in. intros op Hin.
    rewrite (classify_object op (proj1 (List.Forall_forall _ ops) Hobj op Hin)).
    destruct (autoEligible op); reflexivity. }
  assert (List.filter (fun op => match classify op with Review => true | _ => false end) ops
          = List.filter (fun op => negb (autoEligible op)) ops) as Hr.
  { apply filter_ext_in. intros op Hin.
    rewrite (classify_object op (proj1 (List.Forall_forall _ ops) Hobj op Hin)).
    destruct (autoEligible op); reflexivity. }
  rewrite Ha, Hr.
  split; [reflexivity|]. split; [reflexivity|]. split.
  - intros op Hin. split; rewrite filter_In.
    + split; [intros [_ H]; exact H | intros H; split; assumption].
    + split; [intros [_ H]; apply negb_true_iff in H; exact H
             | intros H; split; [assumption | rewrite H; reflexivity]].
  - intros op Hop. unfold autoEligible in Hop.
    apply andb_prop in Hop as [Hop Hdates]. apply andb_prop in Hop as [Hop Hkeys].
    apply andb_prop in Hop as [Hupd Hid].
    split; [exact Hupd|]. split.
    + destruct (getField op "id") as [| | | |id| |]; try discriminate.
      exists id. split; [reflexivity|]. apply negb_true_iff in Hid. exact Hid.
    + intros k Hk.
      rewrite forallb_forall in Hkeys. specialize (Hkeys k Hk).
      apply negb_true_iff in Hdates.
      assert (includesKey k ["start_date"; "due_date"; "subtasks"] = false) as Hkd.
      { destruct (includesKey k ["start_date"; "due_date"; "subtasks"]) eqn:E;
          [|reflexivity].
        assert (existsb (fun k => includesKey k ["start_date"; "due_date"; "subtasks"])
                        (fieldKeys op) = true) as Hex
          by (apply existsb_exists; exists k; split; assumption).
        rewrite Hex in Hdates. discriminate. }
      split.
      * unfold includesKey in Hkeys. apply existsb_exists in Hkeys as (a & Ha' & Heq).
        apply String.eqb_eq in Heq. subst a. exact Ha'.
      * unfold includesKey in Hkd. simpl in Hkd.
        rewrite !orb_false_r in Hkd.
        apply orb_false_iff in Hkd as [H1 Hkd]. apply orb_false_iff in Hkd as [H2 H3].
        apply String.eqb_neq in H1, H2, H3. auto.
Qed.

Lemma classifier_partitions_witness :
  autoOps (splitAiOpsForAutoApply (VObj [("ops", VArr mixedOps)]))
  = [ VObj [("op", VStr "update"); ("id", VStr "t1"); ("fields", VObj [("title", VStr "A")])];
      VObj [("op", VStr "update"); ("id", VStr "t3"); ("fields", VObj [("priority", VNum 1)])] ]
  /\ reviewOps (splitAiOpsForAutoApply (VObj [("ops", VArr mixedOps)]))
     = [ VObj [("op", VStr "delete"); ("id", VStr "t2")];
         VObj [("op", VStr "update"); ("id", VStr "t4");
               ("fields", VObj [("color", VStr "red")])];
         VObj [("op", VStr "add"); ("id", VStr "temp_x");
               ("fields", VObj [("title", VStr "N")])] ].
Proof.
  destruct (classifier_partitions (VObj [("ops", VArr mixedOps)]) mixedOps)
    as (Ha & Hr & _).
  - reflexivity.
  - repeat constructor.
  - rewrite Ha, Hr. vm_compute. split; reflexivity.
Defined.

Example classifier_scenario_C :
  splitAiOpsForAutoApply scenarioC
  = mkSplit [] (arrayOrEmpty (getField scenarioC "ops")).
Proof. vm_compute. reflexivity. Qed.

Example classifier_scenario_D :
  splitAiOpsForAutoApply scenarioD
  = mkSplit [] (arrayOrEmpty (getField scenarioD "ops")).
Proof. vm_compute. reflexivity. Qed.

(** An element that is not an object is skipped by the loop's first guard;
    [validatePayload] rejects a payload that has one. *)
Example classifier_skips_non_objects :
  splitAiOpsForAutoApply (VObj [("ops", VArr [VNull; VStr "update"; VNum 3])])
  = mkSplit [] []
  /\ validatePayload (VObj [("ops", VArr [VNull; VStr "update"; VNum 3])])
     = Invalid "Bad op object".
Proof. vm_compute. split; reflexivity. Qed.

(** ** Payload validator and the refine flow *)

Section Validator.

Lemma isObjectLike_nonNull (v : jsval) : isObjectLike v = isNonNullObject v.
Proof. destruct v as [| |b|n|s|xs|o]; try reflexivity; [destruct b | | destruct s]; try reflexivity.
  unfold isObjectLike; simpl. rewrite andb_false_r. reflexivity.
Qed.

Lemma allowed_knownKind (v : jsval) : hasValue allowedKinds v = knownKind v.
Proof.
  destruct v as [| |b|n|s|xs|o]; try reflexivity.
  unfold hasValue, allowedKinds, knownKind, fiveKinds. cbn [existsb sameValueZero].
  rewrite (String.eqb_sym "add"), (String.eqb_sym "update"), (String.eqb_sym "complete"),
    (String.eqb_sym "undo_complete"), (String.eqb_sym "delete").
  reflexivity.
Qed.

Lemma string_id_check (v : jsval) :
  negb (truthy v) || negb (String.eqb (typeof v) "string") = negb (nonEmptyString v).
Proof.
  destruct v as [| |b|n|s|xs|o]; try reflexivity.
  - destruct b; reflexivity.
  - simpl. destruct (n =? 0); reflexivity.
  - simpl. rewrite orb_false_r. reflexivity.
Qed.

(** The loop body of [validatePayload] reports the first check of the
    specified order that the op fails. *)
Lemma checkOp_refines (op : jsval) :
  checkOp op = option_map errorText (opViolation op).
Proof.
  unfold checkOp, opViolation.
  rewrite <- negb_andb. fold (isObjectLike op). rewrite isObjectLike_nonNull.
  destruct (isNonNullObject op); [|reflexivity]. cbn [negb].
  rewrite allowed_knownKind.
  destruct (knownKind (getField op "op")) eqn:Hk; [|reflexivity]. cbn [negb].
  rewrite string_id_check.
  destruct (nonEmptyString (getField op "id")); [|reflexivity]. cbn [negb].
  rewrite <- negb_andb. fold (isObjectLike (getField op "fields")).
  rewrite isObjectLike_nonNull.
  assert (isStr "add" (getField op "op") || isStr "update" (getField op "op")
          = needsFields (getField op "op")) as ->
    by (destruct (getField op "op"); reflexivity).
  destruct (needsFields (getField op "op") && negb (isNonNullObject (getField op "fields")));
    reflexivity.
Qed.

Lemma checkOps_refines (ops : list jsval) :
  checkOps ops = match firstOpViolation ops with
                 | Some v => Invalid (errorText v)
                 | None => Valid
                 end.
Proof.
  induction ops as [|op rest IH]; [reflexivity|].
  cbn [checkOps firstOpViolation]. rewrite checkOp_refines.
  destruct (opViolation op); [reflexivity | exact IH].
Qed.

(** [validatePayload] reports exactly the first violation. *)
Lemma validatePayload_refines (payload : jsval) :
  validatePayload payload = match firstViolation payload with
                            | Some v => Invalid (errorText v)
                            | None => Valid
                            end.
Proof.
  unfold validatePayload, firstViolation.
  rewrite <- negb_andb. fold (isObjectLike payload). rewrite isObjectLike_nonNull.
  destruct (isNonNullObject payload); [|reflexivity]. cbn [negb].
  destruct (getField payload "ops"); try reflexivity.
  apply checkOps_refines.
Qed.

Lemma firstOpViolation_complete (ops : list jsval) (op : jsval) :
  In op ops -> opViolation op <> None -> firstOpViolation ops <> None.
Proof.
  induction ops as [|o rest IH]; intros Hin Hv; [contradiction|].
  cbn [firstOpViolation].
  destruct (opViolation o) eqn:Eo; [discriminate|].
  destruct Hin as [-> | Hin]; [contradiction | exact (IH Hin Hv)].
Qed.

Lemma violates_firstViolation (payload : jsval) :
  violates payload -> exists v, firstViolation payload = Some v.
Proof.
  intros H.
  destruct (firstViolation payload) as [v|] eqn:E; [eauto|]. exfalso.
  unfold firstViolation in E.
  destruct H as [H | [H | (ops & op & Hops & Hin & H)]].
  - rewrite H in E. discriminate.
  - destruct (isNonNullObject payload); [|discriminate]. cbn [negb] in E.
    destruct (getField payload "ops"); try discriminate.
  - destruct (isNonNullObject payload); [|discriminate]. cbn [negb] in E.
    rewrite Hops in E. revert E. apply (firstOpViolation_complete ops op Hin).
    unfold opViolation.
    destruct H as [H | [H | [H | [H1 H2]]]].
    + rewrite H. discriminate.
    + destruct (isNonNullObject op); [|discriminate]. rewrite H. discriminate.
    + destruct (isNonNullObject op); [|discriminate].
      destruct (knownKind (getField op "op")); [|discriminate]. rewrite H. discriminate.
    + destruct (isNonNullObject op); [|discriminate].
      destruct (knownKind (getField op "op")); [|discriminate].
      destruct (nonEmptyString (getField op "id")); [|discriminate].
      rewrite H1, H2. discriminate.
Qed.

Variable parse : string -> option jsval.

(** When [runOps] throws, [aiRefineTaskById] leaves the whole state as it
    found it. *)
Lemma refine_unchanged_on_throw (enabled : bool) (id : jsval) (response : outcome string)
      (e : string) (st : State) :
  runOps parse enabled response = Throw e ->
  snd (aiRefineTaskById parse enabled id response st) = st.
Proof.
  intros Hrun. unfold aiRefineTaskById.
  destruct enabled; [|reflexivity]. cbn [negb].
  unfold bind, getMerged, getOverlays.
  destruct (findById id (mergedTasks (merged st))) as [t|].
  - destruct (truthy t).
    + unfold ret, catching, bind, lift. rewrite Hrun. reflexivity.
    + unfold lift. destruct (findNewTask id (new_tasks (overlays st))) as [[x|]|]; try reflexivity.
      unfold catching, bind, lift. rewrite Hrun. reflexivity.
  - unfold lift. destruct (findNewTask id (new_tasks (overlays st))) as [[x|]|]; try reflexivity.
    unfold catching, bind, lift. rewrite Hrun. reflexivity.
Qed.

End Validator.

(** C3: a payload that violates a structural check is rejected as a whole.
    [validatePayload] reports the first violation in the order payload,
    [ops], then each op's object, kind, id and fields; [runOps] throws; and
    the refine flow that asked for the payload leaves the state, so the
    overlay, exactly as it was: no op of the payload is applied. *)
Theorem invalid_payload_rejected (parse : string -> option jsval) (st : State)
        (id : jsval) (txt : string) :
  violates (tryParseJsonFromText parse txt) ->
  (exists v, firstViolation (tryParseJsonFromText parse txt) = Some v
             /\ validatePayload (tryParseJsonFromText parse txt) = Invalid (errorText v))
  /\ (exists e, runOps parse true (Ret txt) = Throw e)
  /\ snd (aiRefineTaskById parse true id (Ret txt) st) = st
  /\ overlays (snd (aiRefineTaskById parse true id (Ret txt) st)) = overlays st.
Proof.
  intros Hv.
  destruct (violates_firstViolation _ Hv) as (v & Hfirst).
  pose proof (validatePayload_refines (tryParseJsonFromText parse txt)) as Hval.
  rewrite Hfirst in Hval.
  assert (exists e, runOps parse true (Ret txt) = Throw e) as (e & He).
  { unfold runOps. cbn [negb].
    destruct (truthy (tryParseJsonFromText parse txt)); cbn [negb]; [|eauto].
    rewrite Hval. eauto. }
  split; [exists v; split; assumption|].
  split; [exists e; exact He|].
  pose proof (refine_unchanged_on_throw parse true id (Ret txt) e st He) as Hst.
  split; [exact Hst | rewrite Hst; reflexivity].
Qed.

Lemma invalid_payload_rejected_witness :
  validatePayload (tryParseJsonFromText JSON_parse badKindResponse)
  = Invalid "Unsupported op: rename"
  /\ overlays (snd (aiRefineTaskById JSON_parse true (VStr "t1") (Ret badKindResponse)
                      (bootState steadyWorld oneTaskBase freshOverlays)))
     = freshOverlays.
Proof.
  destruct (invalid_payload_rejected JSON_parse
              (bootState steadyWorld oneTaskBase freshOverlays) (VStr "t1") badKindResponse)
    as ((v & Hfirst & Hval) & _ & _ & Hov).
  - right; right.
    exists [VObj [("op", VStr "update"); ("id", VStr "t1");
                  ("fields", VObj [("title", VStr "X")])];
            VObj [("op", VStr "rename"); ("id", VStr "t1")]],
           (VObj [("op", VStr "rename"); ("id", VStr "t1")]).
    split; [vm_compute; reflexivity|].
    split; [right; left; reflexivity|].
    right; left. vm_compute. reflexivity.
  - split; [|exact Hov].
    rewrite Hval. f_equal.
    assert (Some v = Some (UnsupportedOp (VStr "rename"))) as Heq
      by (rewrite <- Hfirst; vm_compute; reflexivity).
    injection Heq as ->. reflexivity.
Defined.

(** ** Overlay store *)

Section LoadOverlays.

Variable parse : string -> option jsval.

(** [loadOverlays] always returns, and the five top-level fields it guards
    have the shape of the default scaffold whatever was persisted. *)
Lemma loadOverlays_top_level (raw : option string) (now : string) :
  let o := loadOverlays parse raw now in
  isPlainObject o = true
  /\ isArray (getField o "deletions") = true
  /\ isArray (getField o "new_tasks") = true
  /\ isObjectLike (getField o "task_overrides") = true
  /\ isObjectLike (getField o "recurrence_overrides") = true
  /\ isPlainObject (getField o "learning") = true.
Proof.
  unfold loadOverlays.
  destruct raw as [text|]; [|vm_compute; tauto].
  destruct (String.eqb text ""); [vm_compute; tauto|].
  destruct (parse text) as [obj|]; [|vm_compute; tauto].
  destruct (nullish obj); [vm_compute; tauto|].
  cbv zeta. split; [reflexivity|].
  rewrite !getField_setProp. cbn [String.eqb Ascii.eqb Bool.eqb].
  repeat split.
  - destruct (isArray (getField obj "deletions")) eqn:E; [exact E | reflexivity].
  - destruct (isArray (getField obj "new_tasks")) eqn:E; [exact E | reflexivity].
  - destruct (isObjectLike (getField obj "task_overrides")) eqn:E; [exact E | reflexivity].
  - destruct (isObjectLike (getField obj "recurrence_overrides")) eqn:E;
      [exact E | reflexivity].
  - destruct (isObjectLike (getField obj "learning")); reflexivity.
Qed.

End LoadOverlays.

(** The example of the specification: a valid [deletions] array next to a
    [learning] value that is not an object.  The loader keeps the first and
    replaces the second by the default. *)
Example load_defaults_corrupt_learning (now : string) :
  getField (loadOverlays JSON_parse (Some corruptLearningTopRaw) now) "deletions"
  = VArr [VStr "t1"]
  /\ getField (loadOverlays JSON_parse (Some corruptLearningTopRaw) now) "learning"
     = defaultLearningValue
  /\ structurallyComplete (loadOverlays JSON_parse (Some corruptLearningTopRaw) now) = true.
Proof. vm_compute. repeat split. Qed.

(** C4 (the code departs from it): for the persisted text
    [{"deletions":["t1"],"learning":{"completion_log":"oops","stats":5}}]
    the loader returns the valid [deletions], but inside [learning] it keeps
    the string under [completion_log] and the number under [stats] instead
    of the defaults; only the missing [move_log] is defaulted.  The overlay
    it returns is not structurally complete. *)
Theorem load_keeps_corrupt_learning_fields (now : string) :
  getField (loadOverlays JSON_parse (Some corruptLearningRaw) now) "deletions"
  = VArr [VStr "t1"]
  /\ getField (getField (loadOverlays JSON_parse (Some corruptLearningRaw) now) "learning")
              "completion_log" = VStr "oops"
  /\ getField (getField (loadOverlays JSON_parse (Some corruptLearningRaw) now) "learning")
              "stats" = VNum 5
  /\ getField (getField (loadOverlays JSON_parse (Some corruptLearningRaw) now) "learning")
              "move_log" = VArr []
  /\ getField defaultLearningValue "completion_log" = VArr []
  /\ structurallyComplete (loadOverlays JSON_parse (Some corruptLearningRaw) now) = false.
Proof. vm_compute. repeat split. Qed.

(** ** Extracting the payload from the completion service's text *)

Section Extraction.

Lemma fromFirst_spec (c : ascii) (s t : string) :
  fromFirst c s = Some t ->
  exists pre rest, s = pre +:+ t /\ occurs c pre = false /\ t = String c rest.
Proof.
  revert t. induction s as [|a s IH]; intros t H; simpl in H; [discriminate|].
  destruct (Ascii.eqb a c) eqn:E.
  - injection H as <-. apply Ascii.eqb_eq in E. subst a.
    exists EmptyString, s. repeat split.
  - destruct (IH t H) as (pre & rest & -> & Hpre & ->).
    exists (String a pre), rest. repeat split.
    simpl. rewrite E, Hpre. reflexivity.
Qed.

Lemma fromFirst_none (c : ascii) (s : string) :
  fromFirst c s = None -> occurs c s = false.
Proof.
  induction s as [|a s IH]; intros H; simpl in *; [reflexivity|].
  destruct (Ascii.eqb a c); [discriminate|]. exact (IH H).
Qed.

Lemma throughLast_spec (c : ascii) (s k : string) :
  throughLast c s = Some k ->
  exists post, s = k +:+ post /\ occurs c post = false /\ endsWithChar c k = true.
Proof.
  revert k. induction s as [|a s IH]; intros k H; simpl in H; [discriminate|].
  destruct (throughLast c s) as [kept|] eqn:Ek.
  - injection H as <-. destruct (IH kept eq_refl) as (post & -> & Hpost & Hend).
    exists post. repeat split; [exact Hpost|].
    unfold endsWithChar in *. destruct kept as [|b kept']; [discriminate Hend|].
    exact Hend.
  - destruct (Ascii.eqb a c) eqn:E; [|discriminate].
    injection H as <-. exists s. repeat split.
    + clear -Ek. induction s as [|b s IH]; [reflexivity|]. simpl in *.
      destruct (throughLast c s); [discriminate|].
      destruct (Ascii.eqb b c); [discriminate|]. exact (IH eq_refl).
    + unfold endsWithChar. simpl. apply Ascii.eqb_eq in E. subst a.
      apply Ascii.eqb_refl.
Qed.

Lemma throughLast_none (c : ascii) (s : string) :
  throughLast c s = None -> occurs c s = false.
Proof.
  induction s as [|a s IH]; intros H; simpl in *; [reflexivity|].
  destruct (throughLast c s); [discriminate|].
  destruct (Ascii.eqb a c); [discriminate|]. exact (IH eq_refl).
Qed.

(** The match of [/\{[\s\S]*\}/] is the stretch of the text from its first
    opening brace to its last closing brace. *)
Lemma matchBraces_spec (txt m : string) :
  matchBraces txt = Some m ->
  exists pre post,
    txt = pre +:+ m +:+ post
    /\ occurs "{" pre = false
    /\ occurs "}" post = false
    /\ startsWith "{" m = true
    /\ endsWithChar "}" m = true.
Proof.
  unfold matchBraces. intros H.
  destruct (fromFirst "{" txt) as [t|] eqn:Ef; [|discriminate].
  destruct (fromFirst_spec _ _ _ Ef) as (pre & rest & -> & Hpre & ->).
  destruct (throughLast "}" rest) as [kept|] eqn:Et; [|discriminate].
  injection H as <-.
  destruct (throughLast_spec _ _ _ Et) as (post & -> & Hpost & Hend).
  exists pre, post.
  split; [reflexivity|]. split; [exact Hpre|]. split; [exact Hpost|]. split.
  - unfold startsWith. simpl. destruct kept; reflexivity.
  - unfold endsWithChar in *. simpl.
    destruct kept as [|b kept']; [discriminate Hend | exact Hend].
Qed.

(** There is no match exactly when no closing brace follows the first
    opening brace. *)
Lemma matchBraces_none (txt : string) :
  matchBraces txt = None ->
  occurs "{" txt = false
  \/ exists pre rest, txt = pre +:+ String "{" rest
                      /\ occurs "{" pre = false /\ occurs "}" rest = false.
Proof.
  unfold matchBraces. intros H.
  destruct (fromFirst "{" txt) as [t|] eqn:Ef; [|left; exact (fromFirst_none _ _ Ef)].
  destruct (fromFirst_spec _ _ _ Ef) as (pre & rest & -> & Hpre & ->).
  destruct (throughLast "}" rest) as [kept|] eqn:Et; [discriminate|].
  right. exists pre, rest. repeat split; [exact Hpre | exact (throughLast_none _ _ Et)].
Qed.

End Extraction.

Example extraction_tolerates_wrapping :
  tryParseJsonFromText JSON_parse wrappedResponse
  = VObj [("summary", VStr "ok"); ("ops", VArr [])].
Proof. vm_compute. reflexivity. Qed.

(** C9, as stated, fails: in a response with a second pair of braces after
    the payload, the first balanced object is the payload and it parses,
    but the extractor hands [JSON.parse] the text up to the last closing
    brace and returns [null]. *)
Lemma extraction_counterexample :
  tryParseJsonFromText JSON_parse twoObjectsResponse
  <> extractFirstBalanced JSON_parse twoObjectsResponse
  /\ firstBalanced twoObjectsResponse = Some (jsonText "{'summary':'ok','ops':[]}")
  /\ extractFirstBalanced JSON_parse twoObjectsResponse
     = VObj [("summary", VStr "ok"); ("ops", VArr [])]
  /\ matchBraces twoObjectsResponse
     = Some (jsonText "{'summary':'ok','ops':[]} Note: keep {braces}")
  /\ tryParseJsonFromText JSON_parse twoObjectsResponse = VNull.
Proof. vm_compute. repeat split. discriminate. Qed.

(** C9 (amended): the extractor returns the parse of the whole trimmed text
    when that text starts with an opening brace, ends with a closing brace
    and parses; otherwise the parse of the stretch from the first opening
    brace of the text to its last closing brace; and [null] when there is
    no such stretch or it does not parse. *)
Theorem extraction_first_to_last_brace (parse : string -> option jsval) (txt : string) :
  tryParseJsonFromText parse txt
  = match (if startsWith "{" (trim txt) && endsWithChar "}" (trim txt)
           then parse (trim txt) else None),
          matchBraces txt with
    | Some v, _ => v
    | None, Some m => match parse m with Some v => v | None => VNull end
    | None, None => VNull
    end
  /\ (forall m, matchBraces txt = Some m ->
        exists pre post,
          txt = pre +:+ m +:+ post
          /\ occurs "{" pre = false /\ occurs "}" post = false
          /\ startsWith "{" m = true /\ endsWithChar "}" m = true)
  /\ (matchBraces txt = None ->
        occurs "{" txt = false
        \/ exists pre rest, txt = pre +:+ String "{" rest
                            /\ occurs "{" pre = false /\ occurs "}" rest = false).
Proof.
  split; [|split].
  - unfold tryParseJsonFromText.
    destruct (if startsWith "{" (trim txt) && endsWithChar "}" (trim txt)
              then parse (trim txt) else None); [reflexivity|].
    destruct (matchBraces txt); reflexivity.
  - apply matchBraces_spec.
  - apply matchBraces_none.
Qed.

(** ** Audit log *)

Section SliceLast.

Context {A : Type}.

Lemma sliceLast_length (n : nat) (l : list A) :
  (length (sliceLast n l) <= n)%nat.
Proof. unfold sliceLast. rewrite List.length_skipn. lia. Qed.

Lemma sliceLast_length_full (n : nat) (l : list A) :
  (n <= length l)%nat -> length (sliceLast n l) = n.
Proof. intros H. unfold sliceLast. rewrite List.length_skipn. lia. Qed.

Lemma sliceLast_short (n : nat) (l : list A) :
  (length l <= n)%nat -> sliceLast n l = l.
Proof.
  intros H. unfold sliceLast.
  replace (length l - n)%nat with 0%nat by lia. reflexivity.
Qed.

(** Trimming after every append keeps what one trim at the end keeps. *)
Lemma sliceLast_app_sliceLast (n : nat) (l b : list A) :
  sliceLast n (sliceLast n l ++ b) = sliceLast n (l ++ b).
Proof.
  unfold sliceLast.
  rewrite !List.length_app, List.length_skipn, !List.skipn_app, List.skipn_skipn,
    List.length_skipn.
  f_equal; f_equal; lia.
Qed.

(** When at least [n] entries were appended, only appended entries remain. *)
Lemma sliceLast_app_long (n : nat) (l b : list A) :
  (n <= length b)%nat -> sliceLast n (l ++ b) = sliceLast n b.
Proof.
  intros H. unfold sliceLast.
  rewrite List.length_app, List.skipn_app.
  rewrite (List.skipn_all2 l) by lia.
  simpl. f_equal. lia.
Qed.

End SliceLast.

(** ** Running the mutators: one rule per primitive *)

Section Runs.

Lemma returns_ret {A : Type} (a : A) (st : State) (Q : A -> State -> Prop) :
  Q a st -> returns (ret a) st Q.
Proof. intros H. exists a, st. split; [reflexivity | exact H]. Qed.

Lemma returns_bind {A B : Type} (m : M A) (k : A -> M B) (st : State)
      (Q : B -> State -> Prop) :
  returns m st (fun a st1 => returns (k a) st1 Q) -> returns (bind m k) st Q.
Proof.
  intros (a & st1 & Hm & (b & st2 & Hk & HQ)).
  exists b, st2. split; [|exact HQ]. unfold bind. rewrite Hm. exact Hk.
Qed.

Lemma returns_weaken {A : Type} (m : M A) (st : State) (Q Q' : A -> State -> Prop) :
  returns m st Q -> (forall a st', Q a st' -> Q' a st') -> returns m st Q'.
Proof. intros (a & st' & Hm & HQ) H. exists a, st'. split; [exact Hm | exact (H _ _ HQ)]. Qed.

Lemma returns_modify (f : Overlays -> Overlays) (st : State) (Q : unit -> State -> Prop) :
  Q tt (setOverlays (f (overlays st)) st) -> returns (modifyOverlays f) st Q.
Proof. intros H. eexists _, _. split; [reflexivity | exact H]. Qed.

Lemma returns_now (st : State) (Q : string -> State -> Prop) :
  Q (isoAt (world st) (reads st)) (tick st) -> returns nowISO st Q.
Proof. intros H. eexists _, _. split; [reflexivity | exact H]. Qed.

Lemma returns_today (st : State) (Q : string -> State -> Prop) :
  Q (todayAt (world st) (reads st)) (tick st) -> returns todayLocalISO st Q.
Proof. intros H. eexists _, _. split; [reflexivity | exact H]. Qed.

Lemma returns_getOverlays (st : State) (Q : Overlays -> State -> Prop) :
  Q (overlays st) st -> returns getOverlays st Q.
Proof. intros H. eexists _, _. split; [reflexivity | exact H]. Qed.

Lemma returns_getMerged (st : State) (Q : option MergedView -> State -> Prop) :
  Q (merged st) st -> returns getMerged st Q.
Proof. intros H. eexists _, _. split; [reflexivity | exact H]. Qed.

Lemma returns_persist (st : State) (Q : unit -> State -> Prop) :
  Q tt (mkState (world st) (reads st) (base st) (overlays st) (merged st)
                (pendingAiPayload st) (Some (overlays st))) ->
  returns persist st Q.
Proof. intros H. eexists _, _. split; [reflexivity | exact H]. Qed.

Lemma returns_remerge (st : State) (Q : unit -> State -> Prop) :
  Q tt (mkState (world st) (reads st) (base st) (overlays st)
                (Some (mergeData (base st) (overlays st)))
                (pendingAiPayload st) (stored st)) ->
  returns remerge st Q.
Proof. intros H. eexists _, _. split; [reflexivity | exact H]. Qed.

Lemma returns_when (b : bool) (m : M unit) (st : State) (Q : unit -> State -> Prop) :
  (if b then returns m st Q else Q tt st) -> returns (when b m) st Q.
Proof. destruct b; [trivial | apply returns_ret]. Qed.

Lemma returns_ensurePatch (id : jsval) (st : State) (Q : obj -> State -> Prop) :
  (forall p, task_overrides (overlays st) !! toPropertyKey id = Some p -> Q p st) ->
  (task_overrides (overlays st) !! toPropertyKey id = None ->
   Q [] (setOverlays (withOverrides (insert (toPropertyKey id) []) (overlays st)) st)) ->
  returns (ensurePatch id) st Q.
Proof.
  intros Hsome Hnone. unfold ensurePatch.
  apply returns_bind, returns_getOverlays.
  destruct (task_overrides (overlays st) !! toPropertyKey id) as [p|] eqn:E.
  - apply returns_ret. exact (Hsome p eq_refl).
  - apply returns_bind, returns_modify, returns_ret. exact (Hnone eq_refl).
Qed.

End Runs.

(** Projections of the state after a step, computed away. *)
Ltac flat :=
  cbn [world reads base overlays merged pendingAiPayload stored setOverlays tick
       version updated_at deletions task_overrides new_tasks recurrence_overrides learning
       withUpdatedAt withDeletions withOverrides withNewTasks withLearning
       completion_log move_log stats_moves stats_completes].

Ltac step :=
  first [ apply returns_bind
        | apply returns_ret
        | apply returns_modify
        | apply returns_now
        | apply returns_today
        | apply returns_getOverlays
        | apply returns_getMerged
        | apply returns_persist
        | apply returns_remerge
        | apply returns_when ]; flat.

Section CompletionLog.

Lemma applyComplete_log (o : jsval) (st : State) :
  returns (applyComplete o) st (fun _ st' =>
    world st' = world st
    /\ reads st' = S (S (reads st))
    /\ learning (overlays st')
       = mkLearning
           (sliceLast 400
              (completion_log (learning (overlays st))
               ++ [VObj [("id", getField o "id"); ("completed", VBool true);
                         ("at", VStr (isoAt (world st) (S (reads st))))]]))
           (move_log (learning (overlays st)))
           (stats_moves (learning (overlays st)))
           (stats_completes (learning (overlays st)) + 1)).
Proof.
  unfold applyComplete, writePatch, logComplete.
  apply returns_bind, returns_ensurePatch; intros; flat; repeat step; auto.
Qed.

Lemma applyUndoComplete_log (o : jsval) (st : State) :
  returns (applyUndoComplete o) st (fun _ st' =>
    world st' = world st
    /\ reads st' = S (reads st)
    /\ learning (overlays st')
       = mkLearning
           (sliceLast 400
              (completion_log (learning (overlays st))
               ++ [VObj [("id", getField o "id"); ("completed", VBool false);
                         ("at", VStr (isoAt (world st) (reads st)))]]))
           (move_log (learning (overlays st)))
           (stats_moves (learning (overlays st)))
           (stats_completes (learning (overlays st)) + 1)).
Proof.
  unfold applyUndoComplete, writePatch, logComplete.
  apply returns_bind, returns_ensurePatch; intros; flat; repeat step; auto.
Qed.

(** One completion op appends its entry, trims the log, counts once. *)
Lemma applyOp_completion (o : jsval) (st : State) :
  isCompletionOp o = true ->
  returns (applyOp o) st (fun _ st' =>
    world st' = world st
    /\ reads st'
       = (if isStr "complete" (getField o "op") then S (S (reads st)) else S (reads st))
    /\ learning (overlays st')
       = mkLearning
           (sliceLast 400
              (completion_log (learning (overlays st))
               ++ completionEntries (world st) (reads st) [o]))
           (move_log (learning (overlays st)))
           (stats_moves (learning (overlays st)))
           (stats_completes (learning (overlays st)) + 1)).
Proof.
  unfold isCompletionOp. intros H.
  destruct o as [| | | | | |props]; try discriminate H.
  unfold applyOp. cbn [nullish completionEntries].
  destruct (getField (VObj props) "op") as [| | | |s| |] eqn:Eop; try discriminate H.
  cbn [isStr] in *.
  apply orb_prop in H as [H | H]; apply String.eqb_eq in H; subst s;
    cbn [String.eqb Ascii.eqb Bool.eqb when].
  - apply returns_bind, returns_ret, returns_bind, returns_ret, returns_bind.
    apply (returns_weaken _ _ _ _ (applyComplete_log (VObj props) st)).
    intros _ st' (Hw & Hr & Hl). repeat step. auto.
  - apply returns_bind, returns_ret, returns_bind, returns_ret, returns_bind, returns_ret.
    apply returns_bind.
    apply (returns_weaken _ _ _ _ (applyUndoComplete_log (VObj props) st)).
    intros _ st' (Hw & Hr & Hl). repeat step. auto.
Qed.

Lemma completionEntries_length (w : World) (ops : list jsval) :
  forall n, length (completionEntries w n ops) = length ops.
Proof.
  induction ops as [|o rest IH]; intros n; [reflexivity|].
  cbn [completionEntries]. destruct (isStr "complete" (getField o "op"));
    cbn [length]; rewrite IH; reflexivity.
Qed.

(** The loop of [applyOpsArray] over completion ops. *)
Lemma forEach_completion (ops : list jsval) :
  forall st,
    Forall (fun o => isCompletionOp o = true) ops ->
    returns (forEach applyOp ops) st (fun _ st' =>
      world st' = world st
      /\ learning (overlays st')
         = match ops with
           | [] => learning (overlays st)
           | _ :: _ =>
               mkLearning
                 (sliceLast 400
                    (completion_log (learning (overlays st))
                     ++ completionEntries (world st) (reads st) ops))
                 (move_log (learning (overlays st)))
                 (stats_moves (learning (overlays st)))
                 (stats_completes (learning (overlays st)) + Z.of_nat (length ops))
           end).
Proof.
  induction ops as [|o rest IH]; intros st Hall.
  - apply returns_ret. auto.
  - inversion Hall as [|? ? Ho Hrest]; subst.
    cbn [forEach]. apply returns_bind.
    apply (returns_weaken _ _ _ _ (applyOp_completion o st Ho)).
    intros _ st1 (Hw & Hr & Hl).
    apply (returns_weaken _ _ _ _ (IH st1 Hrest)).
    intros _ st2 (Hw2 & Hl2).
    split; [congruence|].
    rewrite Hl2. destruct rest as [|o' rest'].
    + rewrite Hl. cbn [length]. reflexivity.
    + rewrite Hl, Hw. cbn [completion_log move_log stats_moves stats_completes].
      rewrite sliceLast_app_sliceLast, <- app_assoc.
      f_equal.
      * f_equal. f_equal.
        cbn [completionEntries app]. rewrite Hr.
        destruct (isStr "complete" (getField o "op")); reflexivity.
      * cbn [length]. lia.
Qed.

End CompletionLog.

(** C5: a batch of [complete]/[undo_complete] ops applied to any overlay
    returns; afterwards the completion log is the last 400 entries of the
    old log followed by the new entries in the order of the ops, so it never
    holds more than 400 and the oldest go first; the [completes] counter has
    grown by one per op.  From 400 ops on (500 in particular) the log holds
    exactly the 400 most recent new entries, in order. *)
Theorem completion_log_bounded (st : State) (ops : list jsval) :
  ops <> [] ->
  Forall (fun o => isCompletionOp o = true) ops ->
  returns (applyOpsArray (VArr ops)) st (fun n st' =>
    n = Z.of_nat (length ops)
    /\ completion_log (learning (overlays st'))
       = sliceLast 400 (completion_log (learning (overlays st))
                        ++ completionEntries (world st) (reads st) ops)
    /\ (length (completion_log (learning (overlays st'))) <= 400)%nat
    /\ stats_completes (learning (overlays st'))
       = stats_completes (learning (overlays st)) + Z.of_nat (length ops)
    /\ length (completionEntries (world st) (reads st) ops) = length ops
    /\ ((400 <= length ops)%nat ->
        completion_log (learning (overlays st'))
        = sliceLast 400 (completionEntries (world st) (reads st) ops)
        /\ length (completion_log (learning (overlays st'))) = 400%nat)).
Proof.
  intros Hne Hall.
  destruct ops as [|o rest]; [contradiction|].
  unfold applyOpsArray, saveOverlays.
  apply returns_bind.
  apply (returns_weaken _ _ _ _ (forEach_completion (o :: rest) st Hall)).
  intros _ st1 (Hw & Hl).
  repeat step.
  rewrite Hl. cbn [completion_log stats_completes].
  pose proof (completionEntries_length (world st) (o :: rest) (reads st)) as Hlen.
  split; [reflexivity|]. split; [reflexivity|].
  split; [apply sliceLast_length|]. split; [reflexivity|]. split; [exact Hlen|].
  intros Hbig.
  rewrite sliceLast_app_long by (rewrite Hlen; exact Hbig).
  split; [reflexivity|].
  apply sliceLast_length_full. rewrite Hlen. exact Hbig.
Qed.

Lemma completion_log_bounded_witness :
  returns (applyOpsArray (VArr fiveHundredCompletions))
          (bootState steadyWorld oneTaskBase freshOverlays)
          (fun n st' =>
             n = 500
             /\ length (completion_log (learning (overlays st'))) = 400%nat
             /\ completion_log (learning (overlays st'))
                = sliceLast 400 (completionEntries steadyWorld 0 fiveHundredCompletions)
             /\ stats_completes (learning (overlays st')) = 500).
Proof.
  assert (length fiveHundredCompletions = 500%nat) as Hlen
    by (unfold fiveHundredCompletions; rewrite List.length_map, List.length_seq; reflexivity).
  eapply returns_weaken.
  - apply (completion_log_bounded (bootState steadyWorld oneTaskBase freshOverlays)
                                  fiveHundredCompletions).
    + intros H. rewrite H in Hlen. discriminate Hlen.
    + apply List.Forall_forall. intros o Hin.
      apply in_map_iff in Hin as (i & <- & _). reflexivity.
  - cbv beta. intros n st' (Hn & _ & _ & Hc & _ & Hbig).
    rewrite Hlen in *.
    destruct Hbig as (Hlog & Hl); [lia|].
    repeat split; assumption.
Defined.

Example completion_log_keeps_most_recent :
  map (fun e => getField e "id")
      (sliceLast 400 (completionEntries steadyWorld 0 fiveHundredCompletions))
  = map (fun i => VStr (showNat i)) (seq 100 400).
Proof. vm_compute. reflexivity. Qed.

(** ** The scenarios of the specification *)

Example scenario_A_delete :
  mergedTasks
    (merged (snd (applyOpsArray (VArr [VObj [("op", VStr "delete"); ("id", VStr "t1")]])
                                (bootState steadyWorld oneTaskBase freshOverlays))))
  = [].
Proof. vm_compute. reflexivity. Qed.

Example scenario_B_two_updates :
  patchOf
    (overlays
       (snd (applyOpsArray
               (VArr [VObj [("op", VStr "update"); ("id", VStr "t2");
                            ("fields", VObj [("priority", VNum 1)])];
                      VObj [("op", VStr "update"); ("id", VStr "t2");
                            ("fields", VObj [("title", VStr "Draft Q1 report")])]])
               (bootState steadyWorld oneTaskBase freshOverlays))))
    (VStr "t2")
  = [("priority", VNum 1); ("title", VStr "Draft Q1 report")].
Proof. vm_compute. reflexivity. Qed.

(** ** Creating items: the type of an added item *)

Section ItemType.

(** [normalizeType] of [app.js] returns the lowercased, trimmed string in
    every branch: the test against the three kinds decides nothing. *)
Lemma normalizeType_string (s : string) :
  Store.normalizeType (VStr s) = Ret (trim (toLowerCase s)).
Proof.
  unfold Store.normalizeType, jsOr. cbn [truthy].
  destruct (String.eqb s "") eqn:E; cbn [negb].
  - apply String.eqb_eq in E. subst s. reflexivity.
  - destruct (String.eqb (trim (toLowerCase s)) "") eqn:Ev.
    + apply String.eqb_eq in Ev. rewrite Ev. reflexivity.
    + destruct (String.eqb (trim (toLowerCase s)) "event"
                || String.eqb (trim (toLowerCase s)) "meeting"
                || String.eqb (trim (toLowerCase s)) "task"); reflexivity.
Qed.

(** [normalizeType] of [ai/context.js] is the specified normalization. *)
Lemma context_normalizeType_string (s : string) :
  AiContext.normalizeType (VStr s) = Ret (specifiedType s).
Proof.
  unfold AiContext.normalizeType, specifiedType, jsOr. cbn [truthy].
  destruct (String.eqb s "") eqn:E; cbn [negb].
  - apply String.eqb_eq in E. subst s. reflexivity.
  - destruct (String.eqb (trim (toLowerCase s)) "") eqn:Ev.
    + apply String.eqb_eq in Ev. rewrite Ev. reflexivity.
    + destruct (String.eqb (trim (toLowerCase s)) "event"),
               (String.eqb (trim (toLowerCase s)) "meeting"),
               (String.eqb (trim (toLowerCase s)) "task"); reflexivity.
Qed.

(** The type written by an [add] op with a string type: the specified one
    for the three kinds and for the empty string, the lowercased trimmed
    input for any other string. *)
Lemma newTask_type (id fields : jsval) (s : string) :
  getField (newTask id fields (trim (toLowerCase s))) "type"
  = VStr (if String.eqb (trim (toLowerCase s)) "" then "task" else trim (toLowerCase s)).
Proof. reflexivity. Qed.

End ItemType.

(** C7 (the code departs from it): an [add] op whose type is the
    unrecognized string [Reminder] creates an item of type [reminder], not
    [task].  [normalizeType] of [app.js] returns the unrecognized value,
    where its namesake in [ai/context.js] returns [task]. *)
Theorem add_keeps_unrecognized_type :
  Store.normalizeType (VStr "Reminder") = Ret "reminder"
  /\ AiContext.normalizeType (VStr "Reminder") = Ret "task"
  /\ specifiedType "Reminder" = "task"
  /\ fst (applyOpsArray unknownTypeAdd (bootState steadyWorld oneTaskBase freshOverlays))
     = Ret 1
  /\ map (fun t => (getField t "id", getField t "type"))
         (new_tasks (overlays (snd (applyOpsArray unknownTypeAdd
                                      (bootState steadyWorld oneTaskBase freshOverlays)))))
     = [(VStr "temp_n1", VStr "reminder")].
Proof. vm_compute. repeat split. Qed.

Example add_normalizes_known_types :
  map (fun s => getField (newTask (VStr "temp_1") (VObj []) (trim (toLowerCase s))) "type")
      [" Event "; "MEETING"; "task"; ""; "   "]
  = [VStr "event"; VStr "meeting"; VStr "task"; VStr "task"; VStr "task"].
Proof. vm_compute. reflexivity. Qed.

(** ** The calendar behind [Date]: one day later is the next date *)

Section Calendar.

Lemma cycle_checked :
  daysChecked cycleDays cycleStart (civilFromDays cycleStart) = true.
Proof. vm_cast_no_check (eq_refl true). Qed.

Lemma daysChecked_spec (n : nat) :
  forall z k,
    daysChecked n z (civilFromDays z) = true -> 0 <= k < Z.of_nat n -> dayOk (z + k) = true.
Proof.
  induction n as [|n IH]; intros z k H Hk; [lia|].
  cbn [daysChecked] in H. cbv zeta in H. apply andb_prop in H as [H1 H2].
  destruct (Z.eq_dec k 0) as [->|Hne]; [rewrite Z.add_0_r; exact H1|].
  replace (z + k) with ((z + 1) + (k - 1)) by lia.
  apply IH; [exact H2 | lia].
Qed.

Lemma civilFromDays_shift (z q : Z) :
  civilFromDays (z + q * 146097) = shiftYears (400 * q) (civilFromDays z).
Proof.
  unfold civilFromDays. cbv zeta.
  replace (z + q * 146097 + 719468) with (z + 719468 + q * 146097) by lia.
  rewrite Z.div_add by lia.
  set (z' := z + 719468). set (era := z' / 146097).
  replace (z' + q * 146097 - (era + q) * 146097) with (z' - era * 146097) by lia.
  set (doe := z' - era * 146097).
  set (yoe := (doe - doe / 1460 + doe / 36524 - doe / 146096) / 365).
  set (doy := doe - (365 * yoe + yoe / 4 - yoe / 100)).
  set (mp := (5 * doy + 2) / 153).
  unfold shiftYears.
  destruct (mp <? 10); destruct (_ <=? 2); f_equal; f_equal; lia.
Qed.

Lemma isLeap_shift (y q : Z) : isLeap (y + 400 * q) = isLeap y.
Proof.
  unfold isLeap.
  replace (y + 400 * q) with (y + (100 * q) * 4) at 1 by lia.
  replace (y + 400 * q) with (y + (4 * q) * 100) at 1 by lia.
  replace (y + 400 * q) with (y + q * 400) by lia.
  rewrite !Z.mod_add by lia. reflexivity.
Qed.

(** The calendar repeats every 400 years, that is every 146097 days. *)
Lemma dayOk_shift (z q : Z) : dayOk (z + q * 146097) = dayOk z.
Proof.
  unfold dayOk, dayChecked.
  replace (z + q * 146097 + 1) with (z + 1 + q * 146097) by lia.
  rewrite !civilFromDays_shift.
  destruct (civilFromDays z) as [[y m] d]. destruct (civilFromDays (z + 1)) as [[y1 m1] d1].
  unfold shiftYears, nextCivil, daysInMonth, civilEqb.
  rewrite isLeap_shift.
  assert (forall a b c : Z, (a + c =? b + c) = (a =? b)) as Hcancel.
  { intros a b c. destruct (Z.eqb_spec a b), (Z.eqb_spec (a + c) (b + c));
      try reflexivity; lia. }
  set (dim := if (m =? 4) || (m =? 6) || (m =? 9) || (m =? 11) then 30
              else if m =? 2 then if isLeap y then 29 else 28 else 31).
  destruct (d <? dim); [|destruct (m <? 12)].
  - rewrite Hcancel. reflexivity.
  - rewrite Hcancel. reflexivity.
  - replace (y + 400 * q + 1) with (y + 1 + 400 * q) by lia.
    rewrite Hcancel. reflexivity.
Qed.

Lemma every_day_ok (z : Z) : dayOk z = true.
Proof.
  pose proof (Z.div_mod (z - cycleStart) 146097 ltac:(lia)) as Hdm.
  pose proof (Z.mod_pos_bound (z - cycleStart) 146097 ltac:(lia)) as Hr.
  replace z with (cycleStart + (z - cycleStart) mod 146097
                  + (z - cycleStart) / 146097 * 146097) by lia.
  rewrite dayOk_shift.
  apply (daysChecked_spec cycleDays cycleStart _ cycle_checked).
  unfold cycleDays. rewrite Z2Nat.id by lia. exact Hr.
Qed.

(** The date of the day after [z] is the date after the date of [z]. *)
Lemma civilFromDays_next (z : Z) :
  civilFromDays (z + 1) = nextCivil (civilFromDays z).
Proof.
  pose proof (every_day_ok z) as H. unfold dayOk, dayChecked in H.
  destruct (civilFromDays z) as [[y m] d].
  repeat (apply andb_prop in H as [H _]).
  unfold civilEqb in H.
  destruct (civilFromDays (z + 1)) as [[y1 m1] d1].
  destruct (nextCivil (y, m, d)) as [[y2 m2] d2].
  apply andb_prop in H as [H Hd]. apply andb_prop in H as [Hy Hm].
  apply Z.eqb_eq in Hy, Hm, Hd. congruence.
Qed.

(** Every day has a date of the calendar. *)
Lemma civilFromDays_valid (z : Z) :
  let '(y, m, d) := civilFromDays z in
  1 <= m <= 12 /\ 1 <= d <= daysInMonth y m.
Proof.
  pose proof (every_day_ok z) as H. unfold dayOk, dayChecked in H.
  destruct (civilFromDays z) as [[y m] d].
  apply andb_prop in H as [H H5].
  apply andb_prop in H as [H H4]. apply andb_prop in H as [H H3].
  apply andb_prop in H as [_ H2].
  apply Z.leb_le in H2, H3, H4, H5. lia.
Qed.

End Calendar.

(** ** Deferring by one day *)

Section Defer.

Lemma deferSource_due_else_start (patch item : jsval) :
  deferSource patch item
  = if truthy (currentField patch item "due_date")
    then currentField patch item "due_date"
    else currentField patch item "start_date".
Proof.
  unfold deferSource, currentField, jsOr.
  destruct (truthy (getField patch "due_date")) eqn:E1;
    destruct (truthy (getField item "due_date")) eqn:E2;
    destruct (truthy (getField patch "start_date")) eqn:E3;
    rewrite ?E1, ?E2, ?E3; try reflexivity.
Qed.

(** The end of [deferOneDay]: log the move, save, merge again. *)
Lemma defer_tail (id from : jsval) (st : State) :
  returns
    (after <- readPatch id ;;
     logMove id from
       (VObj [("start_date", getField (VObj after) "start_date");
              ("due_date", getField (VObj after) "due_date")])
       "defer_1d" ;;;
     saveOverlays ;;;
     remerge)
    st
    (fun _ st' =>
       patchOf (overlays st') id = patchOf (overlays st) id
       /\ move_log (learning (overlays st'))
          = sliceLast 400
              (move_log (learning (overlays st))
               ++ [VObj [("id", id); ("from", from);
                         ("to",
                          VObj [("start_date",
                                 getField (VObj (patchOf (overlays st) id)) "start_date");
                                ("due_date",
                                 getField (VObj (patchOf (overlays st) id)) "due_date")]);
                         ("reason", VStr "defer_1d");
                         ("at", VStr (isoAt (world st) (reads st)))]])
       /\ stats_moves (learning (overlays st')) = stats_moves (learning (overlays st)) + 1
       /\ merged st' = Some (mergeData (base st') (overlays st'))
       /\ stored st' = Some (overlays st')).
Proof.
  unfold readPatch, logMove, saveOverlays.
  repeat step. unfold patchOf. flat. repeat split; reflexivity.
Qed.

(** [deferOneDay] on an item of the merged tasks whose source date parses. *)
Lemma deferOneDay_run (st : State) (id item : jsval) (d : JsDate) :
  findById id (mergedTasks (merged st)) = Some item ->
  parseISODate (deferSource (VObj (patchOf (overlays st) id)) item) = Some d ->
  returns (deferOneDay id) st (fun _ st' =>
    patchOf (overlays st') id
    = (if truthy (getField (VObj (patchOf (overlays st) id)) "start_date")
       then setProp "due_date" (VStr (isoFromDate (addDays 1 d))) (patchOf (overlays st) id)
       else setProp "start_date" (VStr (isoFromDate (addDays 1 d)))
              (setProp "due_date" (VStr (isoFromDate (addDays 1 d)))
                       (patchOf (overlays st) id)))
    /\ move_log (learning (overlays st'))
       = sliceLast 400
           (move_log (learning (overlays st))
            ++ [VObj [("id", id);
                      ("from",
                       VObj [("start_date",
                              jsCoalesce (getField (VObj (patchOf (overlays st) id)) "start_date")
                                         (jsCoalesce (getField item "start_date") VNull));
                             ("due_date",
                              jsCoalesce (getField (VObj (patchOf (overlays st) id)) "due_date")
                                         (jsCoalesce (getField item "due_date") VNull))]);
                      ("to",
                       VObj [("start_date",
                              getField (VObj (patchOf (overlays st') id)) "start_date");
                             ("due_date", VStr (isoFromDate (addDays 1 d)))]);
                      ("reason", VStr "defer_1d");
                      ("at", VStr (isoAt (world st) (reads st)))]])
    /\ stats_moves (learning (overlays st')) = stats_moves (learning (overlays st)) + 1
    /\ merged st' = Some (mergeData (base st') (overlays st'))
    /\ stored st' = Some (overlays st')).
Proof.
  intros Hfind Hparse.
  set (next := VStr (isoFromDate (addDays 1 d))).
  set (p0 := patchOf (overlays st) id) in *.
  unfold deferOneDay, writePatch.
  step. step. rewrite Hfind.
  assert (forall st2,
            world st2 = world st -> reads st2 = reads st ->
            learning (overlays st2) = learning (overlays st) ->
            patchOf (overlays st2) id
            = (if truthy (getField (VObj p0) "start_date")
               then setProp "due_date" next p0
               else setProp "start_date" next (setProp "due_date" next p0)) ->
            returns
              (after <- readPatch id ;;
               logMove id
                 (VObj [("start_date",
                         jsCoalesce (getField (VObj p0) "start_date")
                                    (jsCoalesce (getField item "start_date") VNull));
                        ("due_date",
                         jsCoalesce (getField (VObj p0) "due_date")
                                    (jsCoalesce (getField item "due_date") VNull))])
                 (VObj [("start_date", getField (VObj after) "start_date");
                        ("due_date", getField (VObj after) "due_date")])
                 "defer_1d" ;;;
               saveOverlays ;;;
               remerge)
              st2
              (fun _ st' =>
                 patchOf (overlays st') id
                 = (if truthy (getField (VObj p0) "start_date")
                    then setProp "due_date" next p0
                    else setProp "start_date" next (setProp "due_date" next p0))
                 /\ move_log (learning (overlays st'))
                    = sliceLast 400
                        (move_log (learning (overlays st))
                         ++ [VObj [("id", id);
                                   ("from",
                                    VObj [("start_date",
                                           jsCoalesce (getField (VObj p0) "start_date")
                                             (jsCoalesce (getField item "start_date") VNull));
                                          ("due_date",
                                           jsCoalesce (getField (VObj p0) "due_date")
                                             (jsCoalesce (getField item "due_date") VNull))]);
                                   ("to",
                                    VObj [("start_date",
                                           getField (VObj (patchOf (overlays st') id))
                                                    "start_date");
                                          ("due_date", next)]);
                                   ("reason", VStr "defer_1d");
                                   ("at", VStr (isoAt (world st) (reads st)))]])
                 /\ stats_moves (learning (overlays st'))
                    = stats_moves (learning (overlays st)) + 1
                 /\ merged st' = Some (mergeData (base st') (overlays st'))
                 /\ stored st' = Some (overlays st'))) as Htail.
  { intros st2 Hw Hr Hl Hp.
    eapply returns_weaken; [apply defer_tail|].
    cbv beta. intros _ st' (Hp' & Hm & Hs & Hmerged & Hstored).
    rewrite Hp', Hm, Hs, Hw, Hr, Hl, Hp.
    repeat split; try assumption.
    do 5 f_equal.
    destruct (truthy (getField (VObj p0) "start_date"));
      rewrite ?getField_setProp; reflexivity. }
  apply returns_bind, returns_ensurePatch; [intros p Hlook | intros Hlook]; flat.
  - subst p0. unfold patchOf in Hparse, Htail |- *.
    rewrite Hlook in Hparse, Htail |- *. rewrite Hparse.
    step. step. step. step.
    destruct (truthy (getField (VObj p) "start_date")) eqn:Es; cbn [negb].
    + apply returns_bind, returns_when. cbv iota beta.
      apply Htail; flat; try reflexivity.
      rewrite lookup_alter_eq, Hlook. reflexivity.
    + apply returns_bind, returns_when, returns_modify. flat.
      apply Htail; flat; try reflexivity.
      rewrite !lookup_alter_eq, Hlook. reflexivity.
  - subst p0. unfold patchOf in Hparse, Htail |- *.
    rewrite Hlook in Hparse, Htail |- *. rewrite Hparse.
    change (truthy (getField (VObj []) "start_date")) with false in *. cbn [negb].
    step. step. step. step.
    apply returns_bind, returns_when, returns_modify. flat.
    apply Htail; flat; try reflexivity.
    rewrite !lookup_alter_eq, lookup_insert_eq. reflexivity.
Qed.
End Defer.

(** C8, as stated, fails: for a task that starts on 2024-01-20 and is due on
    2024-01-10 the later date is the start date, and one day later is
    2024-01-21; [deferOneDay] starts from the due date instead and writes
    2024-01-11 as the due date and as the start date of the patch. *)
Lemma defer_counterexample :
  deferredLater (VObj [])
    (VObj [("id", VStr "t1"); ("title", VStr "Draft report");
           ("start_date", VStr "2024-01-20"); ("due_date", VStr "2024-01-10")])
  = Some "2024-01-21"%string
  /\ findById (VStr "t1")
       (mergedTasks (merged (bootState steadyWorld startAfterDueBase freshOverlays)))
     = Some (VObj [("id", VStr "t1"); ("title", VStr "Draft report");
                   ("start_date", VStr "2024-01-20"); ("due_date", VStr "2024-01-10")])
  /\ fst (deferOneDay (VStr "t1") (bootState steadyWorld startAfterDueBase freshOverlays))
     = Ret tt
  /\ patchOf (overlays (snd (deferOneDay (VStr "t1")
                               (bootState steadyWorld startAfterDueBase freshOverlays))))
             (VStr "t1")
     = [("due_date", VStr "2024-01-11"); ("start_date", VStr "2024-01-11")].
Proof. vm_compute. repeat split. Qed.

(** C8 (amended): for an item of the merged tasks, [deferOneDay] starts from
    the item's current due date (the patch value before the item's own), or
    from its current start date when it has no due date.  When that date
    parses, the day after it becomes the due date of the patch, and also its
    start date when the patch has none; the move is appended to the bounded
    move log with the reason [defer_1d] and counted.  The day after is the
    next date of the Gregorian calendar. *)
Theorem defer_advances_due_else_start (st : State) (id item : jsval) (d : JsDate) :
  findById id (mergedTasks (merged st)) = Some item ->
  parseISODate
    (if truthy (currentField (VObj (patchOf (overlays st) id)) item "due_date")
     then currentField (VObj (patchOf (overlays st) id)) item "due_date"
     else currentField (VObj (patchOf (overlays st) id)) item "start_date") = Some d ->
  returns (deferOneDay id) st (fun _ st' =>
    patchOf (overlays st') id
    = (if truthy (getField (VObj (patchOf (overlays st) id)) "start_date")
       then setProp "due_date" (VStr (isoFromDate (addDays 1 d))) (patchOf (overlays st) id)
       else setProp "start_date" (VStr (isoFromDate (addDays 1 d)))
              (setProp "due_date" (VStr (isoFromDate (addDays 1 d)))
                       (patchOf (overlays st) id)))
    /\ getField (VObj (patchOf (overlays st') id)) "due_date"
       = VStr (isoFromDate (addDays 1 d))
    /\ move_log (learning (overlays st'))
       = sliceLast 400
           (move_log (learning (overlays st))
            ++ [VObj [("id", id);
                      ("from",
                       VObj [("start_date",
                              jsCoalesce (getField (VObj (patchOf (overlays st) id)) "start_date")
                                         (jsCoalesce (getField item "start_date") VNull));
                             ("due_date",
                              jsCoalesce (getField (VObj (patchOf (overlays st) id)) "due_date")
                                         (jsCoalesce (getField item "due_date") VNull))]);
                      ("to",
                       VObj [("start_date",
                              getField (VObj (patchOf (overlays st') id)) "start_date");
                             ("due_date", VStr (isoFromDate (addDays 1 d)))]);
                      ("reason", VStr "defer_1d");
                      ("at", VStr (isoAt (world st) (reads st)))]])
    /\ stats_moves (learning (overlays st')) = stats_moves (learning (overlays st)) + 1)
  /\ (forall day,
        d = ValidDate day -> -100000000 <= day + 1 < 100000000 ->
        isoFromDate (addDays 1 d)
        = (let '(y, m, dd) := nextCivil (civilFromDays day) in
           showZ y +:+ "-" +:+ pad2 m +:+ "-" +:+ pad2 dd)).
Proof.
  intros Hfind Hparse. split.
  - rewrite <- deferSource_due_else_start in Hparse.
    eapply returns_weaken; [exact (deferOneDay_run st id item d Hfind Hparse)|].
    cbv beta. intros _ st' (Hp & Hm & Hs & _).
    split; [exact Hp|]. split; [|split; assumption].
    rewrite Hp.
    destruct (truthy (getField (VObj (patchOf (overlays st) id)) "start_date"));
      rewrite ?getField_setProp; reflexivity.
  - intros day -> Hrange. unfold addDays, clipDay.
    assert ((-100000000 <=? day + 1) && (day + 1 <? 100000000) = true) as ->
      by (apply andb_true_intro; split; [apply Z.leb_le | apply Z.ltb_lt]; lia).
    unfold isoFromDate. rewrite civilFromDays_next. reflexivity.
Qed.

Lemma defer_advances_due_else_start_witness :
  returns (deferOneDay (VStr "t1")) (bootState steadyWorld dueOnlyBase freshOverlays)
    (fun _ st' =>
       patchOf (overlays st') (VStr "t1")
       = [("due_date", VStr "2024-02-29"); ("start_date", VStr "2024-02-29")]
       /\ length (move_log (learning (overlays st'))) = 1%nat
       /\ stats_moves (learning (overlays st')) = 1).
Proof.
  eapply returns_weaken.
  - refine (proj1 (defer_advances_due_else_start
             (bootState steadyWorld dueOnlyBase freshOverlays) (VStr "t1")
             (VObj [("id", VStr "t1"); ("title", VStr "Draft report");
                    ("due_date", VStr "2024-02-28")])
             (newDate 2024 1 28) _ _)).
    + vm_compute. reflexivity.
    + vm_compute. reflexivity.
  - cbv beta. intros _ st' (Hp & _ & Hm & Hs).
    rewrite Hp, Hm, Hs. vm_compute. repeat split.
Defined.

(** [deferOneDay] looks the id up in the merged tasks only: on the id of a
    base event it returns without a change. *)
Example defer_ignores_base_events :
  deferOneDay (VStr "e1") (bootState steadyWorld twoEventsBase eventPatchOverlays)
  = (Ret tt, bootState steadyWorld twoEventsBase eventPatchOverlays).
Proof. vm_compute. reflexivity. Qed.

(** * Further properties of the code *)

(** ** Weeks *)

Section Weeks.

Lemma getDay_range (day : Z) : 0 <= getDay day < 7.
Proof. unfold getDay. apply Z.mod_pos_bound. lia. Qed.

(** Two days less than a week apart that fall on the same day of the week
    are the same day. *)
Lemma getDay_inj (a b : Z) : getDay a = getDay b -> -7 < a - b < 7 -> a = b.
Proof.
  unfold getDay. intros H Hd.
  pose proof (Z.div_mod (a + 4) 7 ltac:(lia)) as Ha.
  pose proof (Z.div_mod (b + 4) 7 ltac:(lia)) as Hb.
  rewrite H in Ha. lia.
Qed.

(** The Monday on or before [day]. *)
Lemma monday_before (day : Z) :
  let s := day + (if getDay day =? 0 then -6 else 1 - getDay day) in
  s <= day <= s + 6 /\ getDay s = 1.
Proof.
  cbv zeta. pose proof (getDay_range day) as Hd.
  split; [destruct (Z.eqb_spec (getDay day) 0); lia|].
  unfold getDay in *.
  destruct (Z.eqb_spec ((day + 4) mod 7) 0) as [E|E].
  - replace (day + -6 + 4) with (day + 4 + (-1) * 7 + 1) by lia.
    rewrite <- Z.add_mod_idemp_l by lia. rewrite Z.mod_add by lia.
    rewrite E. reflexivity.
  - replace (day + (1 - (day + 4) mod 7) + 4) with (1 + (day + 4 - (day + 4) mod 7)) by lia.
    rewrite (Z.div_mod (day + 4) 7) at 1 by lia.
    replace (1 + (7 * ((day + 4) / 7) + (day + 4) mod 7 - (day + 4) mod 7))
      with (1 + ((day + 4) / 7) * 7) by lia.
    rewrite Z.mod_add by lia. reflexivity.
Qed.

(** [startOfWeek] of any day of the week that starts on the Monday [s]. *)
Lemma startOfWeek_of (day s : Z) :
  s <= day <= s + 6 -> getDay s = 1 -> -100000000 <= s -> day < 100000000 ->
  startOfWeek (ValidDate day) = ValidDate s.
Proof.
  intros Hin Hmon Hlo Hhi.
  destruct (monday_before day) as [Hin' Hmon'].
  set (s' := day + (if getDay day =? 0 then -6 else 1 - getDay day)) in *.
  assert (s' = s) as Hs by (apply getDay_inj; [congruence | lia]).
  unfold startOfWeek, addDays, clipDay. fold s'. rewrite Hs.
  assert ((-100000000 <=? s) && (s <? 100000000) = true) as ->
    by (apply andb_true_intro; split; [apply Z.leb_le | apply Z.ltb_lt]; lia).
  reflexivity.
Qed.

Lemma getDay_sunday (s : Z) : getDay s = 1 -> getDay (s + 6) = 0.
Proof.
  unfold getDay. intros H.
  replace (s + 6 + 4) with (s + 4 + 6) by lia.
  rewrite <- Z.add_mod_idemp_l by lia. rewrite H. reflexivity.
Qed.

End Weeks.

(** X1: for a date [day] (six days at least inside the range of [Date]),
    [startOfWeek] is the Monday on or before it and [endOfWeek] the Sunday
    six days later, the date lies between the two, every date of that
    stretch has the same start and end of week, and a date passes the week
    filter [d >= wStart && d <= wEnd] exactly when it is one of these seven
    days. *)
Theorem week_runs_monday_to_sunday (day : Z) :
  -100000000 + 6 <= day < 100000000 - 6 ->
  exists s,
    startOfWeek (ValidDate day) = ValidDate s
    /\ endOfWeek (ValidDate day) = ValidDate (s + 6)
    /\ s <= day <= s + 6
    /\ getDay s = 1 /\ getDay (s + 6) = 0
    /\ (forall k, s <= k <= s + 6 ->
          startOfWeek (ValidDate k) = ValidDate s
          /\ endOfWeek (ValidDate k) = ValidDate (s + 6))
    /\ (forall k, withinWeek (ValidDate day) (ValidDate k) = true <-> s <= k <= s + 6).
Proof.
  intros Hr.
  destruct (monday_before day) as [Hin Hmon].
  set (s := day + (if getDay day =? 0 then -6 else 1 - getDay day)) in *.
  assert (forall k, s <= k <= s + 6 -> startOfWeek (ValidDate k) = ValidDate s) as Hsame
    by (intros k Hk; apply startOfWeek_of; [exact Hk | exact Hmon | lia | lia]).
  pose proof (Hsame day Hin) as Hs.
  assert (endOfWeek (ValidDate day) = ValidDate (s + 6)) as He.
  { unfold endOfWeek. rewrite Hs. unfold addDays, clipDay.
    assert ((-100000000 <=? s + 6) && (s + 6 <? 100000000) = true) as ->
      by (apply andb_true_intro; split; [apply Z.leb_le | apply Z.ltb_lt]; lia).
    reflexivity. }
  exists s. split; [exact Hs|]. split; [exact He|]. split; [exact Hin|].
  split; [exact Hmon|]. split; [exact (getDay_sunday s Hmon)|]. split.
  - intros k Hk. split; [exact (Hsame k Hk)|].
    unfold endOfWeek. rewrite (Hsame k Hk). unfold endOfWeek in He. rewrite Hs in He. exact He.
  - intros k. unfold withinWeek. rewrite Hs, He. unfold dateNotAfter.
    rewrite andb_true_iff, !Z.leb_le. tauto.
Qed.

Lemma week_runs_monday_to_sunday_witness :
  exists s,
    startOfWeek (ValidDate 19844) = ValidDate s
    /\ endOfWeek (ValidDate 19844) = ValidDate (s + 6)
    /\ isoFromDate (ValidDate 19844) = "2024-05-01"%string
    /\ isoFromDate (ValidDate s) = "2024-04-29"%string
    /\ isoFromDate (ValidDate (s + 6)) = "2024-05-05"%string.
Proof.
  destruct (week_runs_monday_to_sunday 19844) as (s & Hs & He & _); [lia|].
  exists s. split; [exact Hs|]. split; [exact He|].
  assert (ValidDate s = ValidDate 19842) as Heq by (rewrite <- Hs; reflexivity).
  injection Heq as ->. repeat split.
Defined.

(** ** Day numbers and dates: the two conversions behind [Date] *)

Section DayNumbers.

Lemma daysFromCivil_day (y m d : Z) :
  daysFromCivil y m d = daysFromCivil y m 1 + (d - 1).
Proof. unfold daysFromCivil. cbv zeta. lia. Qed.

(** The first of the next month is [daysInMonth] days after the first of
    the month. *)
Lemma daysFromCivil_next_month (y m : Z) :
  1 <= m <= 12 ->
  daysFromCivil (if m <? 12 then y else y + 1) (if m <? 12 then m + 1 else 1) 1
  = daysFromCivil y m 1 + daysInMonth y m.
Proof.
  intros Hm.
  assert (m = 1 \/ m = 2 \/ m = 3 \/ m = 4 \/ m = 5 \/ m = 6 \/ m = 7 \/ m = 8
          \/ m = 9 \/ m = 10 \/ m = 11 \/ m = 12) as Hcases by lia.
  unfold daysFromCivil, daysInMonth, isLeap.
  destruct Hcases as [-> | [-> | [-> | [-> | [-> | [-> | [-> | [-> | [-> | [-> | [-> | ->]]]]]]]]]]];
    cbv zeta;
    repeat match goal with
           | |- context [if ?a <=? ?b then _ else _] => destruct (Z.leb_spec a b); try lia
           | |- context [if ?a <? ?b then _ else _] => destruct (Z.ltb_spec a b); try lia
           end;
    cbn [Z.eqb Pos.eqb orb andb negb];
    repeat match goal with
           | |- context [?a =? ?b] => destruct (Z.eqb_spec a b)
           end;
    cbn [orb andb negb]; Z.div_mod_to_equations; lia.
Qed.

(** The day number of the date after a date is one more. *)
Lemma daysFromCivil_nextCivil (y m d : Z) :
  1 <= m <= 12 -> 1 <= d <= daysInMonth y m ->
  (let '(y', m', d') := nextCivil (y, m, d) in daysFromCivil y' m' d')
  = daysFromCivil y m d + 1.
Proof.
  intros Hm Hd. unfold nextCivil.
  destruct (Z.ltb_spec d (daysInMonth y m)) as [Hlt|Hge].
  - rewrite (daysFromCivil_day y m (d + 1)), (daysFromCivil_day y m d). lia.
  - pose proof (daysFromCivil_next_month y m Hm) as H.
    rewrite (daysFromCivil_day y m d).
    destruct (m <? 12); rewrite H; lia.
Qed.

(** From a day number to its date and back. *)
Lemma daysFromCivil_civilFromDays (z : Z) :
  (let '(y, m, d) := civilFromDays z in daysFromCivil y m d) = z.
Proof.
  revert z.
  apply (Z.bi_induction
           (fun z => (let '(y, m, d) := civilFromDays z in daysFromCivil y m d) = z)).
  - intros a b ->. reflexivity.
  - reflexivity.
  - intros z. unfold Z.succ. rewrite civilFromDays_next.
    pose proof (civilFromDays_valid z) as Hv.
    destruct (civilFromDays z) as [[y m] d]. destruct Hv as [Hm Hd].
    pose proof (daysFromCivil_nextCivil y m d Hm Hd) as Hn.
    destruct (nextCivil (y, m, d)) as [[y' m'] d'].
    split; intros H; lia.
Qed.

(** Two days with the same date are the same day. *)
Lemma civilFromDays_inj (a b : Z) : civilFromDays a = civilFromDays b -> a = b.
Proof.
  intros H.
  rewrite <- (daysFromCivil_civilFromDays a), <- (daysFromCivil_civilFromDays b), H.
  reflexivity.
Qed.

(** Within a month, going on by [k] days adds [k] to the day of the month. *)
Lemma civilFromDays_forward (z y m d k : Z) :
  civilFromDays z = (y, m, d) -> 0 <= k -> d + k <= daysInMonth y m ->
  civilFromDays (z + k) = (y, m, d + k).
Proof.
  intros Hz Hk.
  pattern k. apply natlike_ind with (x := k).
  - intros _. rewrite !Z.add_0_r. exact Hz.
  - intros j Hj IH Hle.
    replace (z + Z.succ j) with (z + j + 1) by lia.
    rewrite civilFromDays_next, IH by lia.
    unfold nextCivil.
    destruct (Z.ltb_spec (d + j) (daysInMonth y m)); [|lia].
    f_equal. lia.
  - assumption.
Qed.

Lemma civilFromDays_previous (z y m d : Z) :
  civilFromDays z = (y, m, d) -> 1 < d -> civilFromDays (z - 1) = (y, m, d - 1).
Proof.
  intros Hz Hd.
  pose proof (civilFromDays_next (z - 1)) as Hn.
  replace (z - 1 + 1) with z in Hn by lia. rewrite Hz in Hn.
  destruct (civilFromDays (z - 1)) as [[y0 m0] d0].
  unfold nextCivil in Hn.
  destruct (d0 <? daysInMonth y0 m0).
  - injection Hn as -> -> ->. f_equal. lia.
  - destruct (m0 <? 12); injection Hn as -> -> ->; lia.
Qed.

(** Within a month, going back by [k] days takes [k] from the day of the
    month. *)
Lemma civilFromDays_backward (z y m d k : Z) :
  civilFromDays z = (y, m, d) -> 0 <= k < d ->
  civilFromDays (z - k) = (y, m, d - k).
Proof.
  intros Hz [Hk Hlt]. revert Hlt.
  pattern k. apply natlike_ind with (x := k).
  - intros _. rewrite !Z.sub_0_r. exact Hz.
  - intros j Hj IH Hlt.
    replace (z - Z.succ j) with (z - j - 1) by lia.
    replace (d - Z.succ j) with (d - j - 1) by lia.
    apply civilFromDays_previous; [apply IH|]; lia.
  - assumption.
Qed.

End DayNumbers.

(** ** Months *)

Section Months.

Lemma daysInMonth_bound (y m : Z) : 28 <= daysInMonth y m <= 31.
Proof.
  unfold daysInMonth.
  destruct ((m =? 4) || (m =? 6) || (m =? 9) || (m =? 11)); [lia|].
  destruct (m =? 2); [destruct (isLeap y)|]; lia.
Qed.

Lemma clipDay_inside (day : Z) :
  -100000000 <= day < 100000000 -> clipDay day = ValidDate day.
Proof.
  intros H. unfold clipDay.
  assert ((-100000000 <=? day) && (day <? 100000000) = true) as ->
    by (apply andb_true_intro; split; [apply Z.leb_le | apply Z.ltb_lt]; lia).
  reflexivity.
Qed.

(** The [Date] constructor on a year outside 0..99 and a month index inside
    0..11 is the day count of the calendar. *)
Lemma newDate_plain (y m d : Z) :
  y < 0 \/ 99 < y -> 1 <= m <= 12 ->
  newDate y (m - 1) d = clipDay (daysFromCivil y m 1 + d - 1).
Proof.
  intros Hy Hm. unfold newDate.
  assert ((0 <=? y) && (y <=? 99) = false) as ->.
  { apply andb_false_iff. destruct Hy; [left; apply Z.leb_gt | right; apply Z.leb_gt]; lia. }
  replace ((m - 1) / 12) with 0 by (symmetry; apply Z.div_small; lia).
  replace ((m - 1) mod 12) with (m - 1) by (symmetry; apply Z.mod_small; lia).
  replace (y + 0) with y by lia. replace (m - 1 + 1) with m by lia. reflexivity.
Qed.

Lemma startOfMonth_eq (day y m d : Z) :
  civilFromDays day = (y, m, d) -> y < 0 \/ 99 < y ->
  startOfMonth (ValidDate day) = clipDay (day - (d - 1)).
Proof.
  intros Hc Hy.
  pose proof (civilFromDays_valid day) as Hv. rewrite Hc in Hv. destruct Hv as [Hm Hd].
  pose proof (daysFromCivil_civilFromDays day) as Hrt. rewrite Hc in Hrt.
  unfold startOfMonth. rewrite Hc. rewrite newDate_plain by assumption.
  rewrite (daysFromCivil_day y m d) in Hrt. f_equal. lia.
Qed.

Lemma endOfMonth_eq (day y m d : Z) :
  civilFromDays day = (y, m, d) -> y < 0 \/ 99 < y ->
  endOfMonth (ValidDate day) = clipDay (day + (daysInMonth y m - d)).
Proof.
  intros Hc Hy.
  pose proof (civilFromDays_valid day) as Hv. rewrite Hc in Hv. destruct Hv as [Hm Hd].
  pose proof (daysFromCivil_civilFromDays day) as Hrt. rewrite Hc in Hrt.
  rewrite (daysFromCivil_day y m d) in Hrt.
  pose proof (daysFromCivil_next_month y m Hm) as Hn.
  unfold endOfMonth. rewrite Hc. unfold newDate.
  assert ((0 <=? y) && (y <=? 99) = false) as ->.
  { apply andb_false_iff. destruct Hy; [left; apply Z.leb_gt | right; apply Z.leb_gt]; lia. }
  destruct (Z.ltb_spec m 12) as [Hlt|Hge].
  - replace (m / 12) with 0 by (symmetry; apply Z.div_small; lia).
    replace (m mod 12) with m by (symmetry; apply Z.mod_small; lia).
    replace (y + 0) with y by lia. f_equal. lia.
  - assert (m = 12) as -> by lia.
    change (12 / 12) with 1. change (12 mod 12 + 1) with 1. f_equal. lia.
Qed.

End Months.

(** X2: for a date [today] whose year is not one of 0..99 (the years that
    the [Date] constructor reads as 1900..1999), [startOfMonth] is the
    first and [endOfMonth] the last day of the calendar month of [today], and
    a date passes the month filter [d >= mStart && d <= mEnd] exactly when
    it has the year and the month of [today]. *)
Theorem month_window_is_calendar_month (today y m d : Z) :
  civilFromDays today = (y, m, d) ->
  y < 0 \/ 99 < y ->
  -100000000 + 31 <= today < 100000000 - 31 ->
  startOfMonth (ValidDate today) = ValidDate (today - (d - 1))
  /\ endOfMonth (ValidDate today) = ValidDate (today + (daysInMonth y m - d))
  /\ civilFromDays (today - (d - 1)) = (y, m, 1)
  /\ civilFromDays (today + (daysInMonth y m - d)) = (y, m, daysInMonth y m)
  /\ (forall k, withinMonth (ValidDate today) (ValidDate k) = true
                <-> exists dk, civilFromDays k = (y, m, dk)).
Proof.
  intros Hc Hy Hr.
  pose proof (civilFromDays_valid today) as Hv. rewrite Hc in Hv. destruct Hv as [Hm Hd].
  pose proof (daysInMonth_bound y m) as Hb.
  assert (startOfMonth (ValidDate today) = ValidDate (today - (d - 1))) as Hs
    by (rewrite (startOfMonth_eq today y m d Hc Hy); apply clipDay_inside; lia).
  assert (endOfMonth (ValidDate today) = ValidDate (today + (daysInMonth y m - d))) as He
    by (rewrite (endOfMonth_eq today y m d Hc Hy); apply clipDay_inside; lia).
  assert (civilFromDays (today - (d - 1)) = (y, m, 1)) as Hfirst.
  { rewrite (civilFromDays_backward today y m d (d - 1) Hc) by lia. f_equal. lia. }
  split; [exact Hs|]. split; [exact He|]. split; [exact Hfirst|]. split.
  - rewrite (civilFromDays_forward today y m d (daysInMonth y m - d) Hc) by lia.
    f_equal. lia.
  - intros k. unfold withinMonth. rewrite Hs, He. unfold dateNotAfter.
    rewrite andb_true_iff, !Z.leb_le. split.
    + intros [Hlo Hhi]. exists (1 + (k - (today - (d - 1)))).
      replace k with (today - (d - 1) + (k - (today - (d - 1)))) at 1 by lia.
      apply civilFromDays_forward; [exact Hfirst | lia | lia].
    + intros (dk & Hk).
      pose proof (civilFromDays_valid k) as Hvk. rewrite Hk in Hvk. destruct Hvk as [_ Hdk].
      assert (k - (dk - 1) = today - (d - 1)) as Heq.
      { apply civilFromDays_inj. rewrite Hfirst.
        rewrite (civilFromDays_backward k y m dk (dk - 1) Hk) by lia. f_equal. lia. }
      lia.
Qed.

Lemma month_window_is_calendar_month_witness :
  isoFromDate (startOfMonth (ValidDate 19782)) = "2024-02-01"%string
  /\ isoFromDate (endOfMonth (ValidDate 19782)) = "2024-02-29"%string
  /\ isoFromDate (ValidDate 19782) = "2024-02-29"%string.
Proof.
  destruct (month_window_is_calendar_month 19782 2024 2 29) as (Hs & He & _).
  - reflexivity.
  - lia.
  - lia.
  - rewrite Hs, He. repeat split.
Defined.
(** ** Dates as text: printing and reading back *)

Section IsoText.

Lemma digitsValue_uint_acc (u : Decimal.uint) :
  forall acc : positive,
    digitsValue (Z.pos acc) (NilEmpty.string_of_uint u) = Some (Z.pos (Pos.of_uint_acc u acc)).
Proof.
  induction u; intros acc; cbn [NilEmpty.string_of_uint Pos.of_uint_acc];
    [reflexivity | ..];
    cbn [digitsValue]; match goal with |- context [isDigit ?c] => change (isDigit c) with true end;
    cbv iota; rewrite <- IHu; f_equal;
    match goal with
    | |- context [Z.of_nat ?t] =>
        let v := eval vm_compute in (Z.of_nat t) in change (Z.of_nat t) with v
    end; lia.
Qed.

Lemma digitsValue_uint (u : Decimal.uint) :
  digitsValue 0 (NilEmpty.string_of_uint u) = Some (Z.of_N (Pos.of_uint u)).
Proof.
  induction u; cbn [NilEmpty.string_of_uint Pos.of_uint]; [reflexivity | ..];
    cbn [digitsValue]; match goal with |- context [isDigit ?c] => change (isDigit c) with true end;
    cbv iota.
  1: exact IHu.
  all: cbn [Z.of_N]; rewrite <- digitsValue_uint_acc; reflexivity.
Qed.

Lemma digitsValue_showZ (n : Z) : 0 <= n -> digitsValue 0 (showZ n) = Some n.
Proof.
  intros Hn. unfold showZ. destruct n as [|p|p]; [reflexivity | | lia].
  cbn [Z.to_int NilZero.string_of_int]. unfold NilZero.string_of_uint.
  pose proof (DecimalPos.Unsigned.to_uint_nonnil p) as Hnn.
  pose proof (DecimalPos.Unsigned.of_to p) as Hof.
  destruct (Pos.to_uint p) eqn:E; [contradiction | ..];
    rewrite digitsValue_uint, Hof; reflexivity.
Qed.



Lemma isDigit_plain (c : ascii) :
  isDigit c = true -> isWhite c = false /\ Ascii.eqb c "-" = false.
Proof.
  destruct c as [[] [] [] [] [] [] [] []]; intros H; try discriminate H; split; reflexivity.
Qed.

Lemma digitsValue_head (acc : Z) (c : ascii) (rest : string) (n : Z) :
  digitsValue acc (String c rest) = Some n ->
  isDigit c = true /\ exists acc', digitsValue acc' rest = Some n.
Proof.
  cbn [digitsValue]. destruct (isDigit c); [|discriminate]. eauto.
Qed.

Lemma trimEnd_digits (s : string) :
  forall acc n, digitsValue acc s = Some n -> trimEnd s = s.
Proof.
  induction s as [|c rest IH]; intros acc n H; [reflexivity|].
  destruct (digitsValue_head _ _ _ _ H) as (Hc & acc' & Hrest).
  cbn [trimEnd]. rewrite (IH _ _ Hrest).
  destruct rest; [|reflexivity].
  destruct (isDigit_plain c Hc) as [-> _]. reflexivity.
Qed.

Lemma trim_digits (s : string) (acc n : Z) : digitsValue acc s = Some n -> trim s = s.
Proof.
  intros H. unfold trim.
  destruct s as [|c rest]; [reflexivity|].
  destruct (digitsValue_head _ _ _ _ H) as (Hc & _).
  cbn [trimStart]. destruct (isDigit_plain c Hc) as [-> _].
  exact (trimEnd_digits _ _ _ H).
Qed.

(** [Number] reads a run of decimal digits as its value. *)
Lemma toNumber_digits (s : string) (n : Z) :
  s <> EmptyString -> digitsValue 0 s = Some n -> toNumber s = Some n.
Proof.
  intros Hne H. unfold toNumber. rewrite (trim_digits s 0 n H).
  destruct s as [|c rest]; [contradiction|].
  destruct (digitsValue_head _ _ _ _ H) as (Hc & _).
  destruct c as [[] [] [] [] [] [] [] []]; try discriminate Hc; exact H.
Qed.

Lemma splitOn_digits (s : string) :
  forall acc n, digitsValue acc s = Some n -> splitOn "-" s = [s].
Proof.
  induction s as [|c rest IH]; intros acc n H; [reflexivity|].
  destruct (digitsValue_head _ _ _ _ H) as (Hc & acc' & Hrest).
  cbn [splitOn]. destruct (isDigit_plain c Hc) as [_ ->].
  rewrite (IH _ _ Hrest). reflexivity.
Qed.

Lemma splitOn_digits_then (s t : string) :
  forall acc n, digitsValue acc s = Some n ->
                splitOn "-" (s +:+ String "-" t) = s :: splitOn "-" t.
Proof.
  induction s as [|c rest IH]; intros acc n H.
  - reflexivity.
  - destruct (digitsValue_head _ _ _ _ H) as (Hc & acc' & Hrest).
    change (String c rest +:+ String "-" t) with (String c (rest +:+ String "-" t)).
    cbn [splitOn]. destruct (isDigit_plain c Hc) as [_ ->].
    rewrite (IH _ _ Hrest). reflexivity.
Qed.

Lemma showZ_nonempty (n : Z) : 0 <= n -> showZ n <> EmptyString.
Proof.
  intros Hn. unfold showZ. destruct n as [|p|p]; [discriminate | | lia].
  cbn [Z.to_int NilZero.string_of_int]. unfold NilZero.string_of_uint.
  pose proof (DecimalPos.Unsigned.to_uint_nonnil p) as Hnn.
  destruct (Pos.to_uint p); [contradiction | ..]; discriminate.
Qed.

Lemma digitsValue_pad2 (n : Z) : 0 <= n -> digitsValue 0 (pad2 n) = Some n.
Proof.
  intros Hn. unfold pad2.
  destruct (String.length (showZ n) <? 2)%nat; [|exact (digitsValue_showZ n Hn)].
  change ("0" +:+ showZ n) with (String "0" (showZ n)).
  exact (digitsValue_showZ n Hn).
Qed.

Lemma pad2_nonempty (n : Z) : 0 <= n -> pad2 n <> EmptyString.
Proof.
  intros Hn. unfold pad2.
  destruct (String.length (showZ n) <? 2)%nat; [discriminate | exact (showZ_nonempty n Hn)].
Qed.

End IsoText.

Section IsoDates.

(** Reading back the printed date of a day. *)
Lemma iso_round_trip_days (day y m d : Z) :
  civilFromDays day = (y, m, d) ->
  100 <= y ->
  -100000000 <= day < 100000000 ->
  parseISODate (VStr (isoFromDate (ValidDate day))) = Some (ValidDate day).
Proof.
  intros Hc Hy Hr.
  pose proof (civilFromDays_valid day) as Hv. rewrite Hc in Hv. destruct Hv as [Hm Hd].
  pose proof (daysFromCivil_civilFromDays day) as Hrt. rewrite Hc in Hrt.
  rewrite (daysFromCivil_day y m d) in Hrt.
  unfold isoFromDate. rewrite Hc.
  change (showZ y +:+ "-" +:+ pad2 m +:+ "-" +:+ pad2 d)
    with (showZ y +:+ String "-" (pad2 m +:+ String "-" (pad2 d))).
  unfold parseISODate.
  assert (String.eqb (showZ y +:+ String "-" (pad2 m +:+ String "-" (pad2 d))) "" = false)
    as -> by (destruct (showZ y); reflexivity).
  rewrite (splitOn_digits_then (showZ y) _ 0 y (digitsValue_showZ y ltac:(lia))).
  rewrite (splitOn_digits_then (pad2 m) _ 0 m (digitsValue_pad2 m ltac:(lia))).
  rewrite (splitOn_digits (pad2 d) 0 d (digitsValue_pad2 d ltac:(lia))).
  cbn [map].
  rewrite (toNumber_digits (showZ y) y (showZ_nonempty y ltac:(lia))
             (digitsValue_showZ y ltac:(lia))).
  rewrite (toNumber_digits (pad2 m) m (pad2_nonempty m ltac:(lia))
             (digitsValue_pad2 m ltac:(lia))).
  rewrite (toNumber_digits (pad2 d) d (pad2_nonempty d ltac:(lia))
             (digitsValue_pad2 d ltac:(lia))).
  assert (forall n, 0 < n -> nonZero (Some n) = Some n) as Hnz
    by (intros [|p|p] Hp; [lia | reflexivity | lia]).
  rewrite !Hnz by lia.
  rewrite newDate_plain by lia.
  rewrite <- (clipDay_inside day Hr). do 2 f_equal. lia.
Qed.

End IsoDates.

(** X3: a date printed by [isoFromDate] is read back by [parseISODate] as
    the same date, for every day of the range of [Date] whose year is at
    least 100 (a year below 100 is read back as a year of the twentieth
    century, and a negative year does not parse); so two such days that
    print the same text are the same day. *)
Theorem iso_text_round_trip (day y m d : Z) :
  civilFromDays day = (y, m, d) ->
  100 <= y ->
  -100000000 <= day < 100000000 ->
  parseISODate (VStr (isoFromDate (ValidDate day))) = Some (ValidDate day)
  /\ (forall day' y' m' d',
        civilFromDays day' = (y', m', d') -> 100 <= y' ->
        -100000000 <= day' < 100000000 ->
        isoFromDate (ValidDate day') = isoFromDate (ValidDate day) -> day' = day).
Proof.
  intros Hc Hy Hr.
  pose proof (iso_round_trip_days day y m d Hc Hy Hr) as Hback.
  split; [exact Hback|].
  intros day' y' m' d' Hc' Hy' Hr' Heq.
  pose proof (iso_round_trip_days day' y' m' d' Hc' Hy' Hr') as Hback'.
  rewrite Heq, Hback in Hback'. injection Hback' as ->. reflexivity.
Qed.

Lemma iso_text_round_trip_witness :
  isoFromDate (ValidDate 19782) = "2024-02-29"%string
  /\ parseISODate (VStr (isoFromDate (ValidDate 19782))) = Some (ValidDate 19782).
Proof.
  split; [reflexivity|].
  apply (proj1 (iso_text_round_trip 19782 2024 2 29 eq_refl ltac:(lia) ltac:(lia))).
Defined.

(** ** Running the mutators on abstract states *)

Ltac flat2 :=
  cbn [world reads base overlays merged pendingAiPayload stored setOverlays tick
       version updated_at deletions task_overrides new_tasks recurrence_overrides learning
       withUpdatedAt withDeletions withOverrides withNewTasks withLearning withRecurrence
       completion_log move_log stats_moves stats_completes moved completed].

(** Run the next call of a sequence with the lemma [L] about it. *)
Ltac run L := apply returns_bind; eapply returns_weaken; [apply L|]; cbv beta.

Section Evolution.

Lemma evolves_trans (n k : nat) (F G : Overlays -> Overlays) (st st1 st2 : State) :
  evolves n F st st1 -> evolves k G st1 st2 -> evolves (k + n) (fun o => G (F o)) st st2.
Proof.
  intros (Hw & Hr & Hb & Ho & Hp) (Hw2 & Hr2 & Hb2 & Ho2 & Hp2).
  unfold evolves. rewrite Hw2, Hr2, Hb2, Ho2, Hp2, Hw, Hr, Hb, Ho, Hp.
  repeat split; try reflexivity. lia.
Qed.

Lemma modify_ev (f : Overlays -> Overlays) (st : State) :
  returns (modifyOverlays f) st (fun _ st' => evolves 0 f st st' /\ merged st' = merged st).
Proof. apply returns_modify. unfold evolves. flat2. repeat split. Qed.

Lemma now_ev (st : State) :
  returns nowISO st (fun t st' =>
    t = isoAt (world st) (reads st)
    /\ evolves 1 (fun o => o) st st' /\ merged st' = merged st).
Proof. apply returns_now. unfold evolves. flat2. repeat split. Qed.

Lemma today_ev (st : State) :
  returns todayLocalISO st (fun t st' =>
    t = todayAt (world st) (reads st)
    /\ evolves 1 (fun o => o) st st' /\ merged st' = merged st).
Proof. apply returns_today. unfold evolves. flat2. repeat split. Qed.

Lemma withOverrides_same (o : Overlays) : withOverrides (fun m => m) o = o.
Proof. destruct o. reflexivity. Qed.

Lemma ensurePatch_ev (id : jsval) (st : State) :
  returns (ensurePatch id) st (fun p st' =>
    p = patchOf (overlays st) id
    /\ evolves 0 (withOverrides (ensureKey (toPropertyKey id))) st st'
    /\ merged st' = merged st).
Proof.
  apply returns_ensurePatch; unfold patchOf, evolves.
  - intros p Hp. rewrite Hp. repeat split.
    destruct (overlays st) as [v u d t n r l] eqn:E. cbn [task_overrides] in Hp.
    unfold withOverrides, ensureKey. cbn [task_overrides version updated_at deletions
      new_tasks recurrence_overrides learning]. rewrite Hp. reflexivity.
  - intros Hp. rewrite Hp. flat2. repeat split.
    unfold withOverrides, ensureKey. rewrite Hp. reflexivity.
Qed.

Lemma ensureKey_lookup (key : string) (m : gmap string obj) :
  ensureKey key m !! key = Some (match m !! key with Some p => p | None => [] end).
Proof.
  unfold ensureKey. destruct (m !! key) eqn:E; [exact E | apply lookup_insert_eq].
Qed.

Lemma ensureKey_lookup_ne (key k : string) (m : gmap string obj) :
  k <> key -> ensureKey key m !! k = m !! k.
Proof.
  intros Hne. unfold ensureKey.
  destruct (m !! key); [reflexivity | apply lookup_insert_ne; congruence].
Qed.

Lemma writePatch_ev (id : jsval) (field : string) (v : jsval) (st : State) :
  returns (writePatch id field v) st (fun _ st' =>
    evolves 0 (withOverrides (alter (setProp field v) (toPropertyKey id))) st st'
    /\ merged st' = merged st).
Proof. apply modify_ev. Qed.

Lemma logMove_ev (id from to : jsval) (reason : string) (st : State) :
  returns (logMove id from to reason) st (fun _ st' =>
    evolves 1
      (withLearning
         (moved (VObj [("id", id); ("from", from); ("to", to); ("reason", VStr reason);
                       ("at", VStr (isoAt (world st) (reads st)))])))
      st st'
    /\ merged st' = merged st).
Proof.
  unfold logMove. repeat step. unfold evolves. flat2. repeat split.
Qed.

Lemma logComplete_ev (id : jsval) (done : bool) (st : State) :
  returns (logComplete id done) st (fun _ st' =>
    evolves 1
      (withLearning
         (completed (VObj [("id", id); ("completed", VBool done);
                           ("at", VStr (isoAt (world st) (reads st)))])))
      st st'
    /\ merged st' = merged st).
Proof.
  unfold logComplete. repeat step. unfold evolves. flat2. repeat split.
Qed.

Lemma saveOverlays_ev (st : State) :
  returns saveOverlays st (fun _ st' =>
    evolves 1 (withUpdatedAt (VStr (isoAt (world st) (reads st)))) st st'
    /\ merged st' = merged st
    /\ stored st' = Some (overlays st')).
Proof.
  unfold saveOverlays. repeat step. unfold evolves. flat2. repeat split.
Qed.

(** The end of every mutating action: save, then merge again. *)
Lemma save_merge_ev (st : State) :
  returns (saveOverlays ;;; remerge) st (fun _ st' =>
    evolves 1 (withUpdatedAt (VStr (isoAt (world st) (reads st)))) st st'
    /\ synced st').
Proof.
  unfold saveOverlays. repeat step. unfold evolves, synced. flat2. repeat split.
Qed.

End Evolution.

(** ** The merged view and the patches it reads *)

Section MergedView.

(** A value that is the same as itself under [SameValueZero] is a
    primitive, and equal values have the same property key. *)
Lemma sameValueZero_eq (a b : jsval) : sameValueZero a b = true -> a = b.
Proof.
  destruct a as [| |x|x|x|x|x], b as [| |y|y|y|y|y]; cbn [sameValueZero];
    intros H; try discriminate H; try reflexivity.
  - apply Bool.eqb_prop in H. congruence.
  - apply Z.eqb_eq in H. congruence.
  - apply String.eqb_eq in H. congruence.
Qed.

(** The merged items depend on [task_overrides] only through the keys that
    are ids of base items. *)
Lemma mergeData_overrides_ext (b : obj) (ov ov' : Overlays) :
  deletions ov' = deletions ov ->
  new_tasks ov' = new_tasks ov ->
  (forall t, In t (arrayOrEmpty (getField (VObj b) "tasks")
                   ++ arrayOrEmpty (getField (VObj b) "events")) ->
             task_overrides ov' !! toPropertyKey (getField t "id")
             = task_overrides ov !! toPropertyKey (getField t "id")) ->
  tasks (mergeData b ov') = tasks (mergeData b ov)
  /\ events (mergeData b ov') = events (mergeData b ov).
Proof.
  intros Hd Hn Hk. unfold mergeData. cbn [tasks events]. rewrite Hd, Hn.
  split; [f_equal|]; apply map_ext_in; intros t Ht; apply filter_In in Ht as [Ht _];
    unfold applyOverride; rewrite Hk; try reflexivity; apply in_or_app; auto.
Qed.

Lemma baseHasKey_false (b : obj) (key : string) (t : jsval) :
  baseHasKey b key = false ->
  In t (arrayOrEmpty (getField (VObj b) "tasks")
        ++ arrayOrEmpty (getField (VObj b) "events")) ->
  toPropertyKey (getField t "id") <> key.
Proof.
  unfold baseHasKey. intros H Hin Heq.
  assert (existsb (fun t => String.eqb (toPropertyKey (getField t "id")) key)
                  (arrayOrEmpty (getField (VObj b) "tasks")
                   ++ arrayOrEmpty (getField (VObj b) "events")) = true) as Hex.
  { apply existsb_exists. exists t. split; [exact Hin | apply String.eqb_eq; exact Heq]. }
  rewrite Hex in H. discriminate.
Qed.

End MergedView.

Section Moves.

Lemma moveToToday_run (id : jsval) (reason : string) (st : State) :
  returns (moveToToday id reason) st (fun _ st' =>
    let today := VStr (todayAt (world st) (reads st)) in
    evolves 3
      (fun o =>
         withUpdatedAt (VStr (isoAt (world st) (S (S (reads st)))))
           (withLearning
              (moved (VObj [("id", id);
                            ("from",
                             VObj [("start_date",
                                    jsCoalesce (getField (VObj (patchOf o id)) "start_date") VNull);
                                   ("due_date",
                                    jsCoalesce (getField (VObj (patchOf o id)) "due_date") VNull)]);
                            ("to", VObj [("start_date", today); ("due_date", today)]);
                            ("reason", VStr reason);
                            ("at", VStr (isoAt (world st) (S (reads st))))]))
              (withOverrides
                 (fun m => alter (setProp "due_date" today) (toPropertyKey id)
                             (alter (setProp "start_date" today) (toPropertyKey id)
                                (ensureKey (toPropertyKey id) m)))
                 o)))
      st st'
    /\ synced st').
Proof.
  unfold moveToToday. cbv zeta.
  run ensurePatch_ev. intros p st1 (-> & E1 & _).
  run today_ev. intros today st2 (-> & E2 & _).
  run writePatch_ev. intros _ st3 (E3 & _).
  run writePatch_ev. intros _ st4 (E4 & _).
  run logMove_ev. intros _ st5 (E5 & _).
  eapply returns_weaken; [apply save_merge_ev|]. cbv beta. intros _ st6 (E6 & Hs).
  split; [|exact Hs].
  pose proof (evolves_trans _ _ _ _ _ _ _
                (evolves_trans _ _ _ _ _ _ _
                   (evolves_trans _ _ _ _ _ _ _
                      (evolves_trans _ _ _ _ _ _ _
                         (evolves_trans _ _ _ _ _ _ _ E1 E2) E3) E4) E5) E6) as E.
  destruct E1 as (Hw1 & Hr1 & _), E2 as (Hw2 & Hr2 & _), E3 as (Hw3 & Hr3 & _),
    E4 as (Hw4 & Hr4 & _), E5 as (Hw5 & Hr5 & _).
  rewrite Hw5, Hw4, Hw3, Hw2, Hw1, Hr5, Hr4, Hr3, Hr2, Hr1 in E.
  destruct E as (Hw & Hr & Hb & Ho & Hp).
  unfold evolves. rewrite Hw, Hr, Hb, Ho, Hp.
  repeat split; reflexivity.
Qed.

(** The patch of [id] after the two writes of [moveToToday]. *)
Lemma patch_after_two_writes (m : gmap string obj) (key k1 k2 : string) (v1 v2 : jsval) :
  alter (setProp k2 v2) key (alter (setProp k1 v1) key (ensureKey key m)) !! key
  = Some (setProp k2 v2 (setProp k1 v1 (match m !! key with Some p => p | None => [] end))).
Proof. rewrite !lookup_alter_eq, ensureKey_lookup. reflexivity. Qed.

Lemma patch_after_two_writes_ne (m : gmap string obj) (key k k1 k2 : string) (v1 v2 : jsval) :
  k <> key ->
  alter (setProp k2 v2) key (alter (setProp k1 v1) key (ensureKey key m)) !! k = m !! k.
Proof.
  intros Hne. rewrite !lookup_alter_ne by congruence. apply ensureKey_lookup_ne. exact Hne.
Qed.

End Moves.

(** X4: [moveToToday(id)] on an id that no base task or event carries (an
    item that exists only in [new_tasks], created by Quick Add or by an
    [add] op) records the two dates in the patch of [id], logs the move,
    and leaves the merged tasks and events as they were: [mergeData] applies
    patches to base items only, so the item keeps the dates it had. *)
Theorem move_to_today_misses_new_tasks (st : State) (id : jsval) (reason : string) :
  baseHasKey (base st) (toPropertyKey id) = false ->
  returns (moveToToday id reason) st (fun _ st' =>
    getField (VObj (patchOf (overlays st') id)) "due_date"
    = VStr (todayAt (world st) (reads st))
    /\ getField (VObj (patchOf (overlays st') id)) "start_date"
       = VStr (todayAt (world st) (reads st))
    /\ stats_moves (learning (overlays st')) = stats_moves (learning (overlays st)) + 1
    /\ mergedTasks (merged st') = tasks (mergeData (base st) (overlays st))
    /\ mergedEvents (merged st') = events (mergeData (base st) (overlays st))).
Proof.
  intros Hkey.
  eapply returns_weaken; [apply moveToToday_run|]. cbv beta zeta.
  intros _ st' ((_ & _ & Hb & Ho & _) & (Hm & _)).
  rewrite Hm, Hb, Ho. unfold patchOf. flat2.
  rewrite patch_after_two_writes, !getField_setProp. cbn [String.eqb Ascii.eqb Bool.eqb].
  split; [reflexivity|]. split; [reflexivity|]. split; [reflexivity|].
  cbn [mergedTasks mergedEvents].
  apply mergeData_overrides_ext; flat2; try reflexivity.
  intros t Ht. apply patch_after_two_writes_ne.
  exact (baseHasKey_false _ _ _ Hkey Ht).
Qed.

Lemma move_to_today_misses_new_tasks_witness :
  returns (moveToToday (VStr "temp_lw3k9") "manual")
          (bootState steadyWorld oneTaskBase quickAddedOverlays)
          (fun _ st' =>
             map (fun t => (getField t "id", getField t "due_date")) (mergedTasks (merged st'))
             = [(VStr "t1", VStr "2024-01-10"); (VStr "temp_lw3k9", VStr "2024-01-10")]
             /\ getField (VObj (patchOf (overlays st') (VStr "temp_lw3k9"))) "due_date"
                = VStr "2024-05-01").
Proof.
  eapply returns_weaken.
  - apply (move_to_today_misses_new_tasks
             (bootState steadyWorld oneTaskBase quickAddedOverlays) (VStr "temp_lw3k9") "manual").
    vm_compute. reflexivity.
  - cbv beta. intros _ st' (Hd & _ & _ & Ht & _).
    rewrite Ht, Hd. vm_compute. split; reflexivity.
Defined.

(** ** Objects: a write to one key leaves the other keys alone *)

Section ObjectWrites.

Lemma assign_lookup_congr (k : string) (src : obj) :
  forall o1 o2, lookupProp k o1 = lookupProp k o2 ->
                lookupProp k (assign o1 src) = lookupProp k (assign o2 src).
Proof.
  unfold assign.
  induction src as [|[k0 v0] rest IH]; intros o1 o2 H; cbn [fold_left fst snd]; [exact H|].
  apply IH. rewrite !lookupProp_setProp. rewrite H. reflexivity.
Qed.

(** Spreading a patch in which one key was rewritten gives, at every other
    key, what spreading the patch gave. *)
Lemma lookupProp_assign_setProp_other (k k' : string) (v : jsval) (p : obj) :
  k <> k' ->
  forall o, lookupProp k (assign o (setProp k' v p)) = lookupProp k (assign o p).
Proof.
  intros Hne. induction p as [|[k0 v0] rest IH]; intros o.
  - unfold assign. cbn [setProp fold_left fst snd]. rewrite lookupProp_setProp.
    destruct (String.eqb_spec k k'); [contradiction | reflexivity].
  - cbn [setProp]. destruct (String.eqb_spec k' k0) as [->|Hk].
    + unfold assign. cbn [fold_left fst snd].
      apply (assign_lookup_congr k rest). rewrite !lookupProp_setProp.
      destruct (String.eqb_spec k k0); [contradiction | reflexivity].
    + unfold assign in *. cbn [fold_left fst snd]. apply IH.
Qed.

Lemma lookupProp_In (k : string) (v : jsval) (p : obj) :
  lookupProp k p = Some v -> In (k, v) p.
Proof.
  induction p as [|[k0 v0] rest IH]; cbn [lookupProp]; [discriminate|].
  destruct (String.eqb_spec k k0) as [->|Hne].
  - intros H. injection H as ->. left; reflexivity.
  - intros H. right. exact (IH H).
Qed.

Lemma setProp_keys (k a : string) (v : jsval) (p : obj) :
  In a (map fst (setProp k v p)) -> a = k \/ In a (map fst p).
Proof.
  induction p as [|[k0 v0] rest IH]; cbn [setProp map fst In].
  - intros [<- | []]. left; reflexivity.
  - destruct (String.eqb_spec k k0) as [->|Hne]; cbn [map fst In].
    + intros [<- | H]; auto.
    + intros [<- | H]; [auto|]. destruct (IH H); auto.
Qed.

(** Writing a property keeps every key once. *)
Lemma setProp_NoDup (k : string) (v : jsval) (p : obj) :
  NoDup (map fst p) -> NoDup (map fst (setProp k v p)).
Proof.
  induction p as [|[k0 v0] rest IH]; cbn [setProp map fst]; intros H.
  - apply NoDup_singleton.
  - apply NoDup_cons in H as [Hnotin Hnd].
    destruct (String.eqb_spec k k0) as [->|Hne]; cbn [map fst].
    + apply NoDup_cons. split; assumption.
    + apply NoDup_cons. split; [|exact (IH Hnd)].
      intros Hin. apply list_elem_of_In in Hin.
      destruct (setProp_keys _ _ _ _ Hin) as [-> | Hin']; [congruence|].
      apply Hnotin. apply list_elem_of_In. exact Hin'.
Qed.

(** In [{...t, ...p}] a key of the patch [p] has the value the patch gives
    it. *)
Lemma getField_spread_patch (k : string) (o p : obj) :
  NoDup (map fst p) -> lookupProp k p <> None ->
  getField (VObj (spread2 (VObj o) (VObj p))) k = getField (VObj p) k.
Proof.
  intros Hnd Hk. unfold getField, spread2. cbn [ownEntries].
  destruct (lookupProp k p) as [v|] eqn:E; [|contradiction].
  rewrite (lookupProp_assign_unique k v p o Hnd (lookupProp_In _ _ _ E)). reflexivity.
Qed.

End ObjectWrites.

(** X5: after [moveToToday(id)], a surviving base task whose id is [id]
    appears in the merged tasks with today as its start date and as its due
    date and with every other property as before; the move is appended to
    the move log, which keeps at most 400 entries. *)
Theorem move_to_today_shows_today (st : State) (id : jsval) (reason : string) (t : jsval) :
  In t (arrayOrEmpty (getField (VObj (base st)) "tasks")) ->
  survives (deletions (overlays st)) t = true ->
  toPropertyKey (getField t "id") = toPropertyKey id ->
  NoDup (map fst (patchOf (overlays st) id)) ->
  returns (moveToToday id reason) st (fun _ st' =>
    In (applyOverride (task_overrides (overlays st')) t) (mergedTasks (merged st'))
    /\ getField (applyOverride (task_overrides (overlays st')) t) "start_date"
       = VStr (todayAt (world st) (reads st))
    /\ getField (applyOverride (task_overrides (overlays st')) t) "due_date"
       = VStr (todayAt (world st) (reads st))
    /\ (forall k, k <> "start_date" -> k <> "due_date" ->
          getField (applyOverride (task_overrides (overlays st')) t) k
          = getField (applyOverride (task_overrides (overlays st)) t) k)
    /\ move_log (learning (overlays st'))
       = sliceLast 400
           (move_log (learning (overlays st))
            ++ [VObj [("id", id);
                      ("from",
                       VObj [("start_date",
                              jsCoalesce (getField (VObj (patchOf (overlays st) id)) "start_date")
                                         VNull);
                             ("due_date",
                              jsCoalesce (getField (VObj (patchOf (overlays st) id)) "due_date")
                                         VNull)]);
                      ("to", VObj [("start_date", VStr (todayAt (world st) (reads st)));
                                   ("due_date", VStr (todayAt (world st) (reads st)))]);
                      ("reason", VStr reason);
                      ("at", VStr (isoAt (world st) (S (reads st))))]])
    /\ (length (move_log (learning (overlays st'))) <= 400)%nat).
Proof.
  intros Hin Hs Hkey Hnd.
  destruct (survives_inv _ _ Hs) as (o & -> & _ & _).
  eapply returns_weaken; [apply moveToToday_run|]. cbv beta zeta.
  intros _ st' ((_ & _ & Hb & Ho & _) & (Hm & _)).
  set (today := VStr (todayAt (world st) (reads st))) in *.
  set (p0 := patchOf (overlays st) id) in *.
  assert (applyOverride (task_overrides (overlays st')) (VObj o)
          = VObj (spread2 (VObj o)
                    (VObj (setProp "due_date" today (setProp "start_date" today p0)))))
    as Happ.
  { unfold applyOverride. rewrite Hkey, Ho. flat2. rewrite patch_after_two_writes.
    reflexivity. }
  assert (applyOverride (task_overrides (overlays st)) (VObj o) = VObj (assign o p0)) as Hold.
  { unfold applyOverride. rewrite Hkey. subst p0. unfold patchOf.
    destruct (task_overrides (overlays st) !! toPropertyKey id); reflexivity. }
  rewrite Happ, Hold.
  assert (NoDup (map fst (setProp "due_date" today (setProp "start_date" today p0)))) as Hnd'
    by (apply setProp_NoDup, setProp_NoDup; exact Hnd).
  split; [|split; [|split; [|split; [|split]]]].
  - rewrite Hm, Hb. cbn [mergedTasks]. unfold mergeData. cbn [tasks].
    apply in_or_app. left. rewrite <- Happ. apply in_map. apply filter_In.
    split; [exact Hin|]. rewrite Ho. flat2. exact Hs.
  - rewrite getField_spread_patch; [rewrite !getField_setProp; reflexivity | exact Hnd' |].
    rewrite !lookupProp_setProp. cbn [String.eqb Ascii.eqb Bool.eqb]. discriminate.
  - rewrite getField_spread_patch; [rewrite !getField_setProp; reflexivity | exact Hnd' |].
    rewrite !lookupProp_setProp. cbn [String.eqb Ascii.eqb Bool.eqb]. discriminate.
  - intros k Hk1 Hk2. unfold getField, spread2. cbn [ownEntries].
    rewrite !lookupProp_assign_setProp_other by assumption. reflexivity.
  - rewrite Ho. flat2. reflexivity.
  - rewrite Ho. flat2. apply sliceLast_length.
Qed.

Lemma move_to_today_shows_today_witness :
  returns (moveToToday (VStr "t1") "manual")
          (bootState steadyWorld oneTaskBase freshOverlays)
          (fun _ st' =>
             mergedTasks (merged st')
             = [VObj [("id", VStr "t1"); ("title", VStr "Draft report");
                      ("due_date", VStr "2024-05-01"); ("start_date", VStr "2024-05-01")]]).
Proof.
  pose proof (move_to_today_shows_today
                (bootState steadyWorld oneTaskBase freshOverlays) (VStr "t1") "manual"
                (VObj [("id", VStr "t1"); ("title", VStr "Draft report");
                       ("due_date", VStr "2024-01-10")])) as H.
  destruct H as (a & st' & Hrun & _).
  - vm_compute. left; reflexivity.
  - vm_compute. reflexivity.
  - reflexivity.
  - vm_compute. constructor.
  - exists a, st'. split; [exact Hrun|].
    assert (st' = snd (moveToToday (VStr "t1") "manual"
                         (bootState steadyWorld oneTaskBase freshOverlays))) as ->
      by (rewrite Hrun; reflexivity).
    vm_compute. reflexivity.
Defined.

(** ** Completing and reopening *)

Section Toggle.

Lemma findById_key (id x : jsval) (xs : list jsval) :
  findById id xs = Some x ->
  In x xs /\ getField x "id" = id.
Proof.
  unfold findById. intros H. apply find_some in H as [Hin Heq].
  split; [exact Hin | exact (sameValueZero_eq _ _ Heq)].
Qed.

(** The status that [getStatus] reads for an item whose patch holds the
    status [s]. *)
Lemma getStatus_patched (ov : Overlays) (x : jsval) (p : obj) (s : string) :
  task_overrides ov !! toPropertyKey (getField x "id") = Some p ->
  getField (VObj p) "status" = VStr s -> s <> EmptyString ->
  getStatus ov x = if String.eqb s "completed" then "completed" else "open".
Proof.
  intros Hp Hs Hne. unfold getStatus. rewrite Hp, Hs. unfold jsOr. cbn [truthy].
  destruct (String.eqb_spec s ""); [contradiction|]. cbn [negb truthy].
  rewrite (proj2 (String.eqb_neq s "")) by assumption. cbn [negb isStr]. reflexivity.
Qed.

(** An empty patch created by [ensurePatch] changes no status. *)
Lemma getStatus_ensureKey (ov : Overlays) (key : string) (x : jsval) :
  getStatus (withOverrides (ensureKey key) ov) x = getStatus ov x.
Proof.
  unfold getStatus. flat2.
  destruct (String.eqb_spec (toPropertyKey (getField x "id")) key) as [->|Hne].
  - rewrite ensureKey_lookup. destruct (task_overrides ov !! key); reflexivity.
  - rewrite ensureKey_lookup_ne by exact Hne. reflexivity.
Qed.

Lemma getStatus_two_values (ov : Overlays) (x : jsval) :
  getStatus ov x = "completed"%string \/ getStatus ov x = "open"%string.
Proof. unfold getStatus. destruct (isStr _ _); auto. Qed.

Lemma toggleComplete_run (st : State) (id item : jsval) :
  findById id (mergedTasks (merged st) ++ mergedEvents (merged st)) = Some item ->
  returns (toggleComplete id) st (fun _ st' =>
    let was := String.eqb (getStatus (overlays st) item) "completed" in
    overlays st'
    = withUpdatedAt
        (VStr (isoAt (world st) (if was then S (reads st) else S (S (reads st)))))
        (withLearning
           (completed (VObj [("id", id); ("completed", VBool (negb was));
                             ("at", VStr (isoAt (world st)
                                            (if was then reads st else S (reads st))))]))
           (withOverrides
              (fun m =>
                 alter (setProp "completed_at"
                          (if was then VNull else VStr (isoAt (world st) (reads st))))
                       (toPropertyKey id)
                       (alter (setProp "status" (VStr (if was then "open" else "completed")))
                              (toPropertyKey id)
                              (ensureKey (toPropertyKey id) m)))
              (overlays st)))
    /\ base st' = base st
    /\ world st' = world st
    /\ synced st').
Proof.
  intros Hfind. unfold toggleComplete. cbv zeta.
  apply returns_bind, returns_getMerged. rewrite Hfind.
  run ensurePatch_ev. intros p st1 (_ & E1 & _).
  apply returns_bind, returns_getOverlays.
  assert (getStatus (overlays st1) item = getStatus (overlays st) item) as Hst.
  { destruct E1 as (_ & _ & _ & Ho & _). rewrite Ho. apply getStatus_ensureKey. }
  rewrite Hst.
  destruct (String.eqb (getStatus (overlays st) item) "completed"); cbn [negb].
  - run writePatch_ev. intros _ st2 (E2 & _).
    run writePatch_ev. intros _ st3 (E3 & _).
    run logComplete_ev. intros _ st4 (E4 & _).
    eapply returns_weaken; [apply save_merge_ev|]. cbv beta. intros _ st5 (E5 & Hs).
    pose proof (evolves_trans _ _ _ _ _ _ _
                  (evolves_trans _ _ _ _ _ _ _
                     (evolves_trans _ _ _ _ _ _ _
                        (evolves_trans _ _ _ _ _ _ _ E1 E2) E3) E4) E5) as E.
    destruct E1 as (Hw1 & Hr1 & _), E2 as (Hw2 & Hr2 & _), E3 as (Hw3 & Hr3 & _),
      E4 as (Hw4 & Hr4 & _).
    rewrite Hw4, Hw3, Hw2, Hw1, Hr4, Hr3, Hr2, Hr1 in E.
    destruct E as (Hw & Hr & Hb & Ho & Hp).
    split; [rewrite Ho; reflexivity|]. split; [exact Hb|]. split; [exact Hw | exact Hs].
  - run writePatch_ev. intros _ st2 (E2 & _).
    apply returns_bind.
    run now_ev. intros t st3 (-> & E3 & _).
    eapply returns_weaken; [apply writePatch_ev|]. cbv beta. intros _ st4 (E4 & _).
    run logComplete_ev. intros _ st5 (E5 & _).
    eapply returns_weaken; [apply save_merge_ev|]. cbv beta. intros _ st6 (E6 & Hs).
    pose proof (evolves_trans _ _ _ _ _ _ _
                  (evolves_trans _ _ _ _ _ _ _
                     (evolves_trans _ _ _ _ _ _ _
                        (evolves_trans _ _ _ _ _ _ _
                           (evolves_trans _ _ _ _ _ _ _ E1 E2) E3) E4) E5) E6) as E.
    destruct E1 as (Hw1 & Hr1 & _), E2 as (Hw2 & Hr2 & _), E3 as (Hw3 & Hr3 & _),
      E4 as (Hw4 & Hr4 & _), E5 as (Hw5 & Hr5 & _).
    rewrite Hw5, Hw4, Hw3, Hw2, Hw1, Hr5, Hr4, Hr3, Hr2, Hr1 in E.
    destruct E as (Hw & Hr & Hb & Ho & Hp).
    split; [rewrite Ho; reflexivity|]. split; [exact Hb|]. split; [exact Hw | exact Hs].
Qed.

End Toggle.

(** X6: [toggleComplete(id)] on an item of the merged view flips its status:
    afterwards [getStatus] reads [open] for every item with that id when
    the item was completed, and [completed] when it was open; the patch
    holds the completion time or [null]; one entry goes to the completion
    log, which keeps at most 400; and the saved overlay and the merged view
    are those of the new overlay. *)
Theorem toggle_complete_flips_status (st : State) (id item : jsval) :
  findById id (mergedTasks (merged st) ++ mergedEvents (merged st)) = Some item ->
  returns (toggleComplete id) st (fun _ st' =>
    (forall x, toPropertyKey (getField x "id") = toPropertyKey id ->
       getStatus (overlays st') x
       = if String.eqb (getStatus (overlays st) item) "completed"
         then "open"%string else "completed"%string)
    /\ getField (VObj (patchOf (overlays st') id)) "completed_at"
       = (if String.eqb (getStatus (overlays st) item) "completed"
          then VNull else VStr (isoAt (world st) (reads st)))
    /\ completion_log (learning (overlays st'))
       = sliceLast 400
           (completion_log (learning (overlays st))
            ++ [VObj [("id", id);
                      ("completed",
                       VBool (negb (String.eqb (getStatus (overlays st) item) "completed")));
                      ("at",
                       VStr (isoAt (world st)
                               (if String.eqb (getStatus (overlays st) item) "completed"
                                then reads st else S (reads st))))]])
    /\ (length (completion_log (learning (overlays st'))) <= 400)%nat
    /\ stats_completes (learning (overlays st'))
       = stats_completes (learning (overlays st)) + 1
    /\ synced st').
Proof.
  intros Hfind.
  eapply returns_weaken; [apply (toggleComplete_run st id item Hfind)|]. cbv beta zeta.
  intros _ st' (Ho & _ & _ & Hs).
  set (was := String.eqb (getStatus (overlays st) item) "completed") in *.
  rewrite Ho. unfold patchOf. flat2. rewrite patch_after_two_writes.
  split; [|split; [|split; [|split; [|split]]]]; try reflexivity.
  - intros x Hx.
    erewrite (getStatus_patched _ x _ (if was then "open" else "completed")).
    + destruct was; reflexivity.
    + flat2. rewrite Hx. apply patch_after_two_writes.
    + rewrite !getField_setProp. reflexivity.
    + destruct was; discriminate.
  - rewrite !getField_setProp. reflexivity.
  - apply sliceLast_length.
  - exact Hs.
Qed.

Lemma toggle_complete_flips_status_witness :
  returns (toggleComplete (VStr "e1"))
          (bootState steadyWorld twoEventsBase eventPatchOverlays)
          (fun _ st' =>
             getStatus (overlays st') (VObj [("id", VStr "e1")]) = "open"%string
             /\ getField (VObj (patchOf (overlays st') (VStr "e1"))) "completed_at" = VNull).
Proof.
  eapply returns_weaken.
  - apply (toggle_complete_flips_status
             (bootState steadyWorld twoEventsBase eventPatchOverlays) (VStr "e1")
             (VObj [("id", VStr "e1"); ("title", VStr "Kickoff (moved)");
                    ("due_date", VStr "2024-03-01"); ("status", VStr "completed")])).
    vm_compute. reflexivity.
  - cbv beta. intros _ st' (Hx & Hc & _).
    split; [exact (Hx (VObj [("id", VStr "e1")]) eq_refl) | exact Hc].
Defined.

(** ** Doing it twice *)

Section Twice.

(** Two writes to the patch of [key] change no other property of the merged
    item. *)
Lemma applyOverride_two_writes (m : gmap string obj) (key k1 k2 k : string)
      (v1 v2 : jsval) (o : obj) :
  k <> k1 -> k <> k2 ->
  getField (applyOverride (alter (setProp k2 v2) key
                             (alter (setProp k1 v1) key (ensureKey key m))) (VObj o)) k
  = getField (applyOverride m (VObj o)) k.
Proof.
  intros H1 H2. unfold applyOverride.
  destruct (String.eqb_spec (toPropertyKey (getField (VObj o) "id")) key) as [->|Hne].
  - rewrite patch_after_two_writes. unfold getField at 1, spread2. cbn [ownEntries].
    rewrite !lookupProp_assign_setProp_other by assumption.
    destruct (m !! key); reflexivity.
  - rewrite patch_after_two_writes_ne by exact Hne. reflexivity.
Qed.

Lemma applyOverride_one_write (m : gmap string obj) (key k1 k : string)
      (v1 : jsval) (o : obj) :
  k <> k1 ->
  getField (applyOverride (alter (setProp k1 v1) key (ensureKey key m)) (VObj o)) k
  = getField (applyOverride m (VObj o)) k.
Proof.
  intros H1. unfold applyOverride.
  destruct (String.eqb_spec (toPropertyKey (getField (VObj o) "id")) key) as [->|Hne].
  - rewrite lookup_alter_eq, ensureKey_lookup. cbn [fmap option_fmap option_map].
    unfold getField at 1, spread2. cbn [ownEntries].
    rewrite !lookupProp_assign_setProp_other by assumption.
    destruct (m !! key); reflexivity.
  - rewrite lookup_alter_ne, ensureKey_lookup_ne by congruence. reflexivity.
Qed.

(** The ids of the merged items stay when the overlay changes only in
    patch properties other than [id]. *)
Lemma merged_ids_stable (b : obj) (ov ov' : Overlays) :
  deletions ov' = deletions ov ->
  new_tasks ov' = new_tasks ov ->
  (forall o, getField (applyOverride (task_overrides ov') (VObj o)) "id"
             = getField (applyOverride (task_overrides ov) (VObj o)) "id") ->
  idsOf (tasks (mergeData b ov')) = idsOf (tasks (mergeData b ov))
  /\ idsOf (events (mergeData b ov')) = idsOf (events (mergeData b ov)).
Proof.
  intros Hd Hn Hid. unfold mergeData, idsOf. cbn [tasks events]. rewrite Hd, Hn.
  rewrite !map_app, !map_map.
  split; [f_equal|]; apply map_ext_in; intros t Ht; apply filter_In in Ht as [_ Hs];
    destruct (survives_inv _ _ Hs) as (o & -> & _); apply Hid.
Qed.

Lemma findById_ids (id : jsval) (l : list jsval) :
  forall l', idsOf l' = idsOf l ->
             forall x, findById id l = Some x -> exists x', findById id l' = Some x'.
Proof.
  unfold findById, idsOf.
  induction l as [|a l IH]; intros [|a' l'] Hids x Hx; cbn [map List.find] in *;
    try discriminate.
  injection Hids as Ha Hl.
  rewrite Ha. destruct (sameValueZero (getField a "id") id); [eauto|].
  exact (IH l' Hl x Hx).
Qed.

End Twice.

(** X7: toggling an item of the merged view twice gives it back the status
    it had: after the second [toggleComplete(id)], [getStatus] reads for
    every item with that id what it read for the item before the first, and
    the [completes] counter has grown by two. *)
Theorem toggle_complete_twice (st : State) (id item : jsval) :
  merged st = Some (mergeData (base st) (overlays st)) ->
  findById id (mergedTasks (merged st) ++ mergedEvents (merged st)) = Some item ->
  returns (toggleComplete id ;;; toggleComplete id) st (fun _ st' =>
    (forall x, toPropertyKey (getField x "id") = toPropertyKey id ->
       getStatus (overlays st') x = getStatus (overlays st) item)
    /\ stats_completes (learning (overlays st'))
       = stats_completes (learning (overlays st)) + 2
    /\ synced st').
Proof.
  intros Hm Hfind.
  run (toggleComplete_run st id item Hfind). cbv zeta.
  intros _ st1 (Ho1 & Hb1 & _ & (Hm1 & _)).
  set (was := String.eqb (getStatus (overlays st) item) "completed") in *.
  assert (forall x, toPropertyKey (getField x "id") = toPropertyKey id ->
            getStatus (overlays st1) x
            = if was then "open"%string else "completed"%string) as Hst1.
  { intros x Hx.
    erewrite (getStatus_patched _ x _ (if was then "open" else "completed")).
    - destruct was; reflexivity.
    - rewrite Ho1. flat2. rewrite Hx. apply patch_after_two_writes.
    - rewrite !getField_setProp. reflexivity.
    - destruct was; discriminate. }
  assert (exists item1,
             findById id (mergedTasks (merged st1) ++ mergedEvents (merged st1)) = Some item1)
    as (item1 & Hfind1).
  { apply (findById_ids id (mergedTasks (merged st) ++ mergedEvents (merged st)) _)
      with (x := item); [|exact Hfind].
    rewrite Hm1, Hm, Hb1. cbn [mergedTasks mergedEvents].
    destruct (merged_ids_stable (base st) (overlays st) (overlays st1)) as [Ht He].
    - rewrite Ho1. reflexivity.
    - rewrite Ho1. reflexivity.
    - intros o. rewrite Ho1. flat2. apply applyOverride_two_writes; discriminate.
    - unfold idsOf in *. rewrite !map_app, Ht, He. reflexivity. }
  eapply returns_weaken; [apply (toggleComplete_run st1 id item1 Hfind1)|]. cbv beta zeta.
  intros _ st2 (Ho2 & _ & _ & Hs2).
  destruct (findById_key _ _ _ Hfind1) as [_ Hid1].
  rewrite (Hst1 item1 (f_equal toPropertyKey Hid1)) in Ho2.
  assert (getStatus (overlays st) item
          = if was then "completed"%string else "open"%string) as Hwas
    by (subst was; destruct (getStatus_two_values (overlays st) item) as [-> | ->];
        reflexivity).
  clearbody was.
  split; [|split; [|exact Hs2]].
  - intros x Hx. rewrite Hwas.
    erewrite (getStatus_patched _ x _ (if was then "completed" else "open")).
    + destruct was; reflexivity.
    + rewrite Ho2. flat2. rewrite Hx. apply patch_after_two_writes.
    + rewrite !getField_setProp. destruct was; reflexivity.
    + destruct was; discriminate.
  - rewrite Ho2. flat2. rewrite Ho1. flat2. lia.
Qed.

Lemma toggle_complete_twice_witness :
  returns (toggleComplete (VStr "e1") ;;; toggleComplete (VStr "e1"))
          (bootState steadyWorld twoEventsBase eventPatchOverlays)
          (fun _ st' =>
             getStatus (overlays st') (VObj [("id", VStr "e1")]) = "completed"%string
             /\ stats_completes (learning (overlays st')) = 2).
Proof.
  eapply returns_weaken.
  - apply (toggle_complete_twice
             (bootState steadyWorld twoEventsBase eventPatchOverlays) (VStr "e1")
             (VObj [("id", VStr "e1"); ("title", VStr "Kickoff (moved)");
                    ("due_date", VStr "2024-03-01"); ("status", VStr "completed")])).
    + reflexivity.
    + vm_compute. reflexivity.
  - cbv beta. intros _ st' (Hx & Hc & _).
    split; [exact (Hx (VObj [("id", VStr "e1")]) eq_refl) | exact Hc].
Defined.

Section DeferAgain.

Lemma readPatch_ev (id : jsval) (st : State) :
  returns (readPatch id) st (fun p st' => p = patchOf (overlays st) id /\ st' = st).
Proof.
  unfold readPatch. apply returns_bind, returns_getOverlays, returns_ret.
  split; reflexivity.
Qed.

Lemma isoFromDate_nonempty (dt : JsDate) : truthy (VStr (isoFromDate dt)) = true.
Proof.
  destruct dt as [day|]; [|reflexivity].
  unfold isoFromDate. destruct (civilFromDays day) as [[y m] d].
  cbn [truthy].
  change (showZ y +:+ "-" +:+ pad2 m +:+ "-" +:+ pad2 d)
    with (showZ y +:+ String "-" (pad2 m +:+ String "-" (pad2 d))).
  destruct (showZ y); reflexivity.
Qed.

(** [deferOneDay] on an item of the merged tasks whose source date parses,
    as a change of the overlay. *)
Lemma deferOneDay_ev (st : State) (id item : jsval) (d : JsDate) :
  findById id (mergedTasks (merged st)) = Some item ->
  parseISODate (deferSource (VObj (patchOf (overlays st) id)) item) = Some d ->
  returns (deferOneDay id) st (fun _ st' =>
    (exists e,
       overlays st'
       = withUpdatedAt (VStr (isoAt (world st) (S (reads st))))
           (withLearning (moved e)
              (withOverrides
                 (fun m =>
                    (if truthy (getField (VObj (patchOf (overlays st) id)) "start_date")
                     then fun x => x
                     else alter (setProp "start_date" (VStr (isoFromDate (addDays 1 d))))
                                (toPropertyKey id))
                      (alter (setProp "due_date" (VStr (isoFromDate (addDays 1 d))))
                             (toPropertyKey id)
                             (ensureKey (toPropertyKey id) m)))
                 (overlays st))))
    /\ base st' = base st
    /\ world st' = world st
    /\ reads st' = S (S (reads st))
    /\ synced st').
Proof.
  intros Hfind Hparse. unfold deferOneDay.
  apply returns_bind, returns_getMerged. rewrite Hfind.
  run ensurePatch_ev. intros p st1 (-> & E1 & _).
  rewrite Hparse.
  apply returns_bind, returns_ret. cbv zeta.
  run writePatch_ev. intros _ st2 (E2 & _).
  destruct (truthy (getField (VObj (patchOf (overlays st) id)) "start_date")); cbn [negb when].
  - apply returns_bind, returns_ret.
    run readPatch_ev. intros after st3 (-> & ->).
    run logMove_ev. intros _ st4 (E4 & _).
    eapply returns_weaken; [apply save_merge_ev|]. cbv beta. intros _ st5 (E5 & Hs).
    pose proof (evolves_trans _ _ _ _ _ _ _
                  (evolves_trans _ _ _ _ _ _ _
                     (evolves_trans _ _ _ _ _ _ _ E1 E2) E4) E5) as E.
    destruct E1 as (Hw1 & Hr1 & _), E2 as (Hw2 & Hr2 & _), E4 as (Hw4 & Hr4 & _).
    rewrite Hw4, Hw2, Hw1, Hr4, Hr2, Hr1 in E.
    destruct E as (Hw & Hr & Hb & Ho & Hp).
    split; [eexists; rewrite Ho; reflexivity|].
    split; [exact Hb|]. split; [exact Hw|]. split; [exact Hr | exact Hs].
  - run writePatch_ev. intros _ st3 (E3 & _).
    run readPatch_ev. intros after st3' (-> & ->).
    run logMove_ev. intros _ st4 (E4 & _).
    eapply returns_weaken; [apply save_merge_ev|]. cbv beta. intros _ st5 (E5 & Hs).
    pose proof (evolves_trans _ _ _ _ _ _ _
                  (evolves_trans _ _ _ _ _ _ _
                     (evolves_trans _ _ _ _ _ _ _
                        (evolves_trans _ _ _ _ _ _ _ E1 E2) E3) E4) E5) as E.
    destruct E1 as (Hw1 & Hr1 & _), E2 as (Hw2 & Hr2 & _), E3 as (Hw3 & Hr3 & _),
      E4 as (Hw4 & Hr4 & _).
    rewrite Hw4, Hw3, Hw2, Hw1, Hr4, Hr3, Hr2, Hr1 in E.
    destruct E as (Hw & Hr & Hb & Ho & Hp).
    split; [eexists; rewrite Ho; reflexivity|].
    split; [exact Hb|]. split; [exact Hw|]. split; [exact Hr | exact Hs].
Qed.

(** The due date in the patch of [id] after [deferOneDay]. *)
Lemma due_after_defer (m : gmap string obj) (key : string) (b : bool) (next : jsval) :
  exists p,
    (if b then fun x => x else alter (setProp "start_date" next) key)
      (alter (setProp "due_date" next) key (ensureKey key m)) !! key = Some p
    /\ getField (VObj p) "due_date" = next.
Proof.
  destruct b.
  - eexists. split.
    + rewrite lookup_alter_eq, ensureKey_lookup. reflexivity.
    + rewrite getField_setProp. reflexivity.
  - eexists. split.
    + rewrite !lookup_alter_eq, ensureKey_lookup. reflexivity.
    + rewrite !getField_setProp. reflexivity.
Qed.

End DeferAgain.

(** X8: deferring twice moves the due date by two days.  For an item of the
    merged tasks whose current date is the day [day], the second
    [deferOneDay(id)] reads back the date that the first one wrote and
    writes the day after it: the patch then holds the date of [day + 2] as
    its due date, and two moves were counted. *)
Theorem defer_twice_moves_two_days (st : State) (id item : jsval) (day y m d : Z) :
  merged st = Some (mergeData (base st) (overlays st)) ->
  findById id (mergedTasks (merged st)) = Some item ->
  parseISODate (deferSource (VObj (patchOf (overlays st) id)) item) = Some (ValidDate day) ->
  civilFromDays (day + 1) = (y, m, d) ->
  100 <= y ->
  -100000000 <= day + 1 /\ day + 2 < 100000000 ->
  returns (deferOneDay id ;;; deferOneDay id) st (fun _ st' =>
    getField (VObj (patchOf (overlays st') id)) "due_date"
    = VStr (isoFromDate (ValidDate (day + 2)))
    /\ stats_moves (learning (overlays st')) = stats_moves (learning (overlays st)) + 2
    /\ synced st').
Proof.
  intros Hm Hfind Hparse Hc Hy Hr.
  run (deferOneDay_ev st id item (ValidDate day) Hfind Hparse).
  intros _ st1 ((e1 & Ho1) & Hb1 & _ & _ & (Hm1 & _)).
  assert (addDays 1 (ValidDate day) = ValidDate (day + 1)) as Hnext
    by (apply clipDay_inside; lia).
  rewrite Hnext in Ho1.
  set (b := truthy (getField (VObj (patchOf (overlays st) id)) "start_date")) in *.
  set (next := VStr (isoFromDate (ValidDate (day + 1)))) in *.
  destruct (due_after_defer (task_overrides (overlays st)) (toPropertyKey id) b next)
    as (p1 & Hp1 & Hdue1).
  assert (patchOf (overlays st1) id = p1) as Hpatch1.
  { unfold patchOf. rewrite Ho1. flat2. rewrite Hp1. reflexivity. }
  assert (exists item1, findById id (mergedTasks (merged st1)) = Some item1)
    as (item1 & Hfind1).
  { apply (findById_ids id (mergedTasks (merged st)) _) with (x := item); [|exact Hfind].
    rewrite Hm1, Hm, Hb1. cbn [mergedTasks].
    apply (merged_ids_stable (base st) (overlays st) (overlays st1)).
    - rewrite Ho1. reflexivity.
    - rewrite Ho1. reflexivity.
    - intros o. rewrite Ho1. flat2. destruct b.
      + apply applyOverride_one_write. discriminate.
      + apply applyOverride_two_writes; discriminate. }
  assert (parseISODate (deferSource (VObj (patchOf (overlays st1) id)) item1)
          = Some (ValidDate (day + 1))) as Hparse1.
  { rewrite Hpatch1. unfold deferSource, jsOr. rewrite Hdue1. subst next.
    rewrite !isoFromDate_nonempty.
    apply (iso_round_trip_days (day + 1) y m d Hc Hy). lia. }
  eapply returns_weaken; [apply (deferOneDay_ev st1 id item1 _ Hfind1 Hparse1)|].
  cbv beta. intros _ st2 ((e2 & Ho2) & _ & _ & _ & Hs2).
  assert (addDays 1 (ValidDate (day + 1)) = ValidDate (day + 2)) as Hnext2
    by (replace (day + 2) with (day + 1 + 1) by lia; apply clipDay_inside; lia).
  rewrite Hnext2 in Ho2.
  split; [|split; [|exact Hs2]].
  - destruct (due_after_defer (task_overrides (overlays st1)) (toPropertyKey id)
                (truthy (getField (VObj (patchOf (overlays st1) id)) "start_date"))
                (VStr (isoFromDate (ValidDate (day + 2))))) as (p2 & Hp2 & Hdue2).
    unfold patchOf at 1. rewrite Ho2. flat2. rewrite Hp2. exact Hdue2.
  - rewrite Ho2. flat2. rewrite Ho1. flat2. lia.
Qed.

Lemma defer_twice_moves_two_days_witness :
  returns (deferOneDay (VStr "t1") ;;; deferOneDay (VStr "t1"))
          (bootState steadyWorld dueOnlyBase freshOverlays)
          (fun _ st' =>
             getField (VObj (patchOf (overlays st') (VStr "t1"))) "due_date"
             = VStr "2024-03-01").
Proof.
  eapply returns_weaken.
  - apply (defer_twice_moves_two_days
             (bootState steadyWorld dueOnlyBase freshOverlays) (VStr "t1")
             (VObj [("id", VStr "t1"); ("title", VStr "Draft report");
                    ("due_date", VStr "2024-02-28")])
             19781 2024 2 29).
    + reflexivity.
    + vm_compute. reflexivity.
    + vm_compute. reflexivity.
    + reflexivity.
    + lia.
    + lia.
  - cbv beta. intros _ st' (Hd & _). rewrite Hd. reflexivity.
Defined.

(** ** Deleting, resetting, recurrence toggles *)

Section Deleting.

Lemma noHoles_filter (f : jsval -> bool) (l : list jsval) :
  noHoles l = true -> noHoles (List.filter f l) = true.
Proof.
  unfold noHoles. rewrite !negb_true_iff. intros H.
  destruct (existsb nullish (List.filter f l)) eqn:E; [|reflexivity].
  apply existsb_exists in E as (x & Hin & Hx). apply filter_In in Hin as [Hin _].
  rewrite <- H. symmetry. apply existsb_exists. eauto.
Qed.

Lemma filter_twice (f : jsval -> bool) (l : list jsval) :
  List.filter f (List.filter f l) = List.filter f l.
Proof.
  induction l as [|a l IH]; [reflexivity|]. cbn [List.filter].
  destruct (f a) eqn:E; [|exact IH]. cbn [List.filter]. rewrite E, IH. reflexivity.
Qed.

Lemma hasValue_app (xs ys : list jsval) (v : jsval) :
  hasValue (xs ++ ys) v = hasValue xs v || hasValue ys v.
Proof. unfold hasValue. apply existsb_app. Qed.

(** The three statements shared by [deleteItem] and the [delete] op, as a
    change of the overlay. *)
Lemma removeItem_ev (id : jsval) (st : State) :
  noHoles (new_tasks (overlays st)) = true ->
  returns (removeItem id) st (fun _ st' =>
    evolves 0
      (fun o =>
         withNewTasks (List.filter (fun t => negb (sameValueZero (getField t "id") id)))
           (withOverrides (delete (toPropertyKey id))
              (withDeletions (fun l => if hasValue l id then l else l ++ [id]) o)))
      st st'
    /\ merged st' = merged st).
Proof.
  intros Hn. unfold noHoles in Hn. apply negb_true_iff in Hn.
  unfold removeItem. apply returns_bind, returns_getOverlays. rewrite Hn.
  destruct (hasValue (deletions (overlays st)) id) eqn:Eh; cbn [negb when].
  - apply returns_bind, returns_ret.
    run modify_ev. intros _ st1 (E1 & Hm1).
    eapply returns_weaken; [apply modify_ev|]. cbv beta. intros _ st2 (E2 & Hm2).
    pose proof (evolves_trans _ _ _ _ _ _ _ E1 E2) as (Hw & Hr & Hb & Ho & Hp).
    split; [|congruence].
    unfold evolves. rewrite Hw, Hr, Hb, Ho, Hp. repeat split; try reflexivity.
    unfold withNewTasks, withOverrides, withDeletions. flat2. rewrite Eh. reflexivity.
  - run modify_ev. intros _ st0 (E0 & Hm0).
    run modify_ev. intros _ st1 (E1 & Hm1).
    eapply returns_weaken; [apply modify_ev|]. cbv beta. intros _ st2 (E2 & Hm2).
    pose proof (evolves_trans _ _ _ _ _ _ _ (evolves_trans _ _ _ _ _ _ _ E0 E1) E2)
      as (Hw & Hr & Hb & Ho & Hp).
    split; [|congruence].
    unfold evolves. rewrite Hw, Hr, Hb, Ho, Hp. repeat split; try reflexivity.
    unfold withNewTasks, withOverrides, withDeletions. flat2. rewrite Eh. reflexivity.
Qed.

Lemma deleteItem_ev (id : jsval) (st : State) :
  truthy id = true ->
  noHoles (new_tasks (overlays st)) = true ->
  returns (deleteItem id) st (fun _ st' =>
    evolves 1
      (fun o =>
         withUpdatedAt (VStr (isoAt (world st) (reads st)))
           (withNewTasks (List.filter (fun t => negb (sameValueZero (getField t "id") id)))
              (withOverrides (delete (toPropertyKey id))
                 (withDeletions (fun l => if hasValue l id then l else l ++ [id]) o))))
      st st'
    /\ synced st').
Proof.
  intros Hid Hn. unfold deleteItem. rewrite Hid. cbn [negb].
  run (removeItem_ev id st Hn). intros _ st1 (E1 & _).
  eapply returns_weaken; [apply save_merge_ev|]. cbv beta. intros _ st2 (E2 & Hs).
  split; [|exact Hs].
  pose proof (evolves_trans _ _ _ _ _ _ _ E1 E2) as E.
  destruct E1 as (Hw1 & Hr1 & _). rewrite Hw1, Hr1 in E. exact E.
Qed.

End Deleting.

(** X9: [deleteItem(id)] for an id that is a primitive value, on an overlay
    whose [new_tasks] has no [null] element: the id is in [deletions]
    afterwards, added once if it was not there; the patch of the id and the
    new tasks with that id are gone; the filter of [mergeData] rejects every
    item whose id is [id]; and a second [deleteItem(id)] changes nothing but
    the time stamp. *)
Theorem delete_item_tombstones_once (st : State) (id : jsval) :
  truthy id = true ->
  sameValueZero id id = true ->
  noHoles (new_tasks (overlays st)) = true ->
  returns (deleteItem id) st (fun _ st' =>
    deletions (overlays st')
    = (if hasValue (deletions (overlays st)) id
       then deletions (overlays st) else deletions (overlays st) ++ [id])
    /\ hasValue (deletions (overlays st')) id = true
    /\ task_overrides (overlays st') !! toPropertyKey id = None
    /\ new_tasks (overlays st')
       = List.filter (fun t => negb (sameValueZero (getField t "id") id))
                     (new_tasks (overlays st))
    /\ (forall x, getField x "id" = id -> survives (deletions (overlays st')) x = false)
    /\ synced st'
    /\ returns (deleteItem id) st' (fun _ st'' =>
         overlays st''
         = withUpdatedAt (VStr (isoAt (world st) (S (reads st)))) (overlays st')
         /\ synced st'')).
Proof.
  intros Hid Hself Hn.
  eapply returns_weaken; [apply (deleteItem_ev id st Hid Hn)|]. cbv beta.
  intros _ st' ((Hw & Hr & Hb & Ho & Hp) & Hs).
  assert (hasValue (deletions (overlays st')) id = true) as Hhas.
  { rewrite Ho. flat2. destruct (hasValue (deletions (overlays st)) id) eqn:E; [exact E|].
    rewrite hasValue_app, E. unfold hasValue. cbn [existsb]. rewrite Hself. reflexivity. }
  assert (noHoles (new_tasks (overlays st')) = true) as Hn'
    by (rewrite Ho; flat2; apply noHoles_filter; exact Hn).
  split; [rewrite Ho; reflexivity|]. split; [exact Hhas|].
  split; [rewrite Ho; flat2; apply lookup_delete_eq|].
  split; [rewrite Ho; reflexivity|]. split; [|split; [exact Hs|]].
  - intros x Hx. unfold survives. rewrite Hx, Hhas. cbn [negb]. apply andb_false_r.
  - eapply returns_weaken; [apply (deleteItem_ev id st' Hid Hn')|]. cbv beta.
    intros _ st'' ((_ & _ & _ & Ho' & _) & Hs'). split; [|exact Hs'].
    rewrite Ho', Hw, Hr. cbn [Nat.add].
    unfold withUpdatedAt, withNewTasks, withOverrides, withDeletions.
    flat2. rewrite Hhas. f_equal.
    + rewrite Ho. flat2. apply delete_delete_eq.
    + rewrite Ho. flat2. apply filter_twice.
Qed.

Lemma delete_item_tombstones_once_witness :
  returns (deleteItem (VStr "temp_lw3k9"))
          (bootState steadyWorld oneTaskBase quickAddedOverlays)
          (fun _ st' =>
             deletions (overlays st') = [VStr "temp_lw3k9"]
             /\ new_tasks (overlays st') = []
             /\ map (fun t => getField t "id") (mergedTasks (merged st')) = [VStr "t1"]).
Proof.
  destruct (delete_item_tombstones_once
              (bootState steadyWorld oneTaskBase quickAddedOverlays) (VStr "temp_lw3k9"))
    as (a & st' & Hrun & Hd & _ & _ & Hnew & _); try reflexivity.
  exists a, st'. split; [exact Hrun|].
  split; [exact Hd|]. split; [exact Hnew|].
  assert (st' = snd (deleteItem (VStr "temp_lw3k9")
                       (bootState steadyWorld oneTaskBase quickAddedOverlays))) as ->
    by (rewrite Hrun; reflexivity).
  vm_compute. reflexivity.
Defined.

Section Resetting.

Lemma applyOverride_empty (t : jsval) : applyOverride ∅ t = t.
Proof. unfold applyOverride. rewrite lookup_empty. reflexivity. Qed.

Lemma survives_no_deletions (t : jsval) :
  survives [] t = truthy t && truthy (getField t "id").
Proof. unfold survives. cbn [hasValue existsb negb]. apply andb_true_r. Qed.

(** The merged view of an overlay without tombstones, patches and new
    tasks. *)
Lemma mergeData_blank (b : obj) (ov : Overlays) :
  deletions ov = [] -> task_overrides ov = ∅ -> new_tasks ov = [] ->
  tasks (mergeData b ov)
  = List.filter (fun t => truthy t && truthy (getField t "id"))
                (arrayOrEmpty (getField (VObj b) "tasks"))
  /\ events (mergeData b ov)
     = List.filter (fun t => truthy t && truthy (getField t "id"))
                   (arrayOrEmpty (getField (VObj b) "events")).
Proof.
  intros Hd Ht Hn. unfold mergeData. cbn [tasks events]. rewrite Hd, Ht, Hn.
  cbn [appendNew]. rewrite app_nil_r.
  split; (erewrite map_ext; [rewrite map_id|exact applyOverride_empty]);
    apply filter_ext; exact survives_no_deletions.
Qed.

End Resetting.

(** X10: after a confirmed [resetOverlays()] the overlay is the default one
    and the merged view shows exactly the base tasks and the base events
    that carry an id, in the order of the base and as the base has them;
    an item of the base without an id stays hidden.  A reset that is not
    confirmed changes nothing. *)
Theorem reset_restores_base_view (st : State) :
  returns (resetOverlays true) st (fun _ st' =>
    overlays st'
    = withUpdatedAt (VStr (isoAt (world st) (S (reads st))))
        (defaultOverlays (isoAt (world st) (reads st)))
    /\ mergedTasks (merged st')
       = List.filter (fun t => truthy t && truthy (getField t "id"))
                     (arrayOrEmpty (getField (VObj (base st)) "tasks"))
    /\ mergedEvents (merged st')
       = List.filter (fun t => truthy t && truthy (getField t "id"))
                     (arrayOrEmpty (getField (VObj (base st)) "events"))
    /\ synced st')
  /\ resetOverlays false st = (Ret tt, st).
Proof.
  split; [|reflexivity].
  unfold resetOverlays. cbn [negb].
  run now_ev. intros t st1 (-> & E1 & _).
  run modify_ev. intros _ st2 (E2 & _).
  eapply returns_weaken; [apply save_merge_ev|]. cbv beta. intros _ st3 (E3 & Hs).
  pose proof (evolves_trans _ _ _ _ _ _ _ (evolves_trans _ _ _ _ _ _ _ E1 E2) E3) as E.
  destruct E1 as (Hw1 & Hr1 & _), E2 as (Hw2 & Hr2 & _).
  rewrite Hw2, Hw1, Hr2, Hr1 in E. destruct E as (Hw & Hr & Hb & Ho & Hp).
  cbn [Nat.add] in Ho.
  split; [exact Ho|].
  destruct Hs as [Hm Hst].
  destruct (mergeData_blank (base st3) (overlays st3)) as [Ht He];
    try (rewrite Ho; reflexivity).
  rewrite Hm. cbn [mergedTasks mergedEvents]. rewrite Ht, He, Hb.
  repeat split; assumption.
Qed.

(** X11: the toggle of a recurrence rule negates the flag that
    [renderRecurring] shows for the rule ([true] when nothing is stored for
    it), replaces what was stored under the rule's id by an object that
    holds only the flag, leaves the other rules and the rest of the overlay
    alone, saves the overlay, and a second toggle gives the truth value of
    the flag back. *)
Theorem recurrence_toggle_flips (st : State) (id : string) :
  returns (toggleRecurrence id) st (fun _ st' =>
    flagOf (recurrence_overrides (overlays st')) id
    = VBool (negb (truthy (flagOf (recurrence_overrides (overlays st)) id)))
    /\ (forall r, toPropertyKey (getField r "id") = id ->
          ruleEnabled (recurrence_overrides (overlays st')) r
          = VBool (negb (truthy (ruleEnabled (recurrence_overrides (overlays st)) r))))
    /\ recurrence_overrides (overlays st') !! id
       = Some (VObj [("enabled",
                      VBool (negb (truthy (flagOf (recurrence_overrides (overlays st)) id))))])
    /\ (forall k, k <> id ->
          recurrence_overrides (overlays st') !! k = recurrence_overrides (overlays st) !! k)
    /\ deletions (overlays st') = deletions (overlays st)
    /\ task_overrides (overlays st') = task_overrides (overlays st)
    /\ new_tasks (overlays st') = new_tasks (overlays st)
    /\ learning (overlays st') = learning (overlays st)
    /\ stored st' = Some (overlays st')
    /\ merged st' = merged st
    /\ returns (toggleRecurrence id) st' (fun _ st'' =>
         flagOf (recurrence_overrides (overlays st'')) id
         = VBool (truthy (flagOf (recurrence_overrides (overlays st)) id)))).
Proof.
  assert (forall s,
            returns (toggleRecurrence id) s (fun _ s' =>
              overlays s'
              = withUpdatedAt (VStr (isoAt (world s) (reads s)))
                  (withRecurrence
                     (insert id
                        (VObj [("enabled",
                                VBool (negb (truthy (flagOf (recurrence_overrides (overlays s))
                                                            id))))]))
                     (overlays s))
              /\ stored s' = Some (overlays s') /\ merged s' = merged s)) as Hrun.
  { intros s. unfold toggleRecurrence.
    apply returns_bind, returns_getOverlays.
    run modify_ev. intros _ s1 (E1 & Hm1).
    eapply returns_weaken; [apply saveOverlays_ev|]. cbv beta.
    intros _ s2 (E2 & Hm2 & Hst2).
    pose proof (evolves_trans _ _ _ _ _ _ _ E1 E2) as E.
    destruct E1 as (Hw1 & Hr1 & _). rewrite Hw1, Hr1 in E.
    destruct E as (_ & _ & _ & Ho & _).
    split; [exact Ho|]. split; [exact Hst2 | congruence]. }
  eapply returns_weaken; [apply Hrun|]. cbv beta.
  intros _ st' (Ho & Hst & Hm).
  set (cur := flagOf (recurrence_overrides (overlays st)) id) in *.
  assert (recurrence_overrides (overlays st') !! id
          = Some (VObj [("enabled", VBool (negb (truthy cur)))])) as Hlook
    by (rewrite Ho; flat2; apply lookup_insert_eq).
  assert (flagOf (recurrence_overrides (overlays st')) id = VBool (negb (truthy cur))) as Hflag
    by (unfold flagOf; rewrite Hlook; reflexivity).
  split; [exact Hflag|]. split.
  { intros r <-. exact Hflag. }
  split; [exact Hlook|]. split.
  { intros k Hk. rewrite Ho. flat2. apply lookup_insert_ne. congruence. }
  do 4 (split; [rewrite Ho; reflexivity|]).
  split; [exact Hst|]. split; [exact Hm|].
  eapply returns_weaken; [apply Hrun|]. cbv beta.
  intros _ st'' (Ho' & _).
  unfold flagOf at 1. rewrite Ho'. flat2. rewrite lookup_insert_eq, Hflag.
  cbn [nullish getField lookupProp String.eqb Ascii.eqb Bool.eqb jsCoalesce truthy].
  rewrite negb_involutive. reflexivity.
Qed.

(** ** Applying a validated batch of ops *)

Section ValidatedOps.

















End ValidatedOps.



(** Without the condition on the type the batch can throw: an [add] op
    whose type is a number passes [validatePayload], and [normalizeType]
    throws on it; the loop stops there, nothing is saved. *)
Example validated_add_can_throw :
  validatePayload
    (VObj [("ops", VArr [VObj [("op", VStr "add"); ("id", VStr "temp_1");
                               ("fields", VObj [("title", VStr "N"); ("type", VNum 5)])]])])
  = Valid
  /\ applyOpsArray
       (VArr [VObj [("op", VStr "add"); ("id", VStr "temp_1");
                    ("fields", VObj [("title", VStr "N"); ("type", VNum 5)])]])
       (bootState steadyWorld oneTaskBase freshOverlays)
     = (Throw "TypeError: toLowerCase is not a function",
        bootState steadyWorld oneTaskBase freshOverlays).
Proof. split; reflexivity. Qed.

(** An empty batch, and a value that is not an array, change nothing and
    save nothing. *)
Example empty_batch_is_ignored (st : State) :
  applyOpsArray (VArr []) st = (Ret 0, st)
  /\ applyOpsArray VNull st = (Ret 0, st)
  /\ applyOpsArray (VStr "ops") st = (Ret 0, st).
Proof. repeat split. Qed.

(** ** Updates: the later write wins, field by field *)

Section Updates.



End Updates.



(** ** What [runOps] lets through *)

Section Accepted.

Lemma opViolation_None (op : jsval) :
  opViolation op = None -> wellFormedOp op = true.
Proof.
  unfold opViolation, wellFormedOp.
  destruct (isNonNullObject op); [|discriminate]. cbn [negb andb].
  destruct (knownKind (getField op "op")); [|discriminate]. cbn [negb andb].
  destruct (nonEmptyString (getField op "id")); [|discriminate]. cbn [negb andb].
  destruct (needsFields (getField op "op")); cbn [negb andb orb]; [|reflexivity].
  destruct (isNonNullObject (getField op "fields")); [reflexivity | discriminate].
Qed.

Lemma firstOpViolation_None (ops : list jsval) :
  firstOpViolation ops = None -> Forall (fun op => wellFormedOp op = true) ops.
Proof.
  induction ops as [|op rest IH]; cbn [firstOpViolation]; intros H;
    [apply Forall_nil; exact I|].
  destruct (opViolation op) eqn:E; [discriminate H|].
  apply Forall_cons. split; [exact (opViolation_None op E) | exact (IH H)].
Qed.

Lemma wellFormed_no_violation (ops : list jsval) :
  Forall (fun op => wellFormedOp op = true) ops -> firstOpViolation ops = None.
Proof.
  induction ops as [|op rest IH]; intros H; [reflexivity|].
  apply Forall_cons in H as [Hop H]. cbn [firstOpViolation].
  rewrite (IH H).
  unfold wellFormedOp in Hop. unfold opViolation.
  apply andb_true_iff in Hop as [Hop Hf]. apply andb_true_iff in Hop as [Hop Hid].
  apply andb_true_iff in Hop as [Hobj Hk].
  rewrite Hobj, Hk, Hid. cbn [negb].
  destruct (needsFields (getField op "op")); cbn [negb orb andb] in *; [|reflexivity].
  rewrite Hf. reflexivity.
Qed.

(** A payload that [validatePayload] accepts is an object with an array of
    well-formed ops. *)
Lemma validatePayload_Valid_inv (payload : jsval) :
  validatePayload payload = Valid ->
  isNonNullObject payload = true
  /\ exists ops, getField payload "ops" = VArr ops
                 /\ checkOps ops = Valid
                 /\ Forall (fun op => wellFormedOp op = true) ops.
Proof.
  intros H. pose proof H as H'. rewrite validatePayload_refines in H'.
  unfold firstViolation in H'.
  unfold validatePayload in H.
  destruct (isNonNullObject payload); [|discriminate H']. split; [reflexivity|].
  destruct (negb (truthy payload) || negb (String.eqb (typeof payload) "object"));
    [discriminate H|].
  destruct (getField payload "ops") as [| | | | |ops|]; try discriminate H.
  exists ops. split; [reflexivity|]. split; [exact H|].
  apply firstOpViolation_None. cbn [negb] in H'.
  destruct (firstOpViolation ops); [discriminate H' | reflexivity].
Qed.

End Accepted.

(** X14: [runOps] returns exactly the well-formed payloads.  It returns
    [payload] if and only if the AI is enabled, the completion service
    answered with a text, [payload] is what [tryParseJsonFromText] extracts
    from the text, it is an object whose [ops] is an array, and every op is
    an object with one of the five kinds, a non-empty string id and, for
    [add] and [update], a [fields] object.  In every other case it throws. *)
Theorem run_ops_accepts_exactly_well_formed (parse : string -> option jsval) (on : bool)
        (response : outcome string) (payload : jsval) :
  runOps parse on response = Ret payload
  <-> (on = true
       /\ (exists txt, response = Ret txt /\ payload = tryParseJsonFromText parse txt)
       /\ isNonNullObject payload = true
       /\ exists ops, getField payload "ops" = VArr ops
                      /\ Forall (fun op => wellFormedOp op = true) ops).
Proof.
  split.
  - unfold runOps. intros H.
    destruct on; [|discriminate H]. cbn [negb] in H. split; [reflexivity|].
    destruct response as [txt|e]; [|discriminate H].
    destruct (truthy (tryParseJsonFromText parse txt)); [|discriminate H]. cbn [negb] in H.
    destruct (validatePayload (tryParseJsonFromText parse txt)) eqn:Ev; [|discriminate H].
    injection H as <-.
    split; [exists txt; split; reflexivity|].
    destruct (validatePayload_Valid_inv _ Ev) as (Hobj & ops & Hops & _ & Hall).
    split; [exact Hobj|]. exists ops. split; assumption.
  - intros (-> & (txt & -> & ->) & Hobj & ops & Hops & Hall).
    unfold runOps. cbn [negb].
    assert (truthy (tryParseJsonFromText parse txt) = true) as ->
      by (destruct (tryParseJsonFromText parse txt); try discriminate Hobj; reflexivity).
    cbn [negb].
    rewrite validatePayload_refines. unfold firstViolation.
    rewrite Hobj, Hops. cbn [negb].
    rewrite (wellFormed_no_violation ops Hall). reflexivity.
Qed.

Lemma run_ops_accepts_exactly_well_formed_witness :
  exists ops,
    getField (tryParseJsonFromText JSON_parse tidyResponse) "ops" = VArr ops
    /\ length ops = 2%nat
    /\ Forall (fun op => wellFormedOp op = true) ops.
Proof.
  destruct (proj1 (run_ops_accepts_exactly_well_formed JSON_parse true (Ret tidyResponse)
                     (tryParseJsonFromText JSON_parse tidyResponse)))
    as (_ & _ & _ & ops & Hops & Hall).
  - vm_compute. reflexivity.
  - exists ops. split; [exact Hops|]. split; [|exact Hall].
    vm_compute in Hops. injection Hops as <-. reflexivity.
Defined.

(** ** What automatic application can touch *)

Section AutoApply.









Lemma snd_catching (body : M unit) (st : State) :
  snd (catching body st) = snd (body st).
Proof. unfold catching. destruct (body st) as [[a|e] st']; reflexivity. Qed.

Lemma bind_lift_ret {A B : Type} (a : A) (k : A -> M B) (st : State) :
  bind (lift (Ret a)) k st = k a st.
Proof. reflexivity. Qed.

Lemma bind_lift_throw {A B : Type} (e : string) (k : A -> M B) (st : State) :
  bind (lift (Throw e)) k st = (Throw e, st).
Proof. reflexivity. Qed.


Lemma bind_run {A B : Type} (m : M A) (k : A -> M B) (st st1 : State) (a : A) :
  m st = (Ret a, st1) -> bind m k st = k a st1.
Proof. intros H. unfold bind. rewrite H. reflexivity. Qed.

Lemma bind_getMerged {B : Type} (k : option MergedView -> M B) (st : State) :
  bind getMerged k st = k (merged st) st.
Proof. reflexivity. Qed.

Lemma bind_getOverlays {B : Type} (k : Overlays -> M B) (st : State) :
  bind getOverlays k st = k (overlays st) st.
Proof. reflexivity. Qed.

End AutoApply.


(** ** Rebalancing only proposes *)

(** X16: [aiRebalanceToday] never changes the data.  Whatever the
    completion service answers, the overlay, the base dataset, the merged
    view and the stored overlay are what they were; the pending payload is
    either untouched, or it is the payload that [runOps] accepted, which
    then waits for the review. *)
Theorem rebalance_only_proposes (parse : string -> option jsval) (on : bool)
        (ref : jsval) (response : outcome string) (st : State) :
  overlays (snd (aiRebalanceToday parse on ref response st)) = overlays st
  /\ base (snd (aiRebalanceToday parse on ref response st)) = base st
  /\ merged (snd (aiRebalanceToday parse on ref response st)) = merged st
  /\ stored (snd (aiRebalanceToday parse on ref response st)) = stored st
  /\ (pendingAiPayload (snd (aiRebalanceToday parse on ref response st))
      = pendingAiPayload st
      \/ exists payload,
           pendingAiPayload (snd (aiRebalanceToday parse on ref response st)) = Some payload
           /\ runOps parse true response = Ret payload
           /\ validatePayload payload = Valid).
Proof.
  assert (forall s : State,
            overlays s = overlays st -> base s = base st -> merged s = merged st ->
            stored s = stored st -> pendingAiPayload s = pendingAiPayload st ->
            overlays s = overlays st /\ base s = base st /\ merged s = merged st
            /\ stored s = stored st
            /\ (pendingAiPayload s = pendingAiPayload st
                \/ exists payload,
                     pendingAiPayload s = Some payload
                     /\ runOps parse true response = Ret payload
                     /\ validatePayload payload = Valid)) as Hkeep
    by (intros s ? ? ? ? ?; repeat split; try assumption; left; assumption).
  unfold aiRebalanceToday.
  destruct on; cbn [negb]; [|apply Hkeep; reflexivity].
  rewrite !snd_catching, !bind_getMerged, !bind_getOverlays.
  destruct (ContextBundle.buildAiContext (merged st) (overlays st) "rebalance_today" ref)
    as [ctx|e]; [rewrite !bind_lift_ret | rewrite !bind_lift_throw; apply Hkeep; reflexivity].
  destruct (today_ev st) as (today & st1 & Hrun & _ & (_ & _ & Hb & Ho & Hp) & Hm).
  assert (stored st1 = stored st) as Hs
    by (unfold todayLocalISO in Hrun; injection Hrun as _ <-; reflexivity).
  rewrite !(bind_run _ _ _ _ _ Hrun).
  destruct (decorateTasks (overlays st) (mergedTasks (merged st))) as [open|e];
    [rewrite !bind_lift_ret | rewrite !bind_lift_throw; apply Hkeep; assumption].
  destruct (runOps parse true response) as [payload|e] eqn:Er;
    [rewrite !bind_lift_ret | rewrite !bind_lift_throw; apply Hkeep; assumption].
  destruct (negb (truthy payload) || negb (isArray (getField payload "ops")));
    [apply Hkeep; assumption|].
  cbn [setPending snd overlays base merged stored pendingAiPayload].
  repeat split; try assumption.
  right. exists payload. repeat split.
  unfold runOps in Er. cbn [negb] in Er.
  destruct response as [txt|e]; [|discriminate Er].
  destruct (negb (truthy (tryParseJsonFromText parse txt))); [discriminate Er|].
  destruct (validatePayload (tryParseJsonFromText parse txt)) eqn:Ev; [|discriminate Er].
  injection Er as <-. exact Ev.
Qed.

(** ** The Apply button of the review sheet *)



(** ** The AI settings *)

(** X18: the AI features are off unless the stored settings turn them on.
    [loadAiSettings] yields truthy [enabled] only when the stored text is
    not empty, parses, and the parsed value has an own truthy [enabled]
    property.  On the loaded settings [getAiReadyState] reports [enabled]
    as that flag, and [ready] exactly when the flag is set and the provider
    is [openai_compat] or there is an API key: [rememberKey] plays no part,
    and a state that is not ready is [disabled] or [missing_key]. *)
Theorem ai_is_off_until_settings_enable_it (parse : string -> option jsval)
        (raw : option string) :
  (truthy (getField (Providers.loadAiSettings parse raw) "enabled") = true ->
   exists text v e,
     raw = Some text /\ text <> ""%string /\ parse text = Some v
     /\ In ("enabled"%string, e) (ownEntries v) /\ truthy e = true)
  /\ Providers.enabled (Providers.getAiReadyState (Providers.loadAiSettings parse raw))
     = truthy (getField (Providers.loadAiSettings parse raw) "enabled")
  /\ Providers.ready (Providers.getAiReadyState (Providers.loadAiSettings parse raw))
     = truthy (getField (Providers.loadAiSettings parse raw) "enabled")
       && (isStr "openai_compat" (getField (Providers.loadAiSettings parse raw) "provider")
           || truthy (getField (Providers.loadAiSettings parse raw) "apiKey"))
  /\ (Providers.ready (Providers.getAiReadyState (Providers.loadAiSettings parse raw)) = false ->
      Providers.reason (Providers.getAiReadyState (Providers.loadAiSettings parse raw))
      = (if truthy (getField (Providers.loadAiSettings parse raw) "enabled")
         then "missing_key" else "disabled")%string).
Proof.
  split.
  - unfold Providers.loadAiSettings.
    destruct raw as [text|]; [|discriminate].
    destruct (String.eqb_spec text "") as [->|Hne]; [discriminate|].
    destruct (parse text) as [v|] eqn:Ep; [|discriminate].
    unfold getField, spread2.
    pose proof (lookupProp_assign "enabled" (ownEntries v)
                  (ownEntries Providers.defaultAiSettings)) as H.
    destruct (lookupProp "enabled" (assign (ownEntries Providers.defaultAiSettings)
                                           (ownEntries v))) as [e|]; [|discriminate].
    intros He. destruct H as [Hin | [_ Hd]].
    + exists text, v, e. repeat split; assumption.
    + injection Hd as <-. discriminate He.
  - generalize (Providers.loadAiSettings parse raw). intros s.
    unfold Providers.getAiReadyState.
    destruct (truthy (getField s "enabled")),
             (isStr "openai_compat" (getField s "provider")),
             (truthy (getField s "apiKey")),
             (truthy (getField s "rememberKey"));
      cbn; repeat split; try reflexivity; intros H; discriminate H.
Qed.

(** ** The context bundle *)

Section Bundles.

Import ContextBundle.

Lemma mapOutcome_all {A B : Type} (f : A -> outcome B) (P : A -> Prop) (Q : A -> B -> Prop)
      (xs : list A) :
  (forall x, P x -> exists y, f x = Ret y /\ Q x y) ->
  List.Forall P xs ->
  exists ys, mapOutcome f xs = Ret ys /\ List.Forall2 Q xs ys.
Proof.
  intros Hf. induction 1 as [|x rest Hx _ IH]; cbn [mapOutcome].
  - exists []. split; [reflexivity | constructor].
  - destruct (Hf x Hx) as (y & -> & Hy). destruct IH as (ys & -> & Hys).
    exists (y :: ys). split; [reflexivity | constructor; assumption].
Qed.

Lemma substring_length (n : nat) (s : string) :
  (String.length (String.substring 0 n s) <= n)%nat.
Proof.
  revert s. induction n as [|n IH]; intros [|c s]; cbn [String.substring String.length]; try lia.
  specialize (IH s). lia.
Qed.

Lemma normalizeType_kinds (t : jsval) :
  negb (truthy t) || isString t = true ->
  exists ty, AiContext.normalizeType t = Ret ty
             /\ In (VStr ty) [VStr "task"; VStr "event"; VStr "meeting"].
Proof.
  intros H. unfold AiContext.normalizeType, jsOr.
  destruct (truthy t) eqn:Et.
  - destruct t; try discriminate H.
    destruct (String.eqb (trim (toLowerCase s)) ""); [eexists; split; [reflexivity|]; cbn; auto|].
    destruct (String.eqb_spec (trim (toLowerCase s)) "event") as [->|_];
      [eexists; split; [reflexivity|]; cbn; auto|].
    destruct (String.eqb_spec (trim (toLowerCase s)) "meeting") as [->|_];
      [eexists; split; [reflexivity|]; cbn; auto|].
    destruct (String.eqb_spec (trim (toLowerCase s)) "task") as [->|_];
      eexists; (split; [reflexivity|]); cbn; auto.
  - eexists; split; [reflexivity|]. cbn; auto.
Qed.

Lemma notesHead_short (notes : jsval) :
  negb (truthy notes) || isString notes || isArray notes = true ->
  exists v, notesHead notes = Ret v
            /\ (forall s, v = VStr s -> (String.length s <= 220)%nat)
            /\ (forall xs, v = VArr xs -> (length xs <= 220)%nat).
Proof.
  intros H. unfold notesHead, jsOr.
  destruct (truthy notes) eqn:Et.
  - destruct notes; try discriminate H.
    + eexists. split; [reflexivity|]. split; [|discriminate].
      intros s0 [= <-]. apply substring_length.
    + eexists. split; [reflexivity|]. split; [discriminate|].
      intros xs0 [= <-]. rewrite List.length_firstn. lia.
  - eexists. split; [reflexivity|]. split; [|discriminate].
    intros s0 [= <-]. cbn. lia.
Qed.

Lemma pick_brief (ov : Overlays) (x : jsval) :
  plainItem x = true ->
  exists y, pick ov x = Ret y
            /\ briefItem (if isCompleted ov x then "completed" else "open") y
            /\ getField y "id" = getField x "id".
Proof.
  unfold plainItem. intros H.
  apply andb_true_iff in H as [H Hnotes]. apply andb_true_iff in H as [_ Hty].
  unfold pick.
  destruct (normalizeType_kinds _ Hty) as (ty & -> & Hkind).
  destruct (notesHead_short _ Hnotes) as (v & -> & Hs & Ha).
  eexists. split; [reflexivity|]. unfold briefItem.
  repeat split; try reflexivity; assumption.
Qed.

Lemma filterItems_plain (keep : jsval -> bool) (xs : list jsval) :
  List.Forall (fun x => plainItem x = true) xs ->
  filterItems keep xs = Ret (List.filter keep xs).
Proof.
  intros H. unfold filterItems.
  replace (existsb nullish xs) with false; [reflexivity|].
  symmetry. induction H as [|x rest Hx _ IH]; [reflexivity|].
  cbn [existsb]. rewrite IH.
  unfold plainItem in Hx. destruct (nullish x); [discriminate Hx | reflexivity].
Qed.

Lemma In_firstn {A : Type} (n : nat) (x : A) (xs : list A) :
  In x (firstn n xs) -> In x xs.
Proof.
  revert xs. induction n as [|n IH]; intros [|a xs]; cbn [firstn In]; try contradiction.
  intros [H | H]; [left; exact H | right; exact (IH xs H)].
Qed.

Lemma Forall_firstn_filter (keep : jsval -> bool) (P : jsval -> Prop) (n : nat)
      (xs : list jsval) :
  List.Forall P xs ->
  List.Forall (fun x => P x /\ keep x = true) (firstn n (List.filter keep xs)).
Proof.
  intros H. apply List.Forall_forall. intros x Hin.
  apply In_firstn in Hin. apply filter_In in Hin as [Hin Hk].
  split; [exact (proj1 (List.Forall_forall _ _) H x Hin) | exact Hk].
Qed.

Lemma Forall2_right {A B : Type} (Q : B -> Prop) (R : A -> B -> Prop) (xs : list A)
      (ys : list B) :
  List.Forall2 R xs ys -> (forall x y, R x y -> Q y) -> List.Forall Q ys.
Proof. induction 1; intros HQ; constructor; eauto. Qed.

Lemma Forall2_same_length {A B : Type} (R : A -> B -> Prop) (xs : list A) (ys : list B) :
  List.Forall2 R xs ys -> length ys = length xs.
Proof. induction 1; cbn [length]; congruence. Qed.

(** One of the three lists of the bundle. *)
Lemma picked_list (ov : Overlays) (keep : jsval -> bool) (status : string) (n : nat)
      (xs : list jsval) :
  (forall x, keep x = true -> (if isCompleted ov x then "completed" else "open")%string = status) ->
  List.Forall (fun x => plainItem x = true) xs ->
  exists ys, mapOutcome (pick ov) (firstn n (List.filter keep xs)) = Ret ys
             /\ (length ys <= n)%nat
             /\ List.Forall (briefItem status) ys
             /\ idsOf ys = idsOf (firstn n (List.filter keep xs)).
Proof.
  intros Hkeep Hall.
  destruct (mapOutcome_all (pick ov) (fun x => plainItem x = true /\ keep x = true)
              (fun x y => briefItem status y /\ getField y "id" = getField x "id")
              (firstn n (List.filter keep xs))) as (ys & Hrun & Hys).
  - intros x [Hp Hk]. destruct (pick_brief ov x Hp) as (y & Hy & Hb & Hid).
    exists y. rewrite (Hkeep x Hk) in Hb. split; [exact Hy | split; [exact Hb | exact Hid]].
  - apply Forall_firstn_filter. exact Hall.
  - exists ys. split; [exact Hrun|]. split; [|split].
    + rewrite (Forall2_same_length _ _ _ Hys), List.length_firstn. lia.
    + apply (Forall2_right _ _ _ _ Hys). intros x y [Hb _]. exact Hb.
    + unfold idsOf. clear Hrun. induction Hys as [|x y xs' ys' [_ Hid] _ IH]; [reflexivity|].
      cbn [map]. rewrite Hid, IH. reflexivity.
Qed.

End Bundles.

(** X19: the context bundle is bounded and consistent.  When no item of
    the merged view is [null] and every type is a string or falsy and all
    notes are a string, an array or falsy, [buildAiContext] returns a
    bundle with at most 220 open tasks, 60 completed tasks and 60 open
    events, taken in the order of the merged view, and at most 60 entries
    of either log; every item in it carries the status of its list, one of
    the types [task], [event], [meeting], and notes cut to 220 characters. *)
Theorem context_bundle_is_bounded (m : option MergedView) (ov : Overlays) (from : string)
        (ref : jsval) :
  List.Forall (fun x => plainItem x = true) (mergedTasks m ++ mergedEvents m) ->
  exists b,
    ContextBundle.buildAiContext m ov from ref = Ret b
    /\ (length (ContextBundle.open_tasks b) <= 220)%nat
    /\ (length (ContextBundle.recent_completed b) <= 60)%nat
    /\ (length (ContextBundle.open_events b) <= 60)%nat
    /\ (length (ContextBundle.completion_log_tail b) <= 60)%nat
    /\ (length (ContextBundle.move_log_tail b) <= 60)%nat
    /\ List.Forall (briefItem "open") (ContextBundle.open_tasks b)
    /\ List.Forall (briefItem "completed") (ContextBundle.recent_completed b)
    /\ List.Forall (briefItem "open") (ContextBundle.open_events b)
    /\ idsOf (ContextBundle.open_tasks b)
       = idsOf (firstn 220 (List.filter (fun t => negb (ContextBundle.isCompleted ov t))
                                        (mergedTasks m)))
    /\ idsOf (ContextBundle.recent_completed b)
       = idsOf (firstn 60 (List.filter (ContextBundle.isCompleted ov) (mergedTasks m)))
    /\ idsOf (ContextBundle.open_events b)
       = idsOf (firstn 60 (List.filter (fun e => negb (ContextBundle.isCompleted ov e))
                                       (mergedEvents m))).
Proof.
  intros Hall. apply List.Forall_app in Hall as [Ht He].
  unfold ContextBundle.buildAiContext.
  rewrite !filterItems_plain by assumption.
  destruct (picked_list ov (fun t => negb (ContextBundle.isCompleted ov t)) "open" 220
              (mergedTasks m)) as (open & -> & Hlen1 & Hb1 & Hid1); [|exact Ht|].
  { intros x Hx. destruct (ContextBundle.isCompleted ov x); [discriminate Hx | reflexivity]. }
  destruct (picked_list ov (ContextBundle.isCompleted ov) "completed" 60
              (mergedTasks m)) as (done & -> & Hlen2 & Hb2 & Hid2); [|exact Ht|].
  { intros x Hx. rewrite Hx. reflexivity. }
  destruct (picked_list ov (fun t => negb (ContextBundle.isCompleted ov t)) "open" 60
              (mergedEvents m)) as (evs & -> & Hlen3 & Hb3 & Hid3); [|exact He|].
  { intros x Hx. destruct (ContextBundle.isCompleted ov x); [discriminate Hx | reflexivity]. }
  eexists. split; [reflexivity|].
  cbn [ContextBundle.open_tasks ContextBundle.recent_completed ContextBundle.open_events
       ContextBundle.completion_log_tail ContextBundle.move_log_tail].
  repeat split; try assumption; apply sliceLast_length.
Qed.

Lemma context_bundle_is_bounded_witness :
  exists b,
    ContextBundle.buildAiContext (Some (mergeData oneTaskBase quickAddedOverlays))
                                 quickAddedOverlays "manual" VNull = Ret b
    /\ idsOf (ContextBundle.open_tasks b) = [VStr "t1"; VStr "temp_lw3k9"].
Proof.
  destruct (context_bundle_is_bounded (Some (mergeData oneTaskBase quickAddedOverlays))
              quickAddedOverlays "manual" VNull) as (b & Hb & _ & _ & _ & _ & _ & _ & _ & _ & Hid & _).
  - vm_compute. repeat constructor.
  - exists b. split; [exact Hb|]. rewrite Hid. vm_compute. reflexivity.
Defined.

(** ** Text around the payload *)

Section Wrapping.

Lemma append_String (a : ascii) (s t : string) : String a s +:+ t = String a (s +:+ t).
Proof. reflexivity. Qed.

Lemma append_Empty (t : string) : EmptyString +:+ t = t.
Proof. reflexivity. Qed.

Lemma fromFirst_app (c : ascii) (pre s : string) :
  occurs c pre = false -> fromFirst c (pre +:+ s) = fromFirst c s.
Proof.
  induction pre as [|a pre IH]; rewrite ?append_String, ?append_Empty;
    cbn [occurs fromFirst]; intros H; [reflexivity|].
  apply orb_false_iff in H as [-> H]. exact (IH H).
Qed.

Lemma throughLast_absent (c : ascii) (s : string) :
  occurs c s = false -> throughLast c s = None.
Proof.
  induction s as [|a s IH]; cbn [occurs throughLast]; intros H; [reflexivity|].
  apply orb_false_iff in H as [Ha H]. rewrite (IH H), Ha. reflexivity.
Qed.

Lemma throughLast_app (c : ascii) (k post : string) :
  occurs c post = false -> throughLast c (k +:+ post) = throughLast c k.
Proof.
  intros H. induction k as [|a k IH]; rewrite ?append_String, ?append_Empty; cbn [throughLast].
  - exact (throughLast_absent c post H).
  - rewrite IH. reflexivity.
Qed.

Lemma throughLast_whole (c : ascii) (k : string) :
  endsWithChar c k = true -> throughLast c k = Some k.
Proof.
  unfold endsWithChar.
  induction k as [|a k IH]; cbn [lastChar throughLast]; intros H; [discriminate H|].
  destruct k as [|b k'].
  - cbn [throughLast]. rewrite Ascii.eqb_sym. rewrite H. reflexivity.
  - rewrite (IH H). reflexivity.
Qed.

Lemma startsWith_brace (s : string) :
  startsWith "{" s = true -> exists rest, s = String "{" rest.
Proof.
  unfold startsWith. destruct s as [|a s]; cbn [String.prefix]; [discriminate|].
  destruct (ascii_dec "{" a) as [<-|]; [|discriminate].
  intros _. exists s. reflexivity.
Qed.

Lemma trimEnd_head (s rest : string) :
  trimEnd s = String "{" rest -> exists rest', s = String "{" rest'.
Proof.
  destruct s as [|a s]; cbn [trimEnd]; [discriminate|].
  destruct (trimEnd s); [destruct (isWhite a); [discriminate|]|];
    intros [= -> _]; eexists; reflexivity.
Qed.

Lemma trimStart_to_brace (pre rest : string) :
  occurs "{" pre = false ->
  startsWith "{" (trimStart (pre +:+ String "{" rest)) = true ->
  trimStart (pre +:+ String "{" rest) = String "{" rest.
Proof.
  induction pre as [|a pre IH]; rewrite ?append_String, ?append_Empty;
    cbn [occurs trimStart]; intros Ho Hs.
  - reflexivity.
  - apply orb_false_iff in Ho as [Ha Ho].
    destruct (isWhite a); [exact (IH Ho Hs)|].
    apply startsWith_brace in Hs as (r & [= -> _]).
    discriminate Ha.
Qed.

Lemma trimEnd_app (a post : string) :
  trimEnd (a +:+ post)
  = match trimEnd post with
    | EmptyString => trimEnd a
    | String _ _ => a +:+ trimEnd post
    end.
Proof.
  induction a as [|c a IH]; rewrite ?append_String, ?append_Empty; cbn [trimEnd].
  - destruct (trimEnd post); reflexivity.
  - rewrite IH. destruct (trimEnd post) as [|x t]; [reflexivity|].
    destruct a; reflexivity.
Qed.

Lemma trimEnd_keeps (c : ascii) (m : string) :
  lastChar m = Some c -> isWhite c = false -> trimEnd m = m.
Proof.
  intros Hl Hw. induction m as [|a m IH]; [reflexivity|].
  cbn [trimEnd]. destruct m as [|b m'].
  - cbn [trimEnd lastChar] in *. injection Hl as ->. rewrite Hw. reflexivity.
  - rewrite (IH Hl). reflexivity.
Qed.

Lemma lastChar_app (a : string) (x : ascii) (t : string) :
  lastChar (a +:+ String x t) = lastChar (String x t).
Proof.
  induction a as [|c a IH]; [reflexivity|].
  rewrite append_String, <- IH.
  destruct a; reflexivity.
Qed.

Lemma lastChar_occurs (c : ascii) (s : string) :
  lastChar s = Some c -> occurs c s = true.
Proof.
  induction s as [|a s IH]; [discriminate|].
  cbn [occurs]. destruct s as [|b s'].
  - intros [= ->]. rewrite Ascii.eqb_refl. reflexivity.
  - intros H. rewrite (IH H). apply orb_true_r.
Qed.

Lemma occurs_trimEnd (c : ascii) (s : string) :
  occurs c s = false -> occurs c (trimEnd s) = false.
Proof.
  induction s as [|a s IH]; cbn [occurs trimEnd]; intros H; [reflexivity|].
  apply orb_false_iff in H as [Ha H]. specialize (IH H).
  destruct (trimEnd s) as [|x t].
  - destruct (isWhite a); [reflexivity|]. cbn [occurs]. rewrite Ha. reflexivity.
  - cbn [occurs] in *. rewrite Ha. exact IH.
Qed.

(** The stretch that the pattern matches in a wrapped payload. *)
Lemma matchBraces_wrapped (pre m post : string) :
  occurs "{" pre = false -> occurs "}" post = false ->
  startsWith "{" m = true -> endsWithChar "}" m = true ->
  matchBraces (pre +:+ m +:+ post) = Some m.
Proof.
  intros Hpre Hpost Hs He.
  destruct (startsWith_brace m Hs) as (rest & ->).
  unfold matchBraces. rewrite (fromFirst_app _ _ _ Hpre).
  rewrite append_String. cbn [fromFirst Ascii.eqb Bool.eqb andb].
  rewrite (throughLast_app _ _ _ Hpost).
  rewrite throughLast_whole; [reflexivity|].
  unfold endsWithChar in *. cbn [lastChar] in He.
  destruct rest; [discriminate He | exact He].
Qed.

(** When the trimmed text passes the first test, it is the payload. *)
Lemma trim_wrapped (pre m post : string) :
  occurs "{" pre = false -> occurs "}" post = false ->
  startsWith "{" m = true -> endsWithChar "}" m = true ->
  startsWith "{" (trim (pre +:+ m +:+ post)) = true ->
  endsWithChar "}" (trim (pre +:+ m +:+ post)) = true ->
  trim (pre +:+ m +:+ post) = m.
Proof.
  intros Hpre Hpost Hs He Hts Hte.
  destruct (startsWith_brace m Hs) as (rest & ->).
  unfold trim in *. rewrite append_String in *.
  destruct (startsWith_brace _ Hts) as (r1 & Hr1).
  destruct (trimEnd_head _ _ Hr1) as (r2 & Hr2).
  assert (trimStart (pre +:+ String "{" (rest +:+ post)) = String "{" (rest +:+ post)) as Hstart.
  { apply trimStart_to_brace; [exact Hpre|]. rewrite Hr2. destruct r2; reflexivity. }
  rewrite Hstart in *.
  rewrite <- append_String in *.
  rewrite trimEnd_app in *.
  destruct (trimEnd post) as [|x t] eqn:Et.
  - unfold endsWithChar in He. destruct (lastChar (String "{" rest)) as [c|] eqn:El;
      [|discriminate He].
    apply Ascii.eqb_eq in He. subst c.
    exact (trimEnd_keeps "}" _ El eq_refl).
  - exfalso. unfold endsWithChar in Hte. rewrite lastChar_app in Hte.
    destruct (lastChar (String x t)) as [c|] eqn:El; [|discriminate Hte].
    apply Ascii.eqb_eq in Hte. subst c.
    pose proof (lastChar_occurs _ _ El) as Hocc.
    pose proof (occurs_trimEnd "}" post Hpost) as Hno.
    rewrite Et in Hno. congruence.
Qed.

End Wrapping.

(** X20: text around the payload is tolerated.  When the answer of the
    completion service is a payload that starts with an opening brace, ends
    with a closing brace and parses, with any text before it that has no
    opening brace and any text after it that has no closing brace,
    [tryParseJsonFromText] returns the parsed payload. *)
Theorem extraction_tolerates_brace_free_text (parse : string -> option jsval)
        (pre m post : string) (v : jsval) :
  occurs "{" pre = false ->
  occurs "}" post = false ->
  startsWith "{" m = true ->
  endsWithChar "}" m = true ->
  parse m = Some v ->
  tryParseJsonFromText parse (pre +:+ m +:+ post) = v.
Proof.
  intros Hpre Hpost Hs He Hv.
  unfold tryParseJsonFromText.
  rewrite (matchBraces_wrapped pre m post Hpre Hpost Hs He), Hv.
  destruct (startsWith "{" (trim (pre +:+ m +:+ post))) eqn:Hts; [|reflexivity].
  destruct (endsWithChar "}" (trim (pre +:+ m +:+ post))) eqn:Hte; [|reflexivity].
  cbn [andb].
  rewrite (trim_wrapped pre m post Hpre Hpost Hs He Hts Hte), Hv. reflexivity.
Qed.

Lemma extraction_tolerates_brace_free_text_witness :
  tryParseJsonFromText JSON_parse
    ("Sure, here it is: " +:+ jsonText "{'summary':'ok','ops':[]}" +:+ " Anything else?")
  = VObj [("summary", VStr "ok"); ("ops", VArr [])].
Proof.
  apply (extraction_tolerates_brace_free_text JSON_parse); reflexivity.
Defined.

(** ** Decorated tasks *)

(** X21: [decorateTasks] on objects whose type is a string or falsy
    returns one decorated copy per task, in order.  The copy has
    [__status] equal to [getStatus] of the task, a type that is a
    non-empty string ([task] when the task has none), and every other
    property as the task has it. *)
Theorem decorated_tasks_keep_fields (ov : Overlays) (ts : list jsval) :
  List.Forall (fun t => typedObject t = true) ts ->
  exists ds,
    decorateTasks ov ts = Ret ds
    /\ List.Forall2
         (fun t d =>
            getField d "__status" = VStr (getStatus ov t)
            /\ (exists ty, getField d "type" = VStr ty /\ ty <> ""%string)
            /\ (getField t "type" = VUndef -> getField d "type" = VStr "task")
            /\ forall k, k <> "__status"%string -> k <> "type"%string ->
                         getField d k = getField t k)
         ts ds.
Proof.
  intros Hall. unfold decorateTasks.
  apply (mapOutcome_all (decorate ov) (fun t => typedObject t = true)); [|exact Hall].
  intros t Ht. unfold typedObject in Ht.
  destruct t as [| | | | | |props]; try discriminate Ht.
  unfold decorate. cbn [nullish].
  assert (exists v, Store.normalizeType (getField (VObj props) "type") = Ret v
                    /\ (getField (VObj props) "type" = VUndef -> v = ""%string))
    as (v & -> & Hundef).
  { unfold Store.normalizeType, jsOr.
    destruct (truthy (getField (VObj props) "type")) eqn:Et.
    - destruct (getField (VObj props) "type"); try discriminate Ht; try discriminate Et.
      destruct (String.eqb (trim (toLowerCase s)) "");
        [|destruct (String.eqb (trim (toLowerCase s)) "event"
                    || String.eqb (trim (toLowerCase s)) "meeting"
                    || String.eqb (trim (toLowerCase s)) "task")];
        eexists; (split; [reflexivity | discriminate]).
    - eexists. split; reflexivity. }
  eexists. split; [reflexivity|].
  rewrite !getField_setProp. cbn [String.eqb Ascii.eqb Bool.eqb andb].
  split; [|split; [|split]].
  - unfold isDone, getStatus. destruct (isStr "completed" _); reflexivity.
  - eexists. split; [reflexivity|].
    destruct (String.eqb_spec v "") as [->|Hne]; [discriminate | exact Hne].
  - intros Hu. rewrite (Hundef Hu). reflexivity.
  - intros k Hs Hty. rewrite !getField_setProp.
    destruct (String.eqb_spec k "type") as [->|_]; [contradiction|].
    destruct (String.eqb_spec k "__status") as [->|_]; [contradiction|].
    reflexivity.
Qed.

Lemma decorated_tasks_keep_fields_witness :
  exists ds,
    decorateTasks quickAddedOverlays (mergedTasks (Some (mergeData oneTaskBase quickAddedOverlays)))
    = Ret ds
    /\ map (fun d => getField d "type") ds = [VStr "task"; VStr "task"].
Proof.
  destruct (decorated_tasks_keep_fields quickAddedOverlays
              (mergedTasks (Some (mergeData oneTaskBase quickAddedOverlays))))
    as (ds & Hrun & _).
  - vm_compute. repeat constructor.
  - exists ds. split; [exact Hrun|].
    vm_compute in Hrun. injection Hrun as <-. reflexivity.
Defined.

(** ** Overdue items *)

(** X22: an item whose due date is the text of the day [day] (of a year
    from 100 on) is overdue on the day [today] exactly when it is not
    completed and [day] is before [today]: an item due today is not
    overdue, and a completed item never is. *)
Theorem overdue_is_open_and_past (ov : Overlays) (t : jsval) (today day y m d : Z) :
  getField t "due_date" = VStr (isoFromDate (ValidDate day)) ->
  civilFromDays day = (y, m, d) ->
  100 <= y ->
  -100000000 <= day < 100000000 ->
  isOverdue ov t (ValidDate today) = negb (isDone ov t) && (day <? today)
  /\ isOverdue ov t (ValidDate day) = false.
Proof.
  intros Hdue Hc Hy Hr. unfold isOverdue.
  rewrite Hdue, (iso_round_trip_days day y m d Hc Hy Hr). cbn [dateBefore].
  rewrite Z.ltb_irrefl.
  destruct (isDone ov t); split; reflexivity.
Qed.

Lemma overdue_is_open_and_past_witness :
  isOverdue freshOverlays
            (VObj [("id", VStr "t1"); ("title", VStr "Draft report");
                   ("due_date", VStr "2024-01-10")])
            (ValidDate 19733) = true.
Proof.
  destruct (overdue_is_open_and_past freshOverlays
              (VObj [("id", VStr "t1"); ("title", VStr "Draft report");
                     ("due_date", VStr "2024-01-10")])
              19733 19732 2024 1 10) as [H _].
  - reflexivity.
  - reflexivity.
  - lia.
  - lia.
  - rewrite H. reflexivity.
Defined.
